(** * Safety-stock calculator ([app_v5.py]): shallow embedding and properties

    The calculation pass of [app_v5.py] (lines 170-325), the filters and
    the loops that prepare the sheet are embedded as pure functions over
    explicit frames.  Conventions of the embedding:

    - a float64 is a real or one of the IEEE special values ([Np.float64]);
    - the arithmetic of the loop (lines 201-207), of the vectorised lines
      210-223 and 256 and of [round(2)] (line 234) rounds every result to
      binary64.  The rounding function and C's [pow(x, 2.0)], which
      Python's [x ** 2] calls, are the parameter [Np.Binary64] of the
      development, known by their accuracy only; a result at or beyond
      the overflow threshold is an infinity, and Python raises
      OverflowError where [**] overflows;
    - the aggregates of a column ([sum], [mean], whose order of summation
      is numpy's own) and the difference of two sums (line 258) are taken
      exact;
    - a numeric cell of the sheet is a whole number of an int64 column or
      a finite number of a float64 column ([numero]); [iterrows] yields it
      as a Python int or a Python float.  Infinite cells (the text 'inf')
      and columns of unsigned or mixed type are outside the sheets
      considered;
    - int64 arithmetic wraps around ([Np.wrap64]); the cast [astype(int)]
      is [Np.astype_int];
    - the columns 'Classe' and 'Descrição_do_Material' are not required by
      lines 79-98 and may be missing from the sheet; the cells of the
      text columns are texts (an empty cell of a text column is outside
      the sheets considered);
    - [st.warning] appends to a log, [st.stop()] and Python exceptions are
      outcomes of the pass ([outcome]);
    - [scipy.stats.norm.ppf] is a parameter [ppf] of the development; it
      is given the quotient [level / 100] as a real number, whose rounding
      to binary64 is part of it. *)

From Stdlib Require Import Reals Lra Lia ZArith List String Ascii Bool.
From Stdlib Require OrderedTypeEx.
From Stdlib Require Import Sorting.Sorted.
Import ListNotations.

Set Implicit Arguments.

(* ================================================================== *)
(** ** numpy scalars *)

Module Np.

Local Open Scope R_scope.

Inductive float64 : Type :=
| Fin (r : R)   (* a finite value *)
| PInf          (* +inf *)
| NInf          (* -inf *)
| NaN.

Definition Rgtb (x y : R) : bool := if Rlt_dec y x then true else false.
Definition Reqb (x y : R) : bool := if Req_dec_T x y then true else false.
Definition Rleb (x y : R) : bool := if Rle_dec x y then true else false.

Definition isnan (a : float64) : bool :=
  match a with NaN => true | _ => false end.

(** *** Operations taken exact *)

Definition neg (a : float64) : float64 :=
  match a with
  | Fin x => Fin (- x)
  | PInf => NInf
  | NInf => PInf
  | NaN => NaN
  end.

Definition add (a b : float64) : float64 :=
  match a, b with
  | NaN, _ | _, NaN => NaN
  | Fin x, Fin y => Fin (x + y)
  | PInf, NInf | NInf, PInf => NaN
  | PInf, _ | _, PInf => PInf
  | NInf, _ | _, NInf => NInf
  end.

Definition sub (a b : float64) : float64 := add a (neg b).

(** An infinity times a finite [x]: the sign of [x] decides, [inf * 0] is
    NaN. *)
Definition scale_inf (positive : bool) (x : R) : float64 :=
  if Rgtb x 0 then (if positive then PInf else NInf)
  else if Rgtb 0 x then (if positive then NInf else PInf)
  else NaN.

Definition mul (a b : float64) : float64 :=
  match a, b with
  | NaN, _ | _, NaN => NaN
  | Fin x, Fin y => Fin (x * y)
  | PInf, Fin x | Fin x, PInf => scale_inf true x
  | NInf, Fin x | Fin x, NInf => scale_inf false x
  | PInf, PInf | NInf, NInf => PInf
  | PInf, NInf | NInf, PInf => NInf
  end.

(** Division never raises: [x / 0] is an infinity (NaN for [0 / 0]), with a
    RuntimeWarning only.  The sign of a zero divisor is not modelled. *)
Definition div (a b : float64) : float64 :=
  match a, b with
  | NaN, _ | _, NaN => NaN
  | Fin x, Fin y =>
      if Reqb y 0
      then (if Rgtb x 0 then PInf else if Rgtb 0 x then NInf else NaN)
      else Fin (x / y)
  | Fin _, _ => Fin 0
  | PInf, Fin y => if Rgtb 0 y then NInf else PInf
  | NInf, Fin y => if Rgtb 0 y then PInf else NInf
  | _, _ => NaN
  end.

(** *** binary64 *)

(** The overflow threshold, halfway between the largest finite binary64
    and 2^1024: an operation whose exact result reaches it in magnitude
    returns an infinity. *)
Definition limite : R := IZR (2 ^ 1024 - 2 ^ 970).

(** The largest finite binary64. *)
Definition max_float : R := IZR (2 ^ 1024 - 2 ^ 971).

(** Rounding to binary64 ([rnd], round to nearest, ties to even) and C's
    [pow(x, 2.0)] ([pow2], and [pow2_estoura] for whether it overflows),
    with what is used of them: rounding is monotone, keeps the integers
    up to 2^53 and is accurate to 1 part in 10^15 (the unit roundoff is
    2^-53, the smallest subnormal 2^-1074); [pow] returns non-negative
    squares, less than one unit in the last place away from the exact
    ones, and overflows for a square from 2^1024 on and for none up to
    the largest float.  Beyond the overflow threshold, where no operation
    rounds, [rnd] may be taken to be the identity. *)
Record Binary64 : Type := mkBinary64 {
  rnd : R -> R;
  pow2 : R -> R;
  pow2_estoura : R -> bool;
  rnd_mono : forall x y, x <= y -> rnd x <= rnd y;
  rnd_int : forall n, (Z.abs n <= 2 ^ 53)%Z -> rnd (IZR n) = IZR n;
  rnd_err : forall x, Rabs (rnd x - x) <= (Rabs x + 1) / 1000000000000000;
  pow2_nonneg : forall x, 0 <= pow2 x;
  pow2_0 : pow2 0 = 0;
  pow2_err : forall x, Rabs (pow2 x - x * x) <= (x * x + 1) / 1000000000000000;
  pow2_estoura_nao : forall x, x * x <= max_float -> pow2_estoura x = false;
  pow2_estoura_sim : forall x, IZR (2 ^ 1024) <= x * x -> pow2_estoura x = true
}.

(** Arithmetic without rounding error: an instance to evaluate the
    definitions on sample data. *)
Definition exato : Binary64 :=
  {| rnd := fun x => x;
     pow2 := fun x => x * x;
     pow2_estoura := fun x => Rleb limite (x * x);
     rnd_mono := fun x y H => H;
     rnd_int := fun n _ => eq_refl;
     rnd_err := fun x =>
       ltac:(unfold Rminus; rewrite Rplus_opp_r, Rabs_R0;
             pose proof (Rabs_pos x); lra);
     pow2_nonneg := fun x => ltac:(nra);
     pow2_0 := ltac:(lra);
     pow2_err := fun x =>
       ltac:(unfold Rminus; rewrite Rplus_opp_r, Rabs_R0; nra);
     pow2_estoura_nao := fun x (H : x * x <= max_float) =>
       ltac:(unfold Rleb; destruct (Rle_dec limite (x * x)) as [Hle|];
             [|reflexivity];
             exfalso; apply (Rlt_irrefl max_float);
             apply Rlt_le_trans with limite; [|lra];
             unfold max_float, limite; apply IZR_lt; reflexivity);
     pow2_estoura_sim := fun x (H : IZR (2 ^ 1024) <= x * x) =>
       ltac:(unfold Rleb; destruct (Rle_dec limite (x * x)) as [|Hn];
             [reflexivity|];
             exfalso; apply Hn;
             apply Rle_trans with (IZR (2 ^ 1024)); [|exact H];
             unfold limite; apply IZR_le; apply Zle_bool_imp_le;
             reflexivity) |}.

Section Arredondado.

Variable fl : Binary64.

(** The binary64 result of an operation whose exact result is [x]. *)
Definition arredondar (x : R) : float64 :=
  if Rleb limite x then PInf
  else if Rleb x (- limite) then NInf
  else Fin (rnd fl x).

(** [a + b] and [a * b] on float64 scalars and on Python floats. *)
Definition fadd (a b : float64) : float64 :=
  match a, b with
  | Fin x, Fin y => arredondar (x + y)
  | _, _ => add a b
  end.

Definition fmul (a b : float64) : float64 :=
  match a, b with
  | Fin x, Fin y => arredondar (x * y)
  | _, _ => mul a b
  end.

Definition fsub (a b : float64) : float64 :=
  match a, b with
  | Fin x, Fin y => arredondar (x - y)
  | _, _ => sub a b
  end.

(** [a / b]: division by zero gives an infinity or NaN and never raises. *)
Definition fdiv (a b : float64) : float64 :=
  match a, b with
  | Fin x, Fin y => if Reqb y 0 then div a b else arredondar (x / y)
  | _, _ => div a b
  end.

(** The float64 of an int64, as arithmetic between an int64 and a float64
    column makes it. *)
Definition of_int (n : Z) : float64 := Fin (rnd fl (IZR n)).

(** [np.sqrt]: NaN below zero (with a RuntimeWarning). *)
Definition sqrt (a : float64) : float64 :=
  match a with
  | Fin x => if Rgtb 0 x then NaN else Fin (rnd fl (R_sqrt.sqrt x))
  | PInf => PInf
  | _ => NaN
  end.

End Arredondado.

(** [np.ceil]: exact on binary64. *)
Definition ceil (a : float64) : float64 :=
  match a with
  | Fin x => Fin (IZR (Zceil x))
  | other => other
  end.

Definition int64_min : Z := (- 2 ^ 63)%Z.
Definition int64_max : Z := (2 ^ 63 - 1)%Z.

(** The int64 that int64 arithmetic leaves for the integer [n]. *)
Definition wrap64 (n : Z) : Z := ((n + 2 ^ 63) mod 2 ^ 64 - 2 ^ 63)%Z.

(** Truncation toward zero. *)
Definition trunc (x : R) : Z :=
  if Rgtb 0 x then Zceil x else Zfloor x.

(** [.astype(int)] of a float64 scalar: truncation when the value fits an
    int64; NaN, the infinities and values out of range give the "integer
    indefinite" value [int64_min] (x86-64, with a RuntimeWarning). *)
Definition astype_int (a : float64) : Z :=
  match a with
  | Fin x =>
      let n := trunc x in
      if ((int64_min <=? n) && (n <=? int64_max))%Z then n else int64_min
  | _ => int64_min
  end.

(** [np.rint]: round half to even, exact on binary64. *)
Definition rint (x : R) : Z :=
  let f := Zfloor x in
  if Rgtb (1 / 2) (x - IZR f) then f
  else if Rgtb (x - IZR f) (1 / 2) then (f + 1)%Z
  else if Z.even f then f else (f + 1)%Z.

(** [round(2)] of a float64 cell, as numpy computes it:
    [rint(x * 100) / 100], the product and the quotient rounded. *)
Definition round2 (fl : Binary64) (a : float64) : float64 :=
  match a with
  | Fin x =>
      match fmul fl (Fin x) (Fin 100) with
      | Fin y => Fin (rnd fl (IZR (rint y) / 100))
      | other => other
      end
  | other => other
  end.

(** [np.where(cond, a, b)], one element: both [a] and [b] are already
    evaluated when the selection happens. *)
Definition where_ (cond : bool) (a b : float64) : float64 :=
  if cond then a else b.

(** [sum()] with [skipna=True]. *)
Definition sum (l : list float64) : float64 :=
  fold_left add (filter (fun a => negb (isnan a)) l) (Fin 0).

(** [count()]: the non-null cells. *)
Definition count (l : list float64) : nat :=
  List.length (filter (fun a => negb (isnan a)) l).

(** [mean()] with [skipna=True]; NaN for no data. *)
Definition mean (l : list float64) : float64 :=
  div (sum l) (Fin (INR (count l))).

End Np.

Abbreviation float64 := Np.float64.
Abbreviation Fin := Np.Fin.
Abbreviation PInf := Np.PInf.
Abbreviation NInf := Np.NInf.
Abbreviation NaN := Np.NaN.

(* ================================================================== *)
(** ** Outcomes of a script run *)

(** A run either completes, is halted by [st.stop()], or dies with a Python
    exception. *)
Inductive outcome (A : Type) : Type :=
| Ok (a : A)
| Stop
| Raise (exn : string).

Arguments Ok {A} a.
Arguments Stop {A}.
Arguments Raise {A} exn.

Definition bind {A B : Type} (m : outcome A) (k : A -> outcome B) : outcome B :=
  match m with
  | Ok a => k a
  | Stop => Stop
  | Raise e => Raise e
  end.

Notation "x <- m ;; k" := (bind m (fun x => k))
  (at level 61, m at next level, right associativity).
Notation "' pat <- m ;; k" := (bind m (fun x => match x with pat => k end))
  (at level 61, pat pattern, m at next level, right associativity).

(* ================================================================== *)
(** ** Python numbers *)

Module Py.

Local Open Scope string_scope.
Local Open Scope R_scope.

(** A Python int (unbounded) or a Python float. *)
Inductive num : Type :=
| Int (n : Z)
| Float (x : float64).

Section Aritmetica.

Variable fl : Np.Binary64.

(** The float that mixed arithmetic makes of an operand: an int too large
    for a float is an OverflowError. *)
Definition to_float (a : num) : outcome float64 :=
  match a with
  | Float x => Ok x
  | Int n =>
      if Np.Rleb Np.limite (Rabs (IZR n)) then Raise "OverflowError"
      else Ok (Fin (Np.rnd fl (IZR n)))
  end.

(** [a + b]: exact on two ints, a float sum otherwise. *)
Definition add (a b : num) : outcome num :=
  match a, b with
  | Int n, Int m => Ok (Int (n + m))
  | _, _ => x <- to_float a ;; y <- to_float b ;; Ok (Float (Np.fadd fl x y))
  end.

(** [a * b]. *)
Definition mul (a b : num) : outcome num :=
  match a, b with
  | Int n, Int m => Ok (Int (n * m))
  | _, _ => x <- to_float a ;; y <- to_float b ;; Ok (Float (Np.fmul fl x y))
  end.

(** [a ** 2]: exact on an int; on a float, C's [pow], and an OverflowError
    where the square overflows. *)
Definition pow2 (a : num) : outcome num :=
  match a with
  | Int n => Ok (Int (n * n))
  | Float (Fin x) =>
      if Np.pow2_estoura fl x then Raise "OverflowError"
      else Ok (Float (Fin (Np.pow2 fl x)))
  | Float NaN => Ok (Float NaN)
  | Float _ => Ok (Float PInf)
  end.

End Aritmetica.

End Py.

(** [np.sqrt] of a Python number: an int is read as an int64 (or, from
    2^63 on, as a uint64) and converted to float64; an int that fits
    neither makes an object array, on which [np.sqrt] raises TypeError. *)
Definition np_sqrt (fl : Np.Binary64) (a : Py.num) : outcome float64 :=
  match a with
  | Py.Int n =>
      if ((- 2 ^ 63 <=? n) && (n <? 2 ^ 64))%Z
      then Ok (Np.sqrt fl (Fin (Np.rnd fl (IZR n))))
      else Raise "TypeError"
  | Py.Float x => Ok (Np.sqrt fl x)
  end.

(* ================================================================== *)
(** ** pandas frames *)

Module Pd.

Open Scope string_scope.

(** [x in labels] / [isin]. *)
Definition isin (x : string) (labels : list string) : bool :=
  existsb (String.eqb x) labels.

(** A labelled two-dimensional table with unique labels: the row labels
    and the column labels in display order, and the cell under each pair
    of labels.  [data] is read only under labels of the table ([loc]). *)
Record DataFrame (V : Type) : Type := mkDataFrame {
  index : list string;
  columns : list string;
  data : string -> string -> V
}.

(** [df.loc[r, c]]: KeyError (here [None]) for a label that is absent. *)
Definition loc {V} (df : DataFrame V) (r c : string) : option V :=
  if isin r (index df) && isin c (columns df)
  then Some (data df r c) else None.

(** A cell after [reindex]: the old value, or the missing marker (NaN)
    that pandas puts under a label the table did not have. *)
Inductive cell (V : Type) : Type :=
| Val (v : V)
| NA.
Arguments NA {V}.

(** [df.reindex(labels)]: the rows are exactly [labels], in that order;
    rows under other labels are dropped, rows under new labels are all
    NaN (no [fill_value] is passed). *)
Definition reindex {V} (labels : list string) (df : DataFrame V)
  : DataFrame (cell V) :=
  {| index := labels;
     columns := columns df;
     data := fun r c => if isin r (index df) then Val (data df r c) else NA |}.

(** Position of a label. *)
Fixpoint get_loc (labels : list string) (x : string) : option nat :=
  match labels with
  | [] => None
  | y :: rest =>
      if String.eqb x y then Some O
      else option_map S (get_loc rest x)
  end.

(** [df.columns = new]: the columns keep their position and take the
    label at that position in [new]. *)
Definition set_columns {V} (new : list string) (df : DataFrame V)
  : DataFrame V :=
  {| index := index df;
     columns := new;
     data := fun r c =>
               match get_loc new c with
               | Some j => data df r (nth j (columns df) c)
               | None => data df r c
               end |}.

(** Sorted, duplicate-free labels of a key column (the group keys of a
    [groupby], [sort=True]). *)
Fixpoint insert_label (x : string) (l : list string) : list string :=
  match l with
  | [] => [x]
  | y :: rest =>
      match String.compare x y with
      | Lt => x :: l
      | Eq => l
      | Gt => y :: insert_label x rest
      end
  end.

Definition unique_sorted (l : list string) : list string :=
  fold_right insert_label [] l.

Section PivotTable.

(** [pd.pivot_table(rows, values=.., index=.., columns=..,
    aggfunc=.., fill_value=.., margins=True, margins_name=..)], for one
    values column without missing cells.  [A] is the row type of the
    source table; [aggfunc] aggregates a non-empty group of rows. *)
Context {A V : Type}.
Variable index_key : A -> string.
Variable columns_key : A -> string.
Variable aggfunc : list A -> V.
Variable fill_value : V.
Variable margins_name : string.

Definition group_rc (r c : string) (rows : list A) : list A :=
  filter (fun x => String.eqb (index_key x) r && String.eqb (columns_key x) c) rows.

Definition group_r (r : string) (rows : list A) : list A :=
  filter (fun x => String.eqb (index_key x) r) rows.

Definition group_c (c : string) (rows : list A) : list A :=
  filter (fun x => String.eqb (columns_key x) c) rows.

(** A cell of the unstacked table: the aggregate of the group, or
    [fill_value] where the combination has no rows. *)
Definition pivot_cell (rows : list A) (r c : string) : V :=
  match group_rc r c rows with
  | [] => fill_value
  | g => aggfunc g
  end.

(** The table with its margins: the last column aggregates each row label
    over all its rows, the last row each column label, the corner the
    whole table. *)
Definition margins_frame (rows : list A) : DataFrame V :=
  {| index := unique_sorted (map index_key rows) ++ [margins_name];
     columns := unique_sorted (map columns_key rows) ++ [margins_name];
     data := fun r c =>
       if String.eqb r margins_name
       then (if String.eqb c margins_name
             then aggfunc rows
             else aggfunc (group_c c rows))
       else (if String.eqb c margins_name
             then aggfunc (group_r r rows)
             else pivot_cell rows r c) |}.

(** A key equal to [margins_name] is a ValueError. *)
Definition pivot_table (rows : list A) : outcome (DataFrame V) :=
  if isin margins_name (unique_sorted (map index_key rows))
     || isin margins_name (unique_sorted (map columns_key rows))
  then Raise "ValueError: Conflicting name in margins"
  else Ok (margins_frame rows).

End PivotTable.

End Pd.

Abbreviation DataFrame := Pd.DataFrame.


(* ================================================================== *)
(** ** The tables of the application *)

Open Scope string_scope.
Open Scope R_scope.

(** A cell of a numeric column after lines 86-100 ([pd.to_numeric], then
    [fillna(0)]): a whole number of an int64 column, or a finite number of
    a float64 column. *)
Inductive numero : Type :=
| Inteiro (n : Z)
| Decimal (x : R).

(** The number in the cell. *)
Definition valor (c : numero) : R :=
  match c with
  | Inteiro n => IZR n
  | Decimal x => x
  end.

(** The cell as a row of [iterrows] holds it: the rows of a frame with
    text columns are of dtype object, an int64 cell comes as a Python int
    and a float64 cell as a Python float. *)
Definition py (c : numero) : Py.num :=
  match c with
  | Inteiro n => Py.Int n
  | Decimal x => Py.Float (Fin x)
  end.

Definition e_inteiro (c : numero) : bool :=
  match c with
  | Inteiro _ => true
  | Decimal _ => false
  end.

(** One row of the uploaded sheet after the coercions of lines 78-100: the
    columns the calculation pass reads or copies.  The two text columns
    that lines 79-98 do not require are [None] in every row of a sheet
    that lacks them. *)
Record Sku : Type := mkSku {
  Empresa : string;
  col_Classe : option string;
  SKU : string;
  col_Descricao_do_Material : option string;
  col_Estoque_inicial : numero;         (* 'Estoque inicial (unidades)' *)
  col_Lead_Time_medio : numero;         (* 'Lead Time médio (meses)' *)
  col_Desvio_Padrao_LT : numero;        (* 'Desvio Padrão LT (meses)' *)
  col_Estoque_de_Seguranca : numero;    (* 'Estoque de Segurança (unidades)' *)
  col_Consumo_Medio_Mensal : numero;    (* 'Consumo Médio Mensal (un)' *)
  col_Desvio_Padrao_Consumo : numero;   (* 'Desvio Padrão Consumo (un)' *)
  col_Valor_Unit : numero;              (* 'Valor Unit' *)
  Criticidade : string;
  Curva : string
}.

Definition texto (o : option string) : string :=
  match o with
  | Some s => s
  | None => ""
  end.

(** The cells of a row, by column. *)
Definition Classe (s : Sku) : string := texto (col_Classe s).
Definition Descricao_do_Material (s : Sku) : string :=
  texto (col_Descricao_do_Material s).
Definition Estoque_inicial (s : Sku) : R := valor (col_Estoque_inicial s).
Definition Lead_Time_medio (s : Sku) : R := valor (col_Lead_Time_medio s).
Definition Desvio_Padrao_LT (s : Sku) : R := valor (col_Desvio_Padrao_LT s).
Definition Estoque_de_Seguranca (s : Sku) : R :=
  valor (col_Estoque_de_Seguranca s).
Definition Consumo_Medio_Mensal (s : Sku) : R :=
  valor (col_Consumo_Medio_Mensal s).
Definition Desvio_Padrao_Consumo (s : Sku) : R :=
  valor (col_Desvio_Padrao_Consumo s).
Definition Valor_Unit (s : Sku) : R := valor (col_Valor_Unit s).

(** The columns that line 226 selects and lines 79-98 do not check. *)
Definition tem_colunas (s : Sku) : bool :=
  match col_Classe s, col_Descricao_do_Material s with
  | Some _, Some _ => true
  | _, _ => false
  end.

(** A row of [resultado] once lines 181-184 have added the four columns
    the loop fills. *)
Record Calculo : Type := mkCalculo {
  sku : Sku;
  Nivel_de_Servico : Z;          (* 'Nível de Serviço (%)', int64 *)
  z : float64;
  SS_Calculado : float64;
  SS_Arredondado : Z             (* int64 *)
}.

(** A row of [resultado] after lines 210-223.  A cell of an int64 column
    is held as the real number it is. *)
Record Resultado : Type := mkResultado {
  calculo : Calculo;
  Cobertura_Atual_Meses : float64;
  Cobertura_Calculada_Meses : float64;
  Valor_SS_Calculado : float64;
  Diferenca_Unidades : float64;
  Diferenca_pct : float64        (* 'Diferença_%' *)
}.

(** A cell of a numeric column copied into [tabela]: an int64 as it was,
    or a float64 after [round(2)]. *)
Inductive celula_num : Type :=
| I64 (n : Z)
| F64 (x : float64).

(** A row of [tabela] (lines 226-242), under the renamed headers. *)
Record Tabela : Type := mkTabela {
  t_Empresa : string;
  t_Classe : string;
  t_SKU : string;
  t_Descricao_do_Material : string;
  t_Criticidade : string;
  t_Curva : string;
  t_Nivel_de_Servico : Z;
  t_Lead_Time_medio : celula_num;
  t_Consumo_Medio_Mensal : celula_num;
  t_SS_Atual : celula_num;
  t_SS_Calculado : Z;
  t_Diferenca_Unidades : float64;
  t_Diferenca_pct : float64;
  t_Cobertura_Atual : float64;
  t_Cobertura_Calculada : float64;
  t_Valor_Unit : celula_num;
  t_Valor_SS_Calculado : float64
}.

(** A frame of rows under their index labels (the labels of the sheet's
    RangeIndex that survived the filters). *)
Definition frame (A : Type) : Type := list (Z * A).

(** [df.at[idx, col] = v]: [f] writes the cell into the row labelled
    [idx]. *)
Definition at_set {A} (idx : Z) (f : A -> A) (df : frame A) : frame A :=
  map (fun ir => if Z.eqb (fst ir) idx then (fst ir, f (snd ir)) else ir) df.

Definition set_Nivel_de_Servico (v : Z) (c : Calculo) : Calculo :=
  mkCalculo (sku c) v (z c) (SS_Calculado c) (SS_Arredondado c).
Definition set_z (v : float64) (c : Calculo) : Calculo :=
  mkCalculo (sku c) (Nivel_de_Servico c) v (SS_Calculado c) (SS_Arredondado c).
Definition set_SS_Calculado (v : float64) (c : Calculo) : Calculo :=
  mkCalculo (sku c) (Nivel_de_Servico c) (z c) v (SS_Arredondado c).
Definition set_SS_Arredondado (v : Z) (c : Calculo) : Calculo :=
  mkCalculo (sku c) (Nivel_de_Servico c) (z c) (SS_Calculado c) v.

(** Line 120: the default service-level matrix, 95 in every cell. *)
Definition matriz_default : DataFrame Z :=
  {| Pd.index := ["X"; "Y"; "Z"];
     Pd.columns := ["A"; "B"; "C"];
     Pd.data := fun _ _ => 95%Z |}.

(** The warning of line 196. *)
Definition aviso_nao_mapeada (sku_ crit curva : string) : string :=
  "SKU " ++ sku_ ++ ": Criticidade '" ++ crit ++ "' ou Curva '" ++ curva
  ++ "' não mapeada. Usando default 95%.".

Section Colunas.

Variable fl : Np.Binary64.

(** The float64 of a cell, as float arithmetic on its column takes it. *)
Definition flutuante (c : numero) : float64 :=
  match c with
  | Inteiro n => Np.of_int fl n
  | Decimal x => Fin x
  end.

(** An int64 column times a numeric column, one row (line 215): int64
    arithmetic on an int64 column, a float product on a float64 one. *)
Definition int64_vezes (n : Z) (c : numero) : float64 :=
  match c with
  | Inteiro m => Fin (IZR (Np.wrap64 (n * m)))
  | Decimal x => Np.fmul fl (Np.of_int fl n) (Fin x)
  end.

(** An int64 column minus a numeric column, one row (line 218). *)
Definition int64_menos (n : Z) (c : numero) : float64 :=
  match c with
  | Inteiro m => Fin (IZR (Np.wrap64 (n - m)))
  | Decimal x => Np.fsub fl (Np.of_int fl n) (Fin x)
  end.

(** The product of two columns of the table, one row (line 256). *)
Definition vezes (a b : celula_num) : float64 :=
  match a, b with
  | I64 n, I64 m => Fin (IZR (Np.wrap64 (n * m)))
  | I64 n, F64 y => Np.fmul fl (Np.of_int fl n) y
  | F64 x, I64 m => Np.fmul fl x (Np.of_int fl m)
  | F64 x, F64 y => Np.fmul fl x y
  end.

(** [round(2)] on a cell of the sheet: an int64 column is left as it
    is. *)
Definition arredondado (c : numero) : celula_num :=
  match c with
  | Inteiro n => I64 n
  | Decimal x => F64 (Np.round2 fl (Fin x))
  end.

End Colunas.

(* ================================================================== *)
(** ** The calculation pass (lines 170-325) *)

(** Lines 172-174: the rows of the pass; an empty multiselect keeps all. *)
Definition selecionar (df_filtrado : frame Sku) (skus_selecionados : list string)
  : frame Sku :=
  match skus_selecionados with
  | [] => df_filtrado
  | _ => filter (fun ir => Pd.isin (SKU (snd ir)) skus_selecionados) df_filtrado
  end.

(** Lines 181-184: the four new columns, zero in every row. *)
Definition inicial (sel : frame Sku) : frame Calculo :=
  map (fun ir => (fst ir, mkCalculo (snd ir) 0%Z (Fin 0) (Fin 0) 0%Z)) sel.

Section Calculo.

(** [scipy.stats.norm.ppf], the inverse CDF of the standard normal. *)
Variable ppf : R -> float64.

(** binary64 arithmetic. *)
Variable fl : Np.Binary64.

(** The service-level matrix returned by the editor (line 127). *)
Variable matriz_editada : DataFrame Z.

(** Lines 190-196: service level and quantile of one row, and the log
    after it. *)
Definition resolver (row : Calculo) (avisos : list string)
  : outcome (Z * float64 * list string) :=
  let crit := Criticidade (sku row) in
  let curva := Curva (sku row) in
  if Pd.isin crit (Pd.index matriz_editada)
     && Pd.isin curva (Pd.columns matriz_editada)
  then
    match Pd.loc matriz_editada crit curva with
    | Some nivel => Ok (nivel, ppf (IZR nivel / 100), avisos)
    | None => Raise "KeyError"
    end
  else
    Ok (95%Z, ppf 0.95,
        (avisos ++ [aviso_nao_mapeada (SKU (sku row)) crit curva])%list).

(** Lines 187-207: the body of the loop for the row [row] yielded under
    the label [idx]; the state is the frame being filled and the log.
    Lines 201-205 compute on the Python numbers of the row. *)
Definition passo (idx : Z) (row : Calculo)
  (st : frame Calculo * list string) : outcome (frame Calculo * list string) :=
  let '(resultado, avisos) := st in
  '(nivel, z_val, avisos) <- resolver row avisos ;;
  let resultado := at_set idx (set_Nivel_de_Servico nivel) resultado in
  let resultado := at_set idx (set_z z_val) resultado in
  periodo <- Py.add fl (py (col_Lead_Time_medio (sku row))) (Py.Int 1) ;;
  desvio2 <- Py.pow2 fl (py (col_Desvio_Padrao_Consumo (sku row))) ;;
  var_dem <- Py.mul fl periodo desvio2 ;;
  consumo2 <- Py.pow2 fl (py (col_Consumo_Medio_Mensal (sku row))) ;;
  lt2 <- Py.pow2 fl (py (col_Desvio_Padrao_LT (sku row))) ;;
  var_lt <- Py.mul fl consumo2 lt2 ;;
  soma <- Py.add fl var_dem var_lt ;;
  raiz <- np_sqrt fl soma ;;
  let ss_calc := Np.fmul fl z_val raiz in
  let resultado := at_set idx (set_SS_Calculado ss_calc) resultado in
  let resultado :=
    at_set idx (set_SS_Arredondado (Np.astype_int (Np.ceil ss_calc))) resultado in
  Ok (resultado, avisos).

(** Line 186: [for idx, row in resultado.iterrows()], over the rows as
    they were when the loop started. *)
Fixpoint iterrows (rows : frame Calculo) (st : frame Calculo * list string)
  : outcome (frame Calculo * list string) :=
  match rows with
  | [] => Ok st
  | (idx, row) :: rest => st' <- passo idx row st ;; iterrows rest st'
  end.

(** Lines 210-223: the vectorised columns, one row.  The divisions are
    float divisions whatever the columns hold; [np.where] selects among
    quotients that are already computed. *)
Definition derivar (c : Calculo) : Resultado :=
  let consumo := flutuante fl (col_Consumo_Medio_Mensal (sku c)) in
  let atual := flutuante fl (col_Estoque_de_Seguranca (sku c)) in
  let ss := Np.of_int fl (SS_Arredondado c) in
  {| calculo := c;
     Cobertura_Atual_Meses :=
       Np.where_ (Np.Rgtb (Consumo_Medio_Mensal (sku c)) 0)
         (Np.fdiv fl atual consumo) (Fin 0);
     Cobertura_Calculada_Meses :=
       Np.where_ (Np.Rgtb (Consumo_Medio_Mensal (sku c)) 0)
         (Np.fdiv fl ss consumo) (Fin 0);
     Valor_SS_Calculado :=
       int64_vezes fl (SS_Arredondado c) (col_Valor_Unit (sku c));
     Diferenca_Unidades :=
       int64_menos fl (SS_Arredondado c) (col_Estoque_de_Seguranca (sku c));
     Diferenca_pct :=
       Np.where_ (Np.Rgtb (Estoque_de_Seguranca (sku c)) 0)
         (Np.fmul fl (Np.fsub fl (Np.fdiv fl ss atual) (Fin 1)) (Fin 100))
         NaN |}.

(** [round(2)] on the cell [v] of a column computed from the column that
    holds [c] in this row, of the same type: an int64 column is left as it
    is. *)
Definition arredondada (c : numero) (v : float64) : float64 :=
  match c with
  | Inteiro _ => v
  | Decimal _ => Np.round2 fl v
  end.

(** Lines 226-242: the selected columns, [round(2)] (integer and text
    columns are left as they are) and the renaming. *)
Definition tabular (r : Resultado) : Tabela :=
  let c := calculo r in
  let s := sku c in
  {| t_Empresa := Empresa s;
     t_Classe := Classe s;
     t_SKU := SKU s;
     t_Descricao_do_Material := Descricao_do_Material s;
     t_Criticidade := Criticidade s;
     t_Curva := Curva s;
     t_Nivel_de_Servico := Nivel_de_Servico c;
     t_Lead_Time_medio := arredondado fl (col_Lead_Time_medio s);
     t_Consumo_Medio_Mensal := arredondado fl (col_Consumo_Medio_Mensal s);
     t_SS_Atual := arredondado fl (col_Estoque_de_Seguranca s);
     t_SS_Calculado := SS_Arredondado c;
     t_Diferenca_Unidades :=
       arredondada (col_Estoque_de_Seguranca s) (Diferenca_Unidades r);
     t_Diferenca_pct := Np.round2 fl (Diferenca_pct r);
     t_Cobertura_Atual := Np.round2 fl (Cobertura_Atual_Meses r);
     t_Cobertura_Calculada := Np.round2 fl (Cobertura_Calculada_Meses r);
     t_Valor_Unit := arredondado fl (col_Valor_Unit s);
     t_Valor_SS_Calculado :=
       arredondada (col_Valor_Unit s) (Valor_SS_Calculado r) |}.

(** Lines 256-258. *)
Definition valor_atual_de (tabela : frame Tabela) : float64 :=
  Np.sum (map (fun t => vezes fl (t_SS_Atual (snd t)) (t_Valor_Unit (snd t)))
              tabela).
Definition valor_novo_de (tabela : frame Tabela) : float64 :=
  Np.sum (map (fun t => t_Valor_SS_Calculado (snd t)) tabela).

(** Lines 282-283, 298-299, 314-315: the fixed row order, then the last
    column header set to 'Total' when the table has a 'Total' column. *)
Definition fixar_eixos {V} (m : DataFrame V) : DataFrame (Pd.cell V) :=
  let m := Pd.reindex ["X"; "Y"; "Z"; "Total"] m in
  if Pd.isin "Total" (Pd.columns m)
  then Pd.set_columns (removelast (Pd.columns m) ++ ["Total"])%list m
  else m.

(** Lines 272-283. *)
Definition matriz_valor_de (tabela : frame Tabela)
  : outcome (DataFrame (Pd.cell float64)) :=
  m <- Pd.pivot_table t_Criticidade t_Curva
         (fun g => Np.sum (map t_Valor_SS_Calculado g)) (Fin 0) "Total"
         (map snd tabela) ;;
  Ok (fixar_eixos m).

(** Lines 288-299. *)
Definition matriz_cobertura_de (tabela : frame Tabela)
  : outcome (DataFrame (Pd.cell float64)) :=
  m <- Pd.pivot_table t_Criticidade t_Curva
         (fun g => Np.mean (map t_Cobertura_Calculada g)) (Fin 0) "Total"
         (map snd tabela) ;;
  Ok (fixar_eixos m).

(** Lines 304-315: [aggfunc='count'] over the text column 'SKU', which has
    no null cell. *)
Definition matriz_count_de (tabela : frame Tabela)
  : outcome (DataFrame (Pd.cell Z)) :=
  m <- Pd.pivot_table t_Criticidade t_Curva
         (fun g => Z.of_nat (List.length (map t_SKU g))) 0%Z "Total"
         (map snd tabela) ;;
  Ok (fixar_eixos m).

(** What a completed pass has produced. *)
Record Passe : Type := mkPasse {
  resultado : frame Resultado;
  avisos : list string;                    (* the [st.warning] calls, in order *)
  tabela : frame Tabela;
  valor_atual : float64;
  valor_novo : float64;
  impacto : float64;
  matriz_valor : DataFrame (Pd.cell float64);
  matriz_cobertura : DataFrame (Pd.cell float64);
  matriz_count : DataFrame (Pd.cell Z);
  excel : frame Tabela                     (* sheet 'Resultado' of the download *)
}.

(** Lines 172-325, the body of the button.  The selection of line 226
    raises KeyError for a column that the frame does not have. *)
Definition calcular (df_filtrado : frame Sku) (skus_selecionados : list string)
  : outcome Passe :=
  let resultado := selecionar df_filtrado skus_selecionados in
  match resultado with
  | [] => Stop
  | _ =>
    let resultado := inicial resultado in
    '(resultado, avisos) <- iterrows resultado (resultado, []) ;;
    let resultado := map (fun ir => (fst ir, derivar (snd ir))) resultado in
    if forallb (fun ir => tem_colunas (sku (calculo (snd ir)))) resultado
    then
      let tabela := map (fun ir => (fst ir, tabular (snd ir))) resultado in
      let valor_atual := valor_atual_de tabela in
      let valor_novo := valor_novo_de tabela in
      let impacto := Np.sub valor_novo valor_atual in
      matriz_valor <- matriz_valor_de tabela ;;
      matriz_cobertura <- matriz_cobertura_de tabela ;;
      matriz_count <- matriz_count_de tabela ;;
      Ok {| resultado := resultado;
            avisos := avisos;
            tabela := tabela;
            valor_atual := valor_atual;
            valor_novo := valor_novo;
            impacto := impacto;
            matriz_valor := matriz_valor;
            matriz_cobertura := matriz_cobertura;
            matriz_count := matriz_count;
            excel := tabela |}
    else Raise "KeyError"
  end.

End Calculo.

(* ================================================================== *)
(** ** The frame that reaches the pass *)

(** [str.upper()] leaves no ASCII lower-case letter: a text that went
    through line 95 is kept by the upper-casing of the bytes [a-z]. *)
Definition upper_ascii (c : ascii) : ascii :=
  let n := nat_of_ascii c in
  if ((97 <=? n) && (n <=? 122))%nat then ascii_of_nat (n - 32) else c.

Fixpoint str_upper (s : string) : string :=
  match s with
  | EmptyString => EmptyString
  | String c rest => String (upper_ascii c) (str_upper rest)
  end.

(** A row whose text columns went through line 95. *)
Definition padronizado (s : Sku) : Prop :=
  str_upper (Criticidade s) = Criticidade s
  /\ str_upper (Curva s) = Curva s
  /\ str_upper (SKU s) = SKU s.

(** A numeric cell that its column can hold. *)
Definition numero_valido (c : numero) : Prop :=
  match c with
  | Inteiro n => (Np.int64_min <= n <= Np.int64_max)%Z
  | Decimal x => Rabs x <= Np.max_float
  end.

Definition celulas_validas (s : Sku) : Prop :=
  numero_valido (col_Estoque_inicial s)
  /\ numero_valido (col_Lead_Time_medio s)
  /\ numero_valido (col_Desvio_Padrao_LT s)
  /\ numero_valido (col_Estoque_de_Seguranca s)
  /\ numero_valido (col_Consumo_Medio_Mensal s)
  /\ numero_valido (col_Desvio_Padrao_Consumo s)
  /\ numero_valido (col_Valor_Unit s).

(** A frame as [read_excel], lines 78-100 and the filters leave it: unique
    index labels, upper-cased text columns, numbers that fit their
    columns. *)
Definition bem_formado (df : frame Sku) : Prop :=
  NoDup (map fst df)
  /\ Forall (fun ir => padronizado (snd ir)) df
  /\ Forall (fun ir => celulas_validas (snd ir)) df.

(* ================================================================== *)
(** ** The pass, row by row

    Closed forms of what the loop and the vectorised lines leave in one
    row; [iterrows_linhas] and [calcular_eq] below prove that the pass
    computes exactly these. *)

Section PorLinha.

Variable ppf : R -> float64.
Variable fl : Np.Binary64.
Variable matriz_editada : DataFrame Z.

(** The test of line 190. *)
Definition mapeado (s : Sku) : bool :=
  Pd.isin (Criticidade s) (Pd.index matriz_editada)
  && Pd.isin (Curva s) (Pd.columns matriz_editada).

Definition nivel_de (s : Sku) : Z :=
  if mapeado s
  then Pd.data matriz_editada (Criticidade s) (Curva s)
  else 95%Z.

Definition z_de (s : Sku) : float64 :=
  if mapeado s
  then ppf (IZR (Pd.data matriz_editada (Criticidade s) (Curva s)) / 100)
  else ppf 0.95.

Definition avisos_de (s : Sku) : list string :=
  if mapeado s then []
  else [aviso_nao_mapeada (SKU s) (Criticidade s) (Curva s)].

(** Lines 201-203 and the sum of line 205. *)
Definition radicando_de (s : Sku) : outcome Py.num :=
  periodo <- Py.add fl (py (col_Lead_Time_medio s)) (Py.Int 1) ;;
  desvio2 <- Py.pow2 fl (py (col_Desvio_Padrao_Consumo s)) ;;
  var_dem <- Py.mul fl periodo desvio2 ;;
  consumo2 <- Py.pow2 fl (py (col_Consumo_Medio_Mensal s)) ;;
  lt2 <- Py.pow2 fl (py (col_Desvio_Padrao_LT s)) ;;
  var_lt <- Py.mul fl consumo2 lt2 ;;
  Py.add fl var_dem var_lt.

(** The square root of line 205. *)
Definition raiz_de (s : Sku) : outcome float64 :=
  soma <- radicando_de s ;; np_sqrt fl soma.

(** Line 205, in a row where lines 201-205 raise nothing. *)
Definition ss_calc_de (z_val : float64) (s : Sku) : float64 :=
  match raiz_de s with
  | Ok raiz => Np.fmul fl z_val raiz
  | _ => NaN
  end.

Definition linha_calculada (s : Sku) : Calculo :=
  {| sku := s;
     Nivel_de_Servico := nivel_de s;
     z := z_de s;
     SS_Calculado := ss_calc_de (z_de s) s;
     SS_Arredondado := Np.astype_int (Np.ceil (ss_calc_de (z_de s) s)) |}.

(** The loop over the rows [sel], for its exceptions only. *)
Fixpoint verificar (sel : frame Sku) : outcome unit :=
  match sel with
  | [] => Ok tt
  | (_, s) :: rest => _ <- raiz_de s ;; verificar rest
  end.

(** The frame after the loop. *)
Definition calculadas (sel : frame Sku) : frame Calculo :=
  map (fun ir => (fst ir, linha_calculada (snd ir))) sel.

Definition resultado_de (sel : frame Sku) : frame Resultado :=
  map (fun ir => (fst ir, derivar fl (snd ir))) (calculadas sel).

Definition tabela_de (sel : frame Sku) : frame Tabela :=
  map (fun ir => (fst ir, tabular fl (snd ir))) (resultado_de sel).

(** The three pivots over [tabela], when no key collides with 'Total'. *)
Definition pivot_valor (tab : frame Tabela) : DataFrame float64 :=
  Pd.margins_frame t_Criticidade t_Curva
    (fun g => Np.sum (map t_Valor_SS_Calculado g)) (Fin 0) "Total" (map snd tab).
Definition pivot_cobertura (tab : frame Tabela) : DataFrame float64 :=
  Pd.margins_frame t_Criticidade t_Curva
    (fun g => Np.mean (map t_Cobertura_Calculada g)) (Fin 0) "Total" (map snd tab).
Definition pivot_count (tab : frame Tabela) : DataFrame Z :=
  Pd.margins_frame t_Criticidade t_Curva
    (fun g => Z.of_nat (List.length (map t_SKU g))) 0%Z "Total" (map snd tab).

(** The completed pass over the selected rows [sel]. *)
Definition passe_de (sel : frame Sku) : Passe :=
  let tab := tabela_de sel in
  {| resultado := resultado_de sel;
     avisos := flat_map (fun ir => avisos_de (snd ir)) sel;
     tabela := tab;
     valor_atual := valor_atual_de fl tab;
     valor_novo := valor_novo_de tab;
     impacto := Np.sub (valor_novo_de tab) (valor_atual_de fl tab);
     matriz_valor := fixar_eixos (pivot_valor tab);
     matriz_cobertura := fixar_eixos (pivot_cobertura tab);
     matriz_count := fixar_eixos (pivot_count tab);
     excel := tab |}.

End PorLinha.

(** The selections on which the pass raises nothing: in every row the
    squares of line 202 and 203 do not overflow and [np.sqrt] accepts the
    radicand, and the frame has the columns that line 226 selects. *)
Definition sem_excecao (fl : Np.Binary64) (sel : frame Sku) : Prop :=
  Forall (fun ir => (exists raiz, raiz_de fl (snd ir) = Ok raiz)
                    /\ tem_colunas (snd ir) = true) sel.

(* ================================================================== *)
(** ** The quantities of the specification *)

(** protectionPeriod = leadTimeMeanMonths + 1,
    demandVariance = protectionPeriod * consumptionStdDev^2,
    leadTimeVariance = consumptionMean^2 * leadTimeStdDev^2, over the
    reals. *)
Definition periodo_de (s : Sku) : R := Lead_Time_medio s + 1.
Definition var_dem_de (s : Sku) : R :=
  periodo_de s * (Desvio_Padrao_Consumo s * Desvio_Padrao_Consumo s).
Definition var_lt_de (s : Sku) : R :=
  (Consumo_Medio_Mensal s * Consumo_Medio_Mensal s)
  * (Desvio_Padrao_LT s * Desvio_Padrao_LT s).
Definition radicando (s : Sku) : R := var_dem_de s + var_lt_de s.


(** A cell of the sheet as it is stored, not rounded. *)
Definition celula_de (c : numero) : celula_num :=
  match c with
  | Inteiro n => I64 n
  | Decimal x => F64 (Fin x)
  end.

(** The current value of the safety stock from the stored, unrounded
    columns of [resultado]: sum of current safety stock * unit value. *)
Definition valor_atual_pleno (fl : Np.Binary64) (res : frame Resultado)
  : float64 :=
  Np.sum (map (fun ir =>
                 let s := sku (calculo (snd ir)) in
                 vezes fl (celula_de (col_Estoque_de_Seguranca s))
                          (celula_de (col_Valor_Unit s)))
              res).

(** A cell read for a total: NaN and absent cells add nothing. *)
Definition celula_ou_zero (o : option (Pd.cell Z)) : Z :=
  match o with
  | Some (Pd.Val n) => n
  | _ => 0%Z
  end.

(** The records of the curve [v] in the groups X, Y and Z, and in the
    whole table. *)
Definition n_xyz (v : string) (rows : list Tabela) : nat :=
  (List.length (Pd.group_rc t_Criticidade t_Curva "X" v rows)
   + List.length (Pd.group_rc t_Criticidade t_Curva "Y" v rows)
   + List.length (Pd.group_rc t_Criticidade t_Curva "Z" v rows))%nat.

Definition n_curva (v : string) (rows : list Tabela) : nat :=
  List.length (Pd.group_c t_Curva v rows).

(** The real sum of a list. *)
Definition soma (l : list R) : R := fold_right Rplus 0 l.


(** A Python number that is not negative: an int or a finite float from
    zero up, or the float +inf. *)
Definition nao_negativo (a : Py.num) : Prop :=
  match a with
  | Py.Int n => (0 <= n)%Z
  | Py.Float (Fin x) => 0 <= x
  | Py.Float PInf => True
  | Py.Float _ => False
  end.

(** An int or a finite float from zero up. *)
Definition finito_nn (a : Py.num) : Prop :=
  match a with
  | Py.Int n => (0 <= n)%Z
  | Py.Float (Fin x) => 0 <= x
  | Py.Float _ => False
  end.

(** The number that an int or a finite float holds. *)
Definition py_valor (a : Py.num) : option R :=
  match a with
  | Py.Int n => Some (IZR n)
  | Py.Float (Fin x) => Some x
  | Py.Float _ => None
  end.

Definition py_inteiro (a : Py.num) : bool :=
  match a with
  | Py.Int _ => true
  | Py.Float _ => false
  end.

(** An int that is [v], or a finite float within [e] of [v]. *)
Definition aprox (a : Py.num) (v e : R) : Prop :=
  match a with
  | Py.Int n => IZR n = v
  | Py.Float (Fin x) => Rabs (x - v) <= e
  | Py.Float _ => False
  end.

(** A cell of the table that holds the int64 [v], or a finite float
    within [e] of [v]. *)
Definition perto (c : celula_num) (v e : R) : Prop :=
  match c with
  | I64 n => IZR n = v
  | F64 (Fin q) => Rabs (q - v) <= e
  | F64 _ => False
  end.

(** Statistics of a magnitude that keeps lines 201-205 far from the
    overflow threshold. *)
Definition moderado (s : Sku) : Prop :=
  Rabs (Lead_Time_medio s) <= 1000000000000000000
  /\ Rabs (Desvio_Padrao_LT s) <= 1000000000000000000
  /\ Rabs (Consumo_Medio_Mensal s) <= 1000000000000000000
  /\ Rabs (Desvio_Padrao_Consumo s) <= 1000000000000000000.

(** A row whose four statistics are all in int64 columns. *)
Definition todos_inteiros (s : Sku) : bool :=
  e_inteiro (col_Lead_Time_medio s)
  && e_inteiro (col_Desvio_Padrao_LT s)
  && e_inteiro (col_Consumo_Medio_Mensal s)
  && e_inteiro (col_Desvio_Padrao_Consumo s).

(* ================================================================== *)
(** ** Sample data *)

(** [norm.ppf] at the probabilities of the examples: ppf(0.5) = 0 and, to
    five decimals, ppf(0.98) = 2.05375, ppf(0.95) = 1.64485. *)
Definition ppf_exemplo (q : R) : float64 :=
  if Np.Reqb q 0.98 then Fin 2.05375
  else if Np.Reqb q 0.5 then Fin 0
  else Fin 1.64485.

(** The default matrix with the cell (X, A) edited to 98, and to 50. *)
Definition matriz_98 : DataFrame Z :=
  {| Pd.index := ["X"; "Y"; "Z"];
     Pd.columns := ["A"; "B"; "C"];
     Pd.data := fun r c =>
       if (String.eqb r "X" && String.eqb c "A")%bool then 98%Z else 95%Z |}.


(** The record of the worked example: lead time 2 +- 0.5 months,
    consumption 100 +- 20 units, class X/A.  The whole numbers are in
    int64 columns, the lead-time deviation and the unit value in float64
    columns. *)
Definition sku_exemplo : Sku :=
  {| Empresa := "ACME"; col_Classe := Some "MRO"; SKU := "SKU-001";
     col_Descricao_do_Material := Some "ROLAMENTO";
     col_Estoque_inicial := Inteiro 300;
     col_Lead_Time_medio := Inteiro 2;
     col_Desvio_Padrao_LT := Decimal 0.5;
     col_Estoque_de_Seguranca := Inteiro 100;
     col_Consumo_Medio_Mensal := Inteiro 100;
     col_Desvio_Padrao_Consumo := Inteiro 20;
     col_Valor_Unit := Decimal 10;
     Criticidade := "X"; Curva := "A" |}.

Definition df_exemplo : frame Sku := [(0%Z, sku_exemplo)].

(** The same record under a curve the matrix does not have, and with no
    safety stock so far. *)
Definition sku_curva_d : Sku :=
  {| Empresa := "ACME"; col_Classe := Some "MRO"; SKU := "SKU-002";
     col_Descricao_do_Material := Some "CORREIA";
     col_Estoque_inicial := Inteiro 300;
     col_Lead_Time_medio := Inteiro 2;
     col_Desvio_Padrao_LT := Decimal 0.5;
     col_Estoque_de_Seguranca := Inteiro 0;
     col_Consumo_Medio_Mensal := Inteiro 100;
     col_Desvio_Padrao_Consumo := Inteiro 20;
     col_Valor_Unit := Decimal 10;
     Criticidade := "X"; Curva := "D" |}.

Definition df_curva_d : frame Sku := [(0%Z, sku_exemplo); (1%Z, sku_curva_d)].

(** A sheet of whole numbers with a lead time below minus one month (the
    sheet is not checked for signs). *)
Definition sku_lt_negativo : Sku :=
  {| Empresa := "ACME"; col_Classe := Some "MRO"; SKU := "SKU-003";
     col_Descricao_do_Material := Some "FILTRO";
     col_Estoque_inicial := Inteiro 0;
     col_Lead_Time_medio := Inteiro (-2);
     col_Desvio_Padrao_LT := Inteiro 0;
     col_Estoque_de_Seguranca := Inteiro 10;
     col_Consumo_Medio_Mensal := Inteiro 100;
     col_Desvio_Padrao_Consumo := Inteiro 20;
     col_Valor_Unit := Inteiro 10;
     Criticidade := "X"; Curva := "A" |}.


(** A mean consumption of 15000000000.5 units with a lead-time deviation
    of 1500000000.5 months. *)
Definition sku_enorme : Sku :=
  {| Empresa := "ACME"; col_Classe := Some "MRO"; SKU := "SKU-004";
     col_Descricao_do_Material := Some "PARAFUSO";
     col_Estoque_inicial := Inteiro 0;
     col_Lead_Time_medio := Inteiro 0;
     col_Desvio_Padrao_LT := Decimal 1500000000.5;
     col_Estoque_de_Seguranca := Inteiro 10;
     col_Consumo_Medio_Mensal := Decimal 15000000000.5;
     col_Desvio_Padrao_Consumo := Inteiro 0;
     col_Valor_Unit := Decimal 10;
     Criticidade := "X"; Curva := "A" |}.

Definition df_enorme : frame Sku := [(0%Z, sku_enorme)].

(** Float columns with a lead time of 2^30 months and a consumption
    deviation of 2^500 units: the square of the deviation is a float, its
    product with the protection period is not. *)
Definition sku_transbordo : Sku :=
  {| Empresa := "ACME"; col_Classe := Some "MRO"; SKU := "SKU-008";
     col_Descricao_do_Material := Some "ANEL";
     col_Estoque_inicial := Decimal 0;
     col_Lead_Time_medio := Decimal (IZR (2 ^ 30));
     col_Desvio_Padrao_LT := Decimal 0;
     col_Estoque_de_Seguranca := Decimal 10;
     col_Consumo_Medio_Mensal := Decimal 0;
     col_Desvio_Padrao_Consumo := Decimal (IZR (2 ^ 500));
     col_Valor_Unit := Decimal 10;
     Criticidade := "X"; Curva := "A" |}.

Definition df_transbordo : frame Sku := [(0%Z, sku_transbordo)].

(** A sheet of whole numbers with a mean consumption of 2^32 units and a
    lead-time deviation of one month, under a curve the matrix does not
    have: the radicand is the Python int 2^64. *)
Definition sku_inteiros : Sku :=
  {| Empresa := "ACME"; col_Classe := Some "MRO"; SKU := "SKU-009";
     col_Descricao_do_Material := Some "EIXO";
     col_Estoque_inicial := Inteiro 0;
     col_Lead_Time_medio := Inteiro 1;
     col_Desvio_Padrao_LT := Inteiro 1;
     col_Estoque_de_Seguranca := Inteiro 10;
     col_Consumo_Medio_Mensal := Inteiro 4294967296;
     col_Desvio_Padrao_Consumo := Inteiro 0;
     col_Valor_Unit := Inteiro 10;
     Criticidade := "X"; Curva := "D" |}.

Definition df_inteiros : frame Sku := [(0%Z, sku_inteiros)].

(** A record of a criticality outside X, Y, Z next to the example
    record, in the same curve. *)
Definition sku_crit_w : Sku :=
  {| Empresa := "ACME"; col_Classe := Some "MRO"; SKU := "SKU-005";
     col_Descricao_do_Material := Some "MANGUEIRA";
     col_Estoque_inicial := Inteiro 0;
     col_Lead_Time_medio := Inteiro 1;
     col_Desvio_Padrao_LT := Decimal 0;
     col_Estoque_de_Seguranca := Inteiro 5;
     col_Consumo_Medio_Mensal := Inteiro 10;
     col_Desvio_Padrao_Consumo := Inteiro 2;
     col_Valor_Unit := Decimal 3;
     Criticidade := "W"; Curva := "A" |}.


(** A record with a unit value of 0.004 and a current safety stock of
    1000 units. *)
Definition sku_centavos : Sku :=
  {| Empresa := "ACME"; col_Classe := Some "MRO"; SKU := "SKU-006";
     col_Descricao_do_Material := Some "ARRUELA";
     col_Estoque_inicial := Inteiro 0;
     col_Lead_Time_medio := Inteiro 0;
     col_Desvio_Padrao_LT := Inteiro 0;
     col_Estoque_de_Seguranca := Inteiro 1000;
     col_Consumo_Medio_Mensal := Inteiro 3;
     col_Desvio_Padrao_Consumo := Inteiro 1;
     col_Valor_Unit := Decimal 0.004;
     Criticidade := "X"; Curva := "A" |}.

Definition df_centavos : frame Sku := [(0%Z, sku_centavos)].

(** A record whose consumption and lead time never vary. *)
Definition sku_constante : Sku :=
  {| Empresa := "ACME"; col_Classe := Some "MRO"; SKU := "SKU-007";
     col_Descricao_do_Material := Some "GRAXA";
     col_Estoque_inicial := Inteiro 40;
     col_Lead_Time_medio := Inteiro 1;
     col_Desvio_Padrao_LT := Decimal 0;
     col_Estoque_de_Seguranca := Inteiro 20;
     col_Consumo_Medio_Mensal := Inteiro 50;
     col_Desvio_Padrao_Consumo := Inteiro 0;
     col_Valor_Unit := Decimal 7.5;
     Criticidade := "Z"; Curva := "C" |}.


(** Two records of classes X/A and Z/C. *)
Definition df_duas_classes : frame Sku :=
  [(0%Z, sku_exemplo); (1%Z, sku_constante)].

(** The example record in a sheet without the column 'Classe'. *)
Definition sku_sem_classe : Sku :=
  {| Empresa := "ACME"; col_Classe := None; SKU := "SKU-001";
     col_Descricao_do_Material := Some "ROLAMENTO";
     col_Estoque_inicial := Inteiro 300;
     col_Lead_Time_medio := Inteiro 2;
     col_Desvio_Padrao_LT := Decimal 0.5;
     col_Estoque_de_Seguranca := Inteiro 100;
     col_Consumo_Medio_Mensal := Inteiro 100;
     col_Desvio_Padrao_Consumo := Inteiro 20;
     col_Valor_Unit := Decimal 10;
     Criticidade := "X"; Curva := "A" |}.

Definition df_sem_classe : frame Sku := [(0%Z, sku_sem_classe)].

(* ================================================================== *)
(** ** The filters (lines 150-165) *)

(** The options of a multiselect: [sorted(column.unique())]. *)
Definition opcoes (coluna : Sku -> string) (df : frame Sku) : list string :=
  Pd.unique_sorted (map (fun ir => coluna (snd ir)) df).

Section Filtros.

(** Lines 161-163: the rows of the frame whose SKU or description
    contains the search text ([str.contains], a regular-expression search
    without case), with what pandas raises for a text that is no
    pattern or a frame that has no column 'Descrição_do_Material'. *)
Variable buscar : string -> frame Sku -> outcome (frame Sku).

(** Lines 158-163: the rows of the chosen companies, searched when the
    search text is not empty. *)
Definition filtrar (df : frame Sku) (empresas : list string) (busca : string)
  : outcome (frame Sku) :=
  let df_filtrado := filter (fun ir => Pd.isin (Empresa (snd ir)) empresas) df in
  match busca with
  | EmptyString => Ok df_filtrado
  | _ => buscar busca df_filtrado
  end.

End Filtros.

(* ================================================================== *)
(** ** The loops over the required columns (lines 78-98) *)

Section Preparacao.

(** The contents of a cell of the sheet. *)
Variable celula : Type.

(** [str.strip()] on a header. *)
Variable strip : string -> string.

(** [pd.to_numeric(.., errors='coerce')] and [.astype(str).str.upper()]
    on a column. *)
Variable to_numeric : list celula -> list celula.
Variable astype_str_upper : list celula -> list celula.

(** The sheet 'dados': the headers with their columns, in sheet order. *)
Definition planilha : Type := list (string * list celula).

(** [df[col] = f(df[col])]. *)
Definition aplicar (f : list celula -> list celula) (col : string)
  (df : planilha) : planilha :=
  map (fun hc => if String.eqb (fst hc) col then (fst hc, f (snd hc)) else hc) df.

(** Line 78: the headers without surrounding white space. *)
Definition limpar_cabecalhos (df : planilha) : planilha :=
  map (fun hc => (strip (fst hc), snd hc)) df.

(** The loops of lines 86-91 and 93-98 over the columns [cols]: a column
    that is present is converted, the first one that is absent is reported
    with [st.error] and the script stops.  A header that occurs twice makes
    [df[col]] a frame, on which the conversion raises.  The state is the
    frame and the messages of [st.error]. *)
Fixpoint converter (f : list celula -> list celula) (exn : string)
  (cols : list string) (st : planilha * list string)
  : outcome planilha * list string :=
  match cols with
  | [] => (Ok (fst st), snd st)
  | col :: rest =>
      match count_occ string_dec (map fst (fst st)) col with
      | O => (Stop, (snd st ++ [("Coluna obrigatória ausente: " ++ col)%string])%list)
      | S O => converter f exn rest (aplicar f col (fst st), snd st)
      | _ => (Raise exn, snd st)
      end
  end.

End Preparacao.

(** Lines 79-84. *)
Definition num_cols : list string :=
  ["Lead Time médio (meses)"; "Desvio Padrão LT (meses)";
   "Consumo Médio Mensal (un)"; "Desvio Padrão Consumo (un)";
   "Valor Unit"; "Estoque inicial (unidades)";
   "Estoque de Segurança (unidades)"].

Definition str_cols : list string := ["Criticidade"; "Curva"; "SKU"].

(** Lines 78-98: what the script holds in [df] after the two loops, and
    the error messages shown. *)
Definition preparar {celula : Type} (strip : string -> string)
  (to_numeric astype_str_upper : list celula -> list celula)
  (df : planilha celula) : outcome (planilha celula) * list string :=
  let df := limpar_cabecalhos strip df in
  match converter to_numeric "TypeError" num_cols (df, []) with
  | (Ok df, erros) =>
      converter astype_str_upper "AttributeError" str_cols (df, erros)
  | other => other
  end.

(** A sheet of two rows without the column 'Curva'; the cells are
    texts, and the conversions of the example leave them as they are. *)
Definition planilha_sem_curva : planilha string :=
  [("Empresa", ["Acme"; "Acme"]);
   ("Lead Time médio (meses)", ["2"; "12"]);
   ("Desvio Padrão LT (meses)", ["0.5"; ""]);
   ("Consumo Médio Mensal (un)", ["100"; "n/d"]);
   ("Desvio Padrão Consumo (un)", ["20"; "3"]);
   ("Valor Unit", ["10"; "4"]);
   ("Estoque inicial (unidades)", ["300"; ""]);
   ("Estoque de Segurança (unidades)", ["100"; "5"]);
   ("Criticidade", ["x"; ""]);
   ("SKU", ["sku-001"; "sku-002"])].

(* ================================================================== *)
(** * Properties *)

Open Scope list_scope.

(** ** Real comparisons and casts *)

Lemma Rgtb_true (x y : R) : y < x -> Np.Rgtb x y = true.
Proof. intros H. unfold Np.Rgtb. destruct (Rlt_dec y x); [reflexivity | contradiction]. Qed.

Lemma Rgtb_false (x y : R) : ~ y < x -> Np.Rgtb x y = false.
Proof. intros H. unfold Np.Rgtb. destruct (Rlt_dec y x); [contradiction | reflexivity]. Qed.

Lemma Reqb_true (x y : R) : x = y -> Np.Reqb x y = true.
Proof. intros H. unfold Np.Reqb. destruct (Req_dec_T x y); [reflexivity | contradiction]. Qed.

Lemma Reqb_false (x y : R) : x <> y -> Np.Reqb x y = false.
Proof. intros H. unfold Np.Reqb. destruct (Req_dec_T x y); [contradiction | reflexivity]. Qed.

Lemma Rleb_true (x y : R) : x <= y -> Np.Rleb x y = true.
Proof. intros H. unfold Np.Rleb. destruct (Rle_dec x y); [reflexivity | contradiction]. Qed.

Lemma Rleb_false (x y : R) : y < x -> Np.Rleb x y = false.
Proof. intros H. unfold Np.Rleb. destruct (Rle_dec x y); [lra | reflexivity]. Qed.

Lemma trunc_IZR (n : Z) : Np.trunc (IZR n) = n.
Proof.
  unfold Np.trunc. destruct (Np.Rgtb 0 (IZR n)).
  - apply Zceil_eq. lra.
  - apply ZfloorZ.
Qed.

(** The cast of a ceiling that fits an int64 is that ceiling. *)
Lemma astype_int_ceil (x : R) :
  (Np.int64_min <= Zceil x <= Np.int64_max)%Z ->
  Np.astype_int (Np.ceil (Fin x)) = Zceil x.
Proof.
  intros [Hlo Hhi]. cbn [Np.ceil Np.astype_int]. rewrite trunc_IZR.
  apply Z.leb_le in Hlo, Hhi. now rewrite Hlo, Hhi.
Qed.

(** Beyond the int64 range the cast gives [int64_min]. *)
Lemma astype_int_overflow (x : R) :
  (Np.int64_max < Zceil x)%Z ->
  Np.astype_int (Np.ceil (Fin x)) = Np.int64_min.
Proof.
  intros Hhi. cbn [Np.ceil Np.astype_int]. rewrite trunc_IZR.
  apply Z.leb_gt in Hhi. rewrite Hhi, andb_false_r. reflexivity.
Qed.

Lemma Zceil_nonneg (x : R) : 0 <= x -> (0 <= Zceil x)%Z.
Proof.
  intros Hx. pose proof (Zceil_bound x) as [_ Hb].
  apply le_IZR. lra.
Qed.

Lemma Zceil_fits (x : R) (n : Z) : x <= IZR n -> (Zceil x <= n)%Z.
Proof.
  intros Hx. pose proof (Zceil_bound x) as [Ha _].
  apply Z.lt_succ_r. apply lt_IZR. rewrite succ_IZR. lra.
Qed.

Lemma Rabs_le_elim (x b : R) : Rabs x <= b -> - b <= x <= b.
Proof. unfold Rabs. destruct (Rcase_abs x); lra. Qed.

(** ** The overflow threshold *)

Lemma limite_grande :
  100000000000000000000000000000000000000000000000000000000000000000000000000000000
  < Np.limite.
Proof. unfold Np.limite. apply IZR_lt. reflexivity. Qed.

Lemma max_float_grande :
  100000000000000000000000000000000000000000000000000000000000000000000000000000000
  < Np.max_float.
Proof. unfold Np.max_float. apply IZR_lt. reflexivity. Qed.

Lemma max_float_limite : Np.max_float + 1 < Np.limite.
Proof.
  unfold Np.max_float, Np.limite. rewrite <- plus_IZR. apply IZR_lt. reflexivity.
Qed.

Lemma limite_pos : 0 < Np.limite.
Proof. pose proof limite_grande. lra. Qed.

(** Below the threshold an operation returns its rounded result. *)
Lemma arredondar_finito (fl : Np.Binary64) (x : R) :
  Rabs x < Np.limite -> Np.arredondar fl x = Fin (Np.rnd fl x).
Proof.
  intros H. apply Rabs_def2 in H as [H1 H2]. unfold Np.arredondar.
  rewrite Rleb_false by assumption. rewrite Rleb_false by assumption.
  reflexivity.
Qed.

Lemma arredondar_pinf (fl : Np.Binary64) (x : R) :
  Np.limite <= x -> Np.arredondar fl x = PInf.
Proof. intros H. unfold Np.arredondar. now rewrite Rleb_true. Qed.

(** The result of an operation is never NaN; it is finite exactly below
    the threshold. *)
Lemma arredondar_casos (fl : Np.Binary64) (x : R) :
  (Rabs x < Np.limite /\ Np.arredondar fl x = Fin (Np.rnd fl x))
  \/ (Np.limite <= x /\ Np.arredondar fl x = PInf)
  \/ (x <= - Np.limite /\ Np.arredondar fl x = NInf).
Proof.
  pose proof limite_pos as Hpos. unfold Np.arredondar, Np.Rleb.
  destruct (Rle_dec Np.limite x) as [H1|H1]; [right; left; now split|].
  destruct (Rle_dec x (- Np.limite)) as [H2|H2]; [right; right; now split|].
  left. split; [|reflexivity]. apply Rabs_def1; lra.
Qed.

Lemma rnd_0 (fl : Np.Binary64) : Np.rnd fl 0 = 0.
Proof. apply (Np.rnd_int fl 0). cbn. lia. Qed.

Lemma rnd_1 (fl : Np.Binary64) : Np.rnd fl 1 = 1.
Proof. apply (Np.rnd_int fl 1). cbn. lia. Qed.

Lemma rnd_nonneg (fl : Np.Binary64) (x : R) : 0 <= x -> 0 <= Np.rnd fl x.
Proof. intros H. rewrite <- (rnd_0 fl). now apply Np.rnd_mono. Qed.

(** ** The loop of lines 186-207 *)

Lemma at_set_fresh {A} (idx : Z) (f : A -> A) (df : frame A) :
  ~ In idx (map fst df) -> at_set idx f df = df.
Proof.
  induction df as [|[i r] df IH]; simpl; intros Hn; [reflexivity|].
  destruct (Z.eqb_spec i idx) as [->|Hne].
  - exfalso; apply Hn; now left.
  - f_equal. apply IH. intros Hin; apply Hn; now right.
Qed.

Lemma at_set_hit {A} (idx : Z) (f : A -> A) (l1 l2 : frame A) (r : A) :
  ~ In idx (map fst l1) -> ~ In idx (map fst l2) ->
  at_set idx f (l1 ++ (idx, r) :: l2) = l1 ++ (idx, f r) :: l2.
Proof.
  intros H1 H2. unfold at_set at 1. rewrite map_app. simpl.
  rewrite Z.eqb_refl. fold (at_set idx f l1). fold (at_set idx f l2).
  now rewrite !at_set_fresh.
Qed.

Section Laco.

Variable ppf : R -> float64.
Variable fl : Np.Binary64.
Variable M : DataFrame Z.

Lemma resolver_eq (row : Calculo) (av : list string) :
  resolver ppf M row av
  = Ok (nivel_de M (sku row), z_de ppf M (sku row),
        (av ++ avisos_de M (sku row))%list).
Proof.
  unfold resolver, nivel_de, z_de, avisos_de, mapeado, Pd.loc.
  destruct (Pd.isin (Criticidade (sku row)) (Pd.index M)
            && Pd.isin (Curva (sku row)) (Pd.columns M)); simpl.
  - now rewrite app_nil_r.
  - reflexivity.
Qed.

(** One turn of the loop: it raises what lines 201-205 raise on the row,
    and otherwise leaves the row with its final cells. *)
Lemma passo_eq (idx : Z) (s : Sku) (n0 n1 : Z) (a0 a1 : float64)
      (l1 l2 : frame Calculo) (av : list string) :
  ~ In idx (map fst l1) -> ~ In idx (map fst l2) ->
  passo ppf fl M idx (mkCalculo s n0 a0 a1 n1)
        (l1 ++ (idx, mkCalculo s n0 a0 a1 n1) :: l2, av)
  = (_ <- raiz_de fl s ;;
     Ok (l1 ++ (idx, linha_calculada ppf fl M s) :: l2,
         (av ++ avisos_de M s)%list)).
Proof.
  intros H1 H2. unfold passo. rewrite resolver_eq. cbn [bind sku].
  unfold linha_calculada, ss_calc_de, raiz_de, radicando_de.
  destruct (Py.add fl (py (col_Lead_Time_medio s)) (Py.Int 1))
    as [periodo| |e]; cbn [bind]; try reflexivity.
  destruct (Py.pow2 fl (py (col_Desvio_Padrao_Consumo s)))
    as [desvio2| |e]; cbn [bind]; try reflexivity.
  destruct (Py.mul fl periodo desvio2) as [var_dem| |e]; cbn [bind];
    try reflexivity.
  destruct (Py.pow2 fl (py (col_Consumo_Medio_Mensal s)))
    as [consumo2| |e]; cbn [bind]; try reflexivity.
  destruct (Py.pow2 fl (py (col_Desvio_Padrao_LT s)))
    as [lt2| |e]; cbn [bind]; try reflexivity.
  destruct (Py.mul fl consumo2 lt2) as [var_lt| |e]; cbn [bind];
    try reflexivity.
  destruct (Py.add fl var_dem var_lt) as [soma_| |e]; cbn [bind];
    try reflexivity.
  destruct (np_sqrt fl soma_) as [raiz| |e]; cbn [bind]; try reflexivity.
  rewrite !at_set_hit by assumption. reflexivity.
Qed.

Lemma map_fst_inicial (sel : frame Sku) : map fst (inicial sel) = map fst sel.
Proof. unfold inicial. rewrite map_map. reflexivity. Qed.

Lemma map_fst_calculadas (sel : frame Sku) :
  map fst (calculadas ppf fl M sel) = map fst sel.
Proof. unfold calculadas. rewrite map_map. reflexivity. Qed.

(** Invariant of the loop: the rows already visited hold their final
    cells, the others still hold the zeros of lines 181-184; the loop
    raises what the first row that raises does. *)
Lemma iterrows_inv (todo done : frame Sku) (av : list string) :
  NoDup (map fst (done ++ todo)) ->
  iterrows ppf fl M (inicial todo)
           ((calculadas ppf fl M done ++ inicial todo)%list, av)
  = (_ <- verificar fl todo ;;
     Ok ((calculadas ppf fl M done ++ calculadas ppf fl M todo)%list,
         (av ++ flat_map (fun ir => avisos_de M (snd ir)) todo)%list)).
Proof.
  revert done av.
  induction todo as [|[idx s] todo IH]; intros done av Hnd.
  - simpl. now rewrite !app_nil_r.
  - rewrite map_app in Hnd. simpl in Hnd.
    pose proof (NoDup_remove_2 _ _ _ Hnd) as Hfresh.
    change (inicial ((idx, s) :: todo))
      with ((idx, mkCalculo s 0%Z (Fin 0) (Fin 0) 0%Z) :: inicial todo).
    cbn [iterrows verificar].
    rewrite passo_eq.
    + destruct (raiz_de fl s) as [raiz| |e]; cbn [bind]; try reflexivity.
      specialize (IH (done ++ [(idx, s)]) (av ++ avisos_de M s)).
      unfold calculadas in IH at 1 2. rewrite !map_app in IH.
      cbn [map fst snd] in IH. fold (calculadas ppf fl M done) in IH.
      rewrite <- !app_assoc in IH. cbn [app] in IH.
      rewrite IH.
      * reflexivity.
      * exact Hnd.
    + rewrite map_fst_calculadas. intros Hin. apply Hfresh.
      apply in_or_app; now left.
    + rewrite map_fst_inicial. intros Hin. apply Hfresh.
      apply in_or_app; now right.
Qed.

(** The loop leaves in every row exactly [linha_calculada], and logs the
    warnings of the unmapped rows in row order, unless a row raises. *)
Lemma iterrows_linhas (sel : frame Sku) :
  NoDup (map fst sel) ->
  iterrows ppf fl M (inicial sel) (inicial sel, [])
  = (_ <- verificar fl sel ;;
     Ok (calculadas ppf fl M sel, flat_map (fun ir => avisos_de M (snd ir)) sel)).
Proof.
  intros Hnd. exact (iterrows_inv sel [] [] Hnd).
Qed.

End Laco.

(** ** Labels and pivots *)

Lemma isin_In (x : string) (l : list string) :
  Pd.isin x l = true <-> In x l.
Proof.
  unfold Pd.isin. rewrite existsb_exists. split.
  - intros [y [Hy Heq]]. apply String.eqb_eq in Heq. now subst.
  - intros H. exists x. split; [assumption | apply String.eqb_refl].
Qed.

Lemma isin_false (x : string) (l : list string) :
  Pd.isin x l = false <-> ~ In x l.
Proof.
  rewrite <- isin_In. destruct (Pd.isin x l); split; congruence.
Qed.

Lemma In_insert_label (x y : string) (l : list string) :
  In y (Pd.insert_label x l) <-> y = x \/ In y l.
Proof.
  induction l as [|h l IH]; simpl.
  - intuition.
  - destruct (String.compare x h) eqn:Hc; simpl.
    + apply String.compare_eq_iff in Hc. subst. intuition.
    + intuition.
    + rewrite IH. intuition.
Qed.

Lemma In_unique_sorted (y : string) (l : list string) :
  In y (Pd.unique_sorted l) <-> In y l.
Proof.
  induction l as [|h l IH]; simpl.
  - reflexivity.
  - rewrite In_insert_label, IH. intuition.
Qed.

(** Without a key equal to the margins name the pivot is built. *)
Lemma pivot_table_ok {A V} (ik ck : A -> string) (agg : list A -> V)
      (fill : V) (name : string) (rows : list A) :
  (forall x, In x rows -> ik x <> name /\ ck x <> name) ->
  Pd.pivot_table ik ck agg fill name rows
  = Ok (Pd.margins_frame ik ck agg fill name rows).
Proof.
  intros Hfree. unfold Pd.pivot_table.
  replace (Pd.isin name (Pd.unique_sorted (map ik rows))) with false.
  replace (Pd.isin name (Pd.unique_sorted (map ck rows))) with false.
  - reflexivity.
  - symmetry. apply isin_false. rewrite In_unique_sorted, in_map_iff.
    intros [x [Hx Hin]]. destruct (Hfree x Hin) as [_ Hc]. now apply Hc.
  - symmetry. apply isin_false. rewrite In_unique_sorted, in_map_iff.
    intros [x [Hx Hin]]. destruct (Hfree x Hin) as [Hr _]. now apply Hr.
Qed.

(** An upper-cased text is never the mixed-case 'Total'. *)
Lemma str_upper_not_Total (s : string) : str_upper s = s -> s <> "Total".
Proof.
  intros Hup Heq. subst s. vm_compute in Hup. discriminate Hup.
Qed.

(** ** The pass as a whole *)

Lemma NoDup_fst_filter {A} (f : Z * A -> bool) (df : frame A) :
  NoDup (map fst df) -> NoDup (map fst (filter f df)).
Proof.
  induction df as [|[i r] df IH]; simpl; intros Hnd; [constructor|].
  inversion Hnd as [|? ? Hni Hnd']; subst.
  destruct (f (i, r)); simpl; [|now apply IH].
  constructor; [|now apply IH].
  intros Hin. apply Hni. apply in_map_iff in Hin as [[j q] [Hj Hin]].
  simpl in Hj; subst j. apply filter_In in Hin as [Hin _].
  apply in_map_iff. now exists (i, q).
Qed.

Lemma selecionar_incl (df : frame Sku) (skus : list string) (ir : Z * Sku) :
  In ir (selecionar df skus) -> In ir df.
Proof.
  unfold selecionar. destruct skus; [tauto|].
  intros Hin. now apply filter_In in Hin.
Qed.

Lemma selecionar_bem_formado (df : frame Sku) (skus : list string) :
  bem_formado df -> bem_formado (selecionar df skus).
Proof.
  intros (Hnd & Hup & Hval). split; [|split].
  - unfold selecionar. destruct skus; [assumption|].
    now apply NoDup_fst_filter.
  - rewrite Forall_forall in *. intros ir Hin.
    apply Hup. eapply selecionar_incl; eassumption.
  - rewrite Forall_forall in *. intros ir Hin.
    apply Hval. eapply selecionar_incl; eassumption.
Qed.

Lemma tabela_sem_conflito ppf fl M (sel : frame Sku) :
  Forall (fun ir => padronizado (snd ir)) sel ->
  forall t, In t (map snd (tabela_de ppf fl M sel)) ->
            t_Criticidade t <> "Total" /\ t_Curva t <> "Total".
Proof.
  intros Hup t Hin. unfold tabela_de, resultado_de, calculadas in Hin.
  rewrite !map_map in Hin. apply in_map_iff in Hin as [[i s] [Ht Hin]].
  subst t. simpl. rewrite Forall_forall in Hup.
  destruct (Hup _ Hin) as [Hc [Hv _]]. simpl in Hc, Hv.
  split; now apply str_upper_not_Total.
Qed.

Lemma forallb_map {A B} (f : B -> bool) (g : A -> B) (l : list A) :
  forallb f (map g l) = forallb (fun x => f (g x)) l.
Proof.
  induction l as [|x l IH]; [reflexivity|]. cbn [map forallb]. now rewrite IH.
Qed.

Lemma calcular_stop ppf fl M (df : frame Sku) (skus : list string) :
  selecionar df skus = [] -> calcular ppf fl M df skus = Stop.
Proof. intros Hsel. unfold calcular. now rewrite Hsel. Qed.

(** The pass over a selection that is not empty: what the loop raises,
    else the KeyError of line 226, else the closed form [passe_de]. *)
Lemma calcular_eq ppf fl M (df : frame Sku) (skus : list string) :
  bem_formado df ->
  selecionar df skus <> [] ->
  calcular ppf fl M df skus
  = (_ <- verificar fl (selecionar df skus) ;;
     if forallb (fun ir => tem_colunas (snd ir)) (selecionar df skus)
     then Ok (passe_de ppf fl M (selecionar df skus))
     else Raise "KeyError").
Proof.
  intros Hwf Hne. apply (selecionar_bem_formado skus) in Hwf.
  destruct Hwf as (Hnd & Hup & _). unfold calcular.
  destruct (selecionar df skus) as [|ir sel] eqn:Hsel; [congruence|].
  rewrite <- Hsel in *. clear Hsel ir sel Hne.
  rewrite iterrows_linhas by assumption.
  destruct (verificar fl (selecionar df skus)) as [[]| |e]; cbn [bind];
    try reflexivity.
  fold (resultado_de ppf fl M (selecionar df skus)).
  replace (forallb (fun ir => tem_colunas (sku (calculo (snd ir))))
                   (resultado_de ppf fl M (selecionar df skus)))
    with (forallb (fun ir => tem_colunas (snd ir)) (selecionar df skus))
    by (unfold resultado_de, calculadas; now rewrite !forallb_map).
  destruct (forallb (fun ir => tem_colunas (snd ir)) (selecionar df skus));
    [|reflexivity].
  fold (tabela_de ppf fl M (selecionar df skus)).
  unfold matriz_valor_de, matriz_cobertura_de, matriz_count_de.
  rewrite !pivot_table_ok by (now apply tabela_sem_conflito).
  reflexivity.
Qed.

Lemma verificar_ok fl (sel : frame Sku) :
  verificar fl sel = Ok tt
  <-> Forall (fun ir => exists raiz, raiz_de fl (snd ir) = Ok raiz) sel.
Proof.
  induction sel as [|[i s] sel IH]; cbn [verificar].
  - split; [constructor | reflexivity].
  - split.
    + intros H. destruct (raiz_de fl s) as [raiz| |e] eqn:E; cbn [bind] in H;
        try discriminate.
      constructor; [now exists raiz | now apply IH].
    + intros H. inversion H as [|? ? [raiz Hr] Hrest]; subst.
      cbn [snd] in Hr. rewrite Hr. cbn [bind]. now apply IH.
Qed.

Lemma sem_excecao_iff fl (sel : frame Sku) :
  sem_excecao fl sel
  <-> verificar fl sel = Ok tt
      /\ forallb (fun ir => tem_colunas (snd ir)) sel = true.
Proof.
  unfold sem_excecao. rewrite verificar_ok, forallb_forall, !Forall_forall.
  split.
  - intros H. split; intros ir Hin; now destruct (H ir Hin).
  - intros [H1 H2] ir Hin. split; [now apply H1 | now apply H2].
Qed.

(** A well-formed frame with at least one selected row on which nothing
    raises completes the pass, with the closed form [passe_de]. *)
Lemma calcular_ok ppf fl M (df : frame Sku) (skus : list string) :
  bem_formado df ->
  selecionar df skus <> [] ->
  sem_excecao fl (selecionar df skus) ->
  calcular ppf fl M df skus = Ok (passe_de ppf fl M (selecionar df skus)).
Proof.
  intros Hwf Hne Hex. rewrite calcular_eq by assumption.
  apply sem_excecao_iff in Hex as [Hv Hc]. now rewrite Hv, Hc.
Qed.

(** A completed pass was run on a selection that is not empty and on
    which nothing raises, and it is the closed form. *)
Lemma calcular_inv ppf fl M (df : frame Sku) (skus : list string) (p : Passe) :
  bem_formado df ->
  calcular ppf fl M df skus = Ok p ->
  selecionar df skus <> []
  /\ sem_excecao fl (selecionar df skus)
  /\ p = passe_de ppf fl M (selecionar df skus).
Proof.
  intros Hwf Hp.
  assert (Hne : selecionar df skus <> []).
  { intros Hnil. rewrite (calcular_stop ppf fl M df skus Hnil) in Hp.
    discriminate Hp. }
  split; [exact Hne|]. rewrite calcular_eq in Hp by assumption.
  destruct (verificar fl (selecionar df skus)) as [[]| |e] eqn:Hv;
    cbn [bind] in Hp; try discriminate.
  destruct (forallb (fun ir => tem_colunas (snd ir)) (selecionar df skus))
    eqn:Hc; [|discriminate].
  split; [apply sem_excecao_iff; now split | congruence].
Qed.

(** ** Rows of the result *)

Lemma In_resultado_de ppf fl M (sel : frame Sku) (i : Z) (r : Resultado) :
  In (i, r) (resultado_de ppf fl M sel) <->
  exists s, In (i, s) sel /\ r = derivar fl (linha_calculada ppf fl M s).
Proof.
  unfold resultado_de, calculadas. rewrite map_map, in_map_iff. split.
  - intros [[j s] [Heq Hin]]. simpl in Heq. inversion Heq; subst.
    now exists s.
  - intros [s [Hin ->]]. now exists (i, s).
Qed.

(** Every selected row has its row in the result. *)
Lemma resultado_de_In ppf fl M (sel : frame Sku) (i : Z) (s : Sku) :
  In (i, s) sel ->
  In (i, derivar fl (linha_calculada ppf fl M s)) (resultado_de ppf fl M sel).
Proof. intros Hin. apply In_resultado_de. now exists s. Qed.

Lemma sem_excecao_In fl (sel : frame Sku) (i : Z) (s : Sku) :
  sem_excecao fl sel -> In (i, s) sel ->
  (exists raiz, raiz_de fl s = Ok raiz) /\ tem_colunas s = true.
Proof.
  intros Hex Hin. unfold sem_excecao in Hex. rewrite Forall_forall in Hex.
  exact (Hex (i, s) Hin).
Qed.

Lemma mapeado_In M (s : Sku) :
  mapeado M s = true <->
  In (Criticidade s) (Pd.index M) /\ In (Curva s) (Pd.columns M).
Proof. unfold mapeado. now rewrite andb_true_iff, !isin_In. Qed.

(** The quantile stored in a row is the quantile of the level stored in
    the same row, in the mapped and in the default branch. *)
Lemma z_de_nivel_de ppf M (s : Sku) :
  z_de ppf M s = ppf (IZR (nivel_de M s) / 100).
Proof.
  unfold z_de, nivel_de. destruct (mapeado M s); [reflexivity|].
  f_equal; lra.
Qed.

Lemma bem_formado_In (df : frame Sku) (skus : list string) (i : Z) (s : Sku) :
  bem_formado df -> In (i, s) (selecionar df skus) ->
  padronizado s /\ celulas_validas s.
Proof.
  intros Hwf Hin. apply (selecionar_bem_formado skus) in Hwf.
  destruct Hwf as (_ & Hup & Hval). rewrite Forall_forall in Hup, Hval.
  split; [exact (Hup _ Hin) | exact (Hval _ Hin)].
Qed.

(** ** Python arithmetic *)

(** The steps of lines 201-205 on a row where they raise nothing. *)
Lemma raiz_de_Ok fl (s : Sku) (raiz : float64) :
  raiz_de fl s = Ok raiz ->
  exists periodo desvio2 var_dem consumo2 lt2 var_lt rad,
    Py.add fl (py (col_Lead_Time_medio s)) (Py.Int 1) = Ok periodo
    /\ Py.pow2 fl (py (col_Desvio_Padrao_Consumo s)) = Ok desvio2
    /\ Py.mul fl periodo desvio2 = Ok var_dem
    /\ Py.pow2 fl (py (col_Consumo_Medio_Mensal s)) = Ok consumo2
    /\ Py.pow2 fl (py (col_Desvio_Padrao_LT s)) = Ok lt2
    /\ Py.mul fl consumo2 lt2 = Ok var_lt
    /\ Py.add fl var_dem var_lt = Ok rad
    /\ np_sqrt fl rad = Ok raiz.
Proof.
  unfold raiz_de, radicando_de. intros H.
  destruct (Py.add fl (py (col_Lead_Time_medio s)) (Py.Int 1))
    as [periodo| |e] eqn:E1; cbn [bind] in H; try discriminate.
  destruct (Py.pow2 fl (py (col_Desvio_Padrao_Consumo s)))
    as [desvio2| |e] eqn:E2; cbn [bind] in H; try discriminate.
  destruct (Py.mul fl periodo desvio2) as [var_dem| |e] eqn:E3;
    cbn [bind] in H; try discriminate.
  destruct (Py.pow2 fl (py (col_Consumo_Medio_Mensal s)))
    as [consumo2| |e] eqn:E4; cbn [bind] in H; try discriminate.
  destruct (Py.pow2 fl (py (col_Desvio_Padrao_LT s)))
    as [lt2| |e] eqn:E5; cbn [bind] in H; try discriminate.
  destruct (Py.mul fl consumo2 lt2) as [var_lt| |e] eqn:E6;
    cbn [bind] in H; try discriminate.
  destruct (Py.add fl var_dem var_lt) as [rad| |e] eqn:E7;
    cbn [bind] in H; try discriminate.
  exists periodo, desvio2, var_dem, consumo2, lt2, var_lt, rad.
  repeat split; assumption.
Qed.

Lemma raiz_de_intro fl (s : Sku)
      (periodo desvio2 var_dem consumo2 lt2 var_lt rad : Py.num) :
  Py.add fl (py (col_Lead_Time_medio s)) (Py.Int 1) = Ok periodo ->
  Py.pow2 fl (py (col_Desvio_Padrao_Consumo s)) = Ok desvio2 ->
  Py.mul fl periodo desvio2 = Ok var_dem ->
  Py.pow2 fl (py (col_Consumo_Medio_Mensal s)) = Ok consumo2 ->
  Py.pow2 fl (py (col_Desvio_Padrao_LT s)) = Ok lt2 ->
  Py.mul fl consumo2 lt2 = Ok var_lt ->
  Py.add fl var_dem var_lt = Ok rad ->
  raiz_de fl s = np_sqrt fl rad.
Proof.
  intros E1 E2 E3 E4 E5 E6 E7. unfold raiz_de, radicando_de.
  rewrite E1. cbn [bind]. rewrite E2. cbn [bind]. rewrite E3. cbn [bind].
  rewrite E4. cbn [bind]. rewrite E5. cbn [bind]. rewrite E6. cbn [bind].
  rewrite E7. reflexivity.
Qed.

(** *** The exceptions of the loop *)

Lemma to_float_casos fl (a : Py.num) :
  (exists x, Py.to_float fl a = Ok x)
  \/ Py.to_float fl a = Raise "OverflowError".
Proof.
  destruct a as [n|x]; cbn [Py.to_float].
  - destruct (Np.Rleb Np.limite (Rabs (IZR n))); [now right | left; eauto].
  - left; eauto.
Qed.

Lemma float_op_casos fl (op : float64 -> float64 -> float64) (a b : Py.num) :
  (exists c, (x <- Py.to_float fl a ;; y <- Py.to_float fl b ;;
              Ok (Py.Float (op x y))) = Ok c)
  \/ (x <- Py.to_float fl a ;; y <- Py.to_float fl b ;;
      Ok (Py.Float (op x y))) = Raise "OverflowError".
Proof.
  destruct (to_float_casos fl a) as [[x ->]| ->]; cbn [bind]; [|now right].
  destruct (to_float_casos fl b) as [[y ->]| ->]; cbn [bind]; [|now right].
  left; eauto.
Qed.

Lemma add_casos fl (a b : Py.num) :
  (exists c, Py.add fl a b = Ok c) \/ Py.add fl a b = Raise "OverflowError".
Proof.
  destruct a as [n|x], b as [m|y]; cbn [Py.add];
    try apply (float_op_casos fl (Np.fadd fl)).
  left; eauto.
Qed.

Lemma mul_casos fl (a b : Py.num) :
  (exists c, Py.mul fl a b = Ok c) \/ Py.mul fl a b = Raise "OverflowError".
Proof.
  destruct a as [n|x], b as [m|y]; cbn [Py.mul];
    try apply (float_op_casos fl (Np.fmul fl)).
  left; eauto.
Qed.

Lemma pow2_casos fl (a : Py.num) :
  (exists c, Py.pow2 fl a = Ok c) \/ Py.pow2 fl a = Raise "OverflowError".
Proof.
  destruct a as [n|[x| | |]]; cbn [Py.pow2]; try (left; eauto; fail).
  destruct (Np.pow2_estoura fl x); [now right | left; eauto].
Qed.

Lemma np_sqrt_casos fl (a : Py.num) :
  (exists r, np_sqrt fl a = Ok r) \/ np_sqrt fl a = Raise "TypeError".
Proof.
  destruct a as [n|x]; cbn [np_sqrt]; [|left; eauto].
  destruct ((- 2 ^ 63 <=? n) && (n <? 2 ^ 64))%Z; [left; eauto | now right].
Qed.

(** Lines 201-205 raise nothing, an OverflowError or a TypeError. *)
Lemma raiz_de_casos fl (s : Sku) :
  (exists raiz, raiz_de fl s = Ok raiz)
  \/ raiz_de fl s = Raise "OverflowError"
  \/ raiz_de fl s = Raise "TypeError".
Proof.
  unfold raiz_de, radicando_de.
  destruct (add_casos fl (py (col_Lead_Time_medio s)) (Py.Int 1))
    as [[periodo ->]| ->]; cbn [bind]; [|now right; left].
  destruct (pow2_casos fl (py (col_Desvio_Padrao_Consumo s)))
    as [[desvio2 ->]| ->]; cbn [bind]; [|now right; left].
  destruct (mul_casos fl periodo desvio2) as [[var_dem ->]| ->]; cbn [bind];
    [|now right; left].
  destruct (pow2_casos fl (py (col_Consumo_Medio_Mensal s)))
    as [[consumo2 ->]| ->]; cbn [bind]; [|now right; left].
  destruct (pow2_casos fl (py (col_Desvio_Padrao_LT s)))
    as [[lt2 ->]| ->]; cbn [bind]; [|now right; left].
  destruct (mul_casos fl consumo2 lt2) as [[var_lt ->]| ->]; cbn [bind];
    [|now right; left].
  destruct (add_casos fl var_dem var_lt) as [[rad ->]| ->]; cbn [bind];
    [|now right; left].
  destruct (np_sqrt_casos fl rad) as [[raiz ->]| ->]; [left; eauto | now right; right].
Qed.

Lemma verificar_casos fl (sel : frame Sku) :
  verificar fl sel = Ok tt
  \/ verificar fl sel = Raise "OverflowError"
  \/ verificar fl sel = Raise "TypeError".
Proof.
  induction sel as [|[i s] sel IH]; cbn [verificar]; [now left|].
  destruct (raiz_de_casos fl s) as [[raiz ->]|[-> | ->]]; cbn [bind]; auto.
Qed.

(** *** Signs *)

Lemma finito_nn_nao_negativo (a : Py.num) : finito_nn a -> nao_negativo a.
Proof. destruct a as [n|[x| | |]]; cbn; tauto. Qed.

Lemma to_float_nn fl (a : Py.num) (x : float64) :
  nao_negativo a -> Py.to_float fl a = Ok x ->
  (exists r, x = Fin r /\ 0 <= r) \/ x = PInf.
Proof.
  destruct a as [n|[y| | |]]; cbn [nao_negativo Py.to_float]; intros Hnn H;
    try contradiction.
  - destruct (Np.Rleb Np.limite (Rabs (IZR n))); [discriminate|].
    injection H as <-. left. eexists. split; [reflexivity|].
    apply rnd_nonneg. now apply IZR_le.
  - injection H as <-. left; eauto.
  - injection H as <-. now right.
Qed.

Lemma to_float_finito_nn fl (a : Py.num) (x : float64) :
  finito_nn a -> Py.to_float fl a = Ok x -> exists r, x = Fin r /\ 0 <= r.
Proof.
  intros Hf H.
  destruct (to_float_nn fl a (finito_nn_nao_negativo a Hf) H) as [Hx|Hx];
    [exact Hx|].
  subst x. destruct a as [n|[y| | |]]; cbn in Hf, H; try contradiction.
  - destruct (Np.Rleb Np.limite (Rabs (IZR n))); discriminate.
  - discriminate.
Qed.

Lemma arredondar_nn fl (x : R) :
  0 <= x -> nao_negativo (Py.Float (Np.arredondar fl x)).
Proof.
  intros Hx. pose proof limite_pos.
  destruct (arredondar_casos fl x) as [[_ ->]|[[_ ->]|[Hneg _]]]; cbn.
  - now apply rnd_nonneg.
  - exact I.
  - lra.
Qed.

(** The square of a cell is a non-negative number. *)
Lemma pow2_celula_nn fl (c : numero) (b : Py.num) :
  Py.pow2 fl (py c) = Ok b -> finito_nn b.
Proof.
  destruct c as [n|x]; cbn [py Py.pow2]; intros H.
  - injection H as <-. cbn. nia.
  - destruct (Np.pow2_estoura fl x); [discriminate|].
    injection H as <-. cbn. apply Np.pow2_nonneg.
Qed.

Lemma mul_nn fl (a b c : Py.num) :
  finito_nn a -> finito_nn b -> Py.mul fl a b = Ok c -> nao_negativo c.
Proof.
  intros Ha Hb H.
  assert (Hfloat : forall x y,
             Py.to_float fl a = Ok x -> Py.to_float fl b = Ok y ->
             nao_negativo (Py.Float (Np.fmul fl x y))).
  { intros x y Hx Hy.
    destruct (to_float_finito_nn fl a Ha Hx) as [r [-> Hr]].
    destruct (to_float_finito_nn fl b Hb Hy) as [t [-> Ht]].
    cbn [Np.fmul]. apply arredondar_nn. now apply Rmult_le_pos. }
  destruct a as [n|x], b as [m|y]; cbn [Py.mul] in H;
    try (destruct (Py.to_float fl _) as [u| |] eqn:Eu in H; cbn [bind] in H;
         try discriminate;
         destruct (Py.to_float fl _) as [v| |] eqn:Ev in H; cbn [bind] in H;
         try discriminate;
         injection H as <-; now apply Hfloat).
  injection H as <-. cbn in *. nia.
Qed.

Lemma fadd_nn fl (x y : float64) :
  nao_negativo (Py.Float x) -> nao_negativo (Py.Float y) ->
  nao_negativo (Py.Float (Np.fadd fl x y)).
Proof.
  destruct x as [r| | |], y as [t| | |]; cbn [nao_negativo]; intros Hx Hy;
    try contradiction; cbn [Np.fadd Np.add]; try exact I.
  apply arredondar_nn. lra.
Qed.

Lemma add_nn fl (a b c : Py.num) :
  nao_negativo a -> nao_negativo b -> Py.add fl a b = Ok c -> nao_negativo c.
Proof.
  intros Ha Hb H.
  assert (Hfloat : forall x y,
             Py.to_float fl a = Ok x -> Py.to_float fl b = Ok y ->
             nao_negativo (Py.Float (Np.fadd fl x y))).
  { intros x y Hx Hy. apply fadd_nn.
    - destruct (to_float_nn fl a Ha Hx) as [[r [-> Hr]]| ->]; cbn; auto.
    - destruct (to_float_nn fl b Hb Hy) as [[r [-> Hr]]| ->]; cbn; auto. }
  destruct a as [n|x], b as [m|y]; cbn [Py.add] in H;
    try (destruct (Py.to_float fl _) as [u| |] eqn:Eu in H; cbn [bind] in H;
         try discriminate;
         destruct (Py.to_float fl _) as [v| |] eqn:Ev in H; cbn [bind] in H;
         try discriminate;
         injection H as <-; now apply Hfloat).
  injection H as <-. cbn in *. lia.
Qed.

Lemma sqrt_float_nn fl (x : float64) :
  nao_negativo (Py.Float x) ->
  (exists r, Np.sqrt fl x = Fin r /\ 0 <= r) \/ Np.sqrt fl x = PInf.
Proof.
  destruct x as [r| | |]; cbn [nao_negativo Np.sqrt]; intros Hx;
    try contradiction; [|now right].
  left. rewrite Rgtb_false by lra. eexists. split; [reflexivity|].
  apply rnd_nonneg, sqrt_pos.
Qed.

Lemma np_sqrt_nn fl (a : Py.num) (raiz : float64) :
  nao_negativo a -> np_sqrt fl a = Ok raiz ->
  (exists r, raiz = Fin r /\ 0 <= r) \/ raiz = PInf.
Proof.
  destruct a as [n|x]; cbn [np_sqrt]; intros Ha H.
  - destruct ((- 2 ^ 63 <=? n) && (n <? 2 ^ 64))%Z; [|discriminate].
    injection H as <-.
    apply (sqrt_float_nn fl (Fin (Np.rnd fl (IZR n)))). cbn.
    apply rnd_nonneg. now apply IZR_le.
  - injection H as <-. now apply sqrt_float_nn.
Qed.

(** A finite square root is never negative, whatever the radicand. *)
Lemma np_sqrt_Fin_nonneg fl (a : Py.num) (r : R) :
  np_sqrt fl a = Ok (Fin r) -> 0 <= r.
Proof.
  assert (Hs : forall x, Np.sqrt fl x = Fin r -> 0 <= r).
  { intros [y| | |]; cbn [Np.sqrt]; try discriminate.
    destruct (Np.Rgtb 0 y); [discriminate|]. intros [= <-].
    apply rnd_nonneg, sqrt_pos. }
  destruct a as [n|x]; cbn [np_sqrt]; intros H.
  - destruct ((- 2 ^ 63 <=? n) && (n <? 2 ^ 64))%Z; [|discriminate].
    injection H as H. exact (Hs (Fin (Np.rnd fl (IZR n))) H).
  - injection H as H. exact (Hs x H).
Qed.

(** The protection period of a valid cell of at least -1 is a finite
    number from zero up. *)
Lemma periodo_nn fl (c : numero) (p : Py.num) :
  numero_valido c -> -1 <= valor c ->
  Py.add fl (py c) (Py.Int 1) = Ok p -> finito_nn p.
Proof.
  destruct c as [n|x]; cbn [py numero_valido valor Py.add Py.to_float];
    intros Hv Hge H.
  - injection H as <-. cbn. apply le_IZR in Hge. lia.
  - cbn [bind] in H.
    destruct (Np.Rleb Np.limite (Rabs 1)); cbn [bind] in H; [discriminate|].
    injection H as <-. rewrite rnd_1. cbn [Np.fadd].
    pose proof max_float_limite. pose proof limite_pos.
    assert (Hx : x <= Np.max_float) by (apply Rabs_le_elim in Hv; lra).
    rewrite arredondar_finito by (apply Rabs_def1; lra).
    cbn. apply rnd_nonneg. lra.
Qed.

(** The square root of line 205 in a row with a protection period that is
    not negative: a finite number from zero up, or +inf. *)
Lemma raiz_nao_negativa fl (s : Sku) (raiz : float64) :
  celulas_validas s -> -1 <= Lead_Time_medio s ->
  raiz_de fl s = Ok raiz ->
  (exists r, raiz = Fin r /\ 0 <= r) \/ raiz = PInf.
Proof.
  intros (_ & HvLT & _) HLT H.
  apply raiz_de_Ok in H
    as (periodo & desvio2 & var_dem & consumo2 & lt2 & var_lt & rad
        & E1 & E2 & E3 & E4 & E5 & E6 & E7 & E8).
  apply (np_sqrt_nn fl rad); [|exact E8].
  apply (add_nn fl var_dem var_lt); [| |exact E7].
  - apply (mul_nn fl periodo desvio2); [| |exact E3].
    + now apply (periodo_nn fl (col_Lead_Time_medio s)).
    + now apply (pow2_celula_nn fl (col_Desvio_Padrao_Consumo s)).
  - apply (mul_nn fl consumo2 lt2); [| |exact E6].
    + now apply (pow2_celula_nn fl (col_Consumo_Medio_Mensal s)).
    + now apply (pow2_celula_nn fl (col_Desvio_Padrao_LT s)).
Qed.

(** *** Zeros *)



Lemma arredondar_0 fl : Np.arredondar fl 0 = Fin 0.
Proof.
  rewrite arredondar_finito, rnd_0; [reflexivity|].
  rewrite Rabs_R0. apply limite_pos.
Qed.










(** *** Exact arithmetic *)

Lemma Rabs_mul_le (u v U V : R) :
  Rabs u <= U -> Rabs v <= V -> Rabs (u * v) <= U * V.
Proof.
  intros Hu Hv. rewrite Rabs_mult.
  apply Rmult_le_compat; try apply Rabs_pos; assumption.
Qed.

Lemma Rabs_add_le (u v U V : R) :
  Rabs u <= U -> Rabs v <= V -> Rabs (u + v) <= U + V.
Proof.
  intros Hu Hv. eapply Rle_trans; [apply Rabs_triang|]. lra.
Qed.

Section SemErro.

(** Arithmetic that rounds nothing. *)
Variable fl : Np.Binary64.
Hypothesis rnd_id : forall x, Np.rnd fl x = x.
Hypothesis pow2_id : forall x, Np.pow2 fl x = x * x.

Lemma to_float_sem_erro (a : Py.num) (v : R) :
  py_valor a = Some v -> Rabs v < Np.limite ->
  Py.to_float fl a = Ok (Fin v).
Proof.
  destruct a as [n|[y| | |]]; cbn [py_valor Py.to_float]; intros Hv Hlim;
    try discriminate; injection Hv as <-; [|reflexivity].
  rewrite Rleb_false by lra. now rewrite rnd_id.
Qed.

Lemma add_sem_erro (a b : Py.num) (va vb : R) :
  py_valor a = Some va -> py_valor b = Some vb ->
  Rabs va < Np.limite -> Rabs vb < Np.limite -> Rabs (va + vb) < Np.limite ->
  exists c, Py.add fl a b = Ok c
            /\ py_valor c = Some (va + vb)
            /\ py_inteiro c = py_inteiro a && py_inteiro b.
Proof.
  intros Ha Hb La Lb Lab.
  assert (Hfloat : (x <- Py.to_float fl a ;; y <- Py.to_float fl b ;;
                    Ok (Py.Float (Np.fadd fl x y)))
                   = Ok (Py.Float (Fin (va + vb)))).
  { rewrite (to_float_sem_erro a Ha La), (to_float_sem_erro b Hb Lb).
    cbn [bind Np.fadd]. rewrite arredondar_finito by assumption.
    now rewrite rnd_id. }
  destruct a as [n|x], b as [m|y]; cbn [Py.add py_inteiro andb];
    try (rewrite Hfloat; eexists; repeat split; reflexivity).
  cbn [py_valor] in Ha, Hb. injection Ha as <-. injection Hb as <-.
  eexists. split; [reflexivity|]. split; [|reflexivity].
  cbn [py_valor]. now rewrite plus_IZR.
Qed.

Lemma mul_sem_erro (a b : Py.num) (va vb : R) :
  py_valor a = Some va -> py_valor b = Some vb ->
  Rabs va < Np.limite -> Rabs vb < Np.limite -> Rabs (va * vb) < Np.limite ->
  exists c, Py.mul fl a b = Ok c
            /\ py_valor c = Some (va * vb)
            /\ py_inteiro c = py_inteiro a && py_inteiro b.
Proof.
  intros Ha Hb La Lb Lab.
  assert (Hfloat : (x <- Py.to_float fl a ;; y <- Py.to_float fl b ;;
                    Ok (Py.Float (Np.fmul fl x y)))
                   = Ok (Py.Float (Fin (va * vb)))).
  { rewrite (to_float_sem_erro a Ha La), (to_float_sem_erro b Hb Lb).
    cbn [bind Np.fmul]. rewrite arredondar_finito by assumption.
    now rewrite rnd_id. }
  destruct a as [n|x], b as [m|y]; cbn [Py.mul py_inteiro andb];
    try (rewrite Hfloat; eexists; repeat split; reflexivity).
  cbn [py_valor] in Ha, Hb. injection Ha as <-. injection Hb as <-.
  eexists. split; [reflexivity|]. split; [|reflexivity].
  cbn [py_valor]. now rewrite mult_IZR.
Qed.

Lemma pow2_sem_erro (c : numero) :
  valor c * valor c <= Np.max_float ->
  exists b, Py.pow2 fl (py c) = Ok b
            /\ py_valor b = Some (valor c * valor c)
            /\ py_inteiro b = e_inteiro c.
Proof.
  destruct c as [n|x]; cbn [py valor Py.pow2 e_inteiro]; intros Hlim.
  - eexists. split; [reflexivity|]. split; [|reflexivity].
    cbn [py_valor]. now rewrite mult_IZR.
  - rewrite (@Np.pow2_estoura_nao fl x Hlim). eexists. split; [reflexivity|].
    split; [|reflexivity]. cbn [py_valor]. now rewrite pow2_id.
Qed.

(** With arithmetic that rounds nothing and moderate statistics, lines
    201-203 and the sum of line 205 compute the radicand of the
    specification; it is a Python int exactly when the four statistics
    are. *)
Lemma radicando_sem_erro (s : Sku) :
  moderado s ->
  exists rad, radicando_de fl s = Ok rad
              /\ py_valor rad = Some (radicando s)
              /\ py_inteiro rad = todos_inteiros s.
Proof.
  intros (HLT & HsLT & Hm & Hsd).
  unfold Lead_Time_medio, Desvio_Padrao_LT, Consumo_Medio_Mensal,
    Desvio_Padrao_Consumo in *.
  pose proof limite_grande as HL.
  set (B := 1000000000000000000) in *.
  assert (Hper : Rabs (valor (col_Lead_Time_medio s) + 1) <= B + 1).
  { apply Rabs_add_le; [assumption|]. rewrite Rabs_R1. lra. }
  assert (Hsd2 := Rabs_mul_le _ _ Hsd Hsd).
  assert (Hm2 := Rabs_mul_le _ _ Hm Hm).
  assert (Hl2 := Rabs_mul_le _ _ HsLT HsLT).
  assert (Hvd := Rabs_mul_le _ _ Hper Hsd2).
  assert (Hvl := Rabs_mul_le _ _ Hm2 Hl2).
  assert (Hrad := Rabs_add_le _ _ Hvd Hvl).
  assert (Hsq : forall x, Rabs (x * x) <= B * B -> x * x <= Np.max_float).
  { intros x Hx. apply Rabs_le_elim in Hx. pose proof max_float_grande.
    unfold B in *. lra. }
  destruct (add_sem_erro (py (col_Lead_Time_medio s)) (Py.Int 1)
              (va := valor (col_Lead_Time_medio s)) (vb := 1))
    as (periodo & E1 & V1 & I1);
    try (unfold B in *; rewrite ?Rabs_R1; lra).
  { destruct (col_Lead_Time_medio s); reflexivity. }
  { reflexivity. }
  destruct (pow2_sem_erro (col_Desvio_Padrao_Consumo s)) as (d2 & E2 & V2 & I2);
    [now apply Hsq|].
  destruct (mul_sem_erro periodo d2 V1 V2) as (vd & E3 & V3 & I3);
    try (unfold B in *; lra).
  destruct (pow2_sem_erro (col_Consumo_Medio_Mensal s)) as (c2 & E4 & V4 & I4);
    [now apply Hsq|].
  destruct (pow2_sem_erro (col_Desvio_Padrao_LT s)) as (l2 & E5 & V5 & I5);
    [now apply Hsq|].
  destruct (mul_sem_erro c2 l2 V4 V5) as (vl & E6 & V6 & I6);
    try (unfold B in *; lra).
  destruct (add_sem_erro vd vl V3 V6) as (rad & E7 & V7 & I7);
    try (unfold B in *; lra).
  exists rad. unfold radicando_de.
  rewrite E1. cbn [bind]. rewrite E2. cbn [bind]. rewrite E3. cbn [bind].
  rewrite E4. cbn [bind]. rewrite E5. cbn [bind]. rewrite E6. cbn [bind].
  split; [exact E7|]. split.
  - rewrite V7. reflexivity.
  - rewrite I7, I3, I6, I1, I2, I4, I5. unfold todos_inteiros.
    replace (py_inteiro (py (col_Lead_Time_medio s)))
      with (e_inteiro (col_Lead_Time_medio s))
      by (destruct (col_Lead_Time_medio s); reflexivity).
    cbn [py_inteiro].
    destruct (e_inteiro (col_Lead_Time_medio s)),
      (e_inteiro (col_Desvio_Padrao_LT s)),
      (e_inteiro (col_Consumo_Medio_Mensal s)),
      (e_inteiro (col_Desvio_Padrao_Consumo s)); reflexivity.
Qed.

Lemma sqrt_sem_erro (x : R) :
  Np.sqrt fl (Fin x) = if Np.Rgtb 0 x then NaN else Fin (sqrt x).
Proof. cbn [Np.sqrt]. now rewrite rnd_id. Qed.

(** The square root of line 205 then is the square root of the radicand,
    in a row on which line 205 does not raise. *)
Lemma raiz_sem_erro (s : Sku) (raiz : float64) :
  moderado s -> raiz_de fl s = Ok raiz ->
  raiz = if Np.Rgtb 0 (radicando s) then NaN else Fin (sqrt (radicando s)).
Proof.
  intros Hmod Hr.
  destruct (radicando_sem_erro Hmod) as (rad & E & V & I).
  unfold raiz_de in Hr. rewrite E in Hr. cbn [bind] in Hr.
  destruct rad as [n|[x| | |]]; cbn [py_valor] in V; try discriminate;
    injection V as V.
  - unfold np_sqrt in Hr.
    destruct ((- 2 ^ 63 <=? n)%Z && (n <? 2 ^ 64)%Z); [|discriminate].
    injection Hr as <-. rewrite rnd_id, V. apply sqrt_sem_erro.
  - cbn [np_sqrt] in Hr. injection Hr as <-. rewrite V. apply sqrt_sem_erro.
Qed.

End SemErro.

(** The square root of line 205 with exact arithmetic, in a row whose
    statistics are moderate and not all whole numbers. *)
Lemma raiz_exata (s : Sku) :
  moderado s -> todos_inteiros s = false ->
  raiz_de Np.exato s = Ok (Np.sqrt Np.exato (Fin (radicando s))).
Proof.
  intros Hmod Hint.
  destruct (@radicando_sem_erro Np.exato (fun x => eq_refl) (fun x => eq_refl)
              s Hmod) as (rad & E & V & I).
  unfold raiz_de. rewrite E. cbn [bind].
  rewrite Hint in I. destruct rad as [n|[x| | |]]; try discriminate.
  cbn [py_valor] in V. injection V as ->. reflexivity.
Qed.

(** The same in a row of whole numbers: the radicand is a Python int. *)
Lemma raiz_inteira fl (s : Sku) (a b c d : Z) :
  col_Lead_Time_medio s = Inteiro a ->
  col_Desvio_Padrao_LT s = Inteiro b ->
  col_Consumo_Medio_Mensal s = Inteiro c ->
  col_Desvio_Padrao_Consumo s = Inteiro d ->
  raiz_de fl s = np_sqrt fl (Py.Int ((a + 1) * (d * d) + c * c * (b * b))).
Proof.
  intros Ha Hb Hc Hd. unfold raiz_de, radicando_de.
  rewrite Ha, Hb, Hc, Hd. reflexivity.
Qed.

(** *** Accuracy *)

Lemma rnd_perto fl (x : R) :
  Rabs x <= 500000000 -> Rabs (Np.rnd fl x - x) <= 1 / 1000000.
Proof.
  intros Hx. pose proof (Np.rnd_err fl x) as He.
  eapply Rle_trans; [exact He|]. lra.
Qed.

Lemma pow2_perto fl (x : R) :
  Rabs x <= 1000 -> Rabs (Np.pow2 fl x - x * x) <= 1 / 1000000.
Proof.
  intros Hx. pose proof (Np.pow2_err fl x) as He.
  apply Rabs_le_elim in Hx.
  assert (x * x <= 1000000) by nra.
  eapply Rle_trans; [exact He|]. lra.
Qed.

Lemma aprox_mono (a : Py.num) (v e e' : R) :
  aprox a v e -> e <= e' -> aprox a v e'.
Proof.
  destruct a as [n|[x| | |]]; cbn [aprox]; intros Ha He; try assumption.
  lra.
Qed.

Lemma aprox_py (c : numero) : aprox (py c) (valor c) 0.
Proof.
  destruct c as [n|x]; cbn; [reflexivity|].
  unfold Rminus. rewrite Rplus_opp_r, Rabs_R0. lra.
Qed.

Lemma IZR_abs_le (n : Z) (b : Z) :
  Rabs (IZR n) <= IZR b -> (Z.abs n <= b)%Z.
Proof.
  intros H. apply Rabs_le_elim in H. rewrite <- opp_IZR in H.
  destruct H as [H1 H2]. apply le_IZR in H1, H2. lia.
Qed.

(** The float that arithmetic makes of an approximation of a number of
    moderate size approximates it as well. *)
Lemma to_float_aprox fl (a : Py.num) (v e : R) :
  aprox a v e -> 0 <= e -> Rabs v <= 1000000 ->
  exists x, Py.to_float fl a = Ok (Fin x) /\ Rabs (x - v) <= e.
Proof.
  pose proof limite_grande as HL.
  destruct a as [n|[x| | |]]; cbn [aprox Py.to_float]; intros Ha He Hv;
    try contradiction.
  - subst v. rewrite Rleb_false by lra.
    rewrite Np.rnd_int.
    + eexists. split; [reflexivity|].
      unfold Rminus. now rewrite Rplus_opp_r, Rabs_R0.
    + apply IZR_abs_le in Hv. lia.
  - eauto.
Qed.

Lemma add_aprox fl (a b : Py.num) (va vb ea eb : R) :
  aprox a va ea -> aprox b vb eb ->
  0 <= ea <= 1 -> 0 <= eb <= 1 ->
  Rabs va <= 1000000 -> Rabs vb <= 1000000 ->
  exists c, Py.add fl a b = Ok c
            /\ aprox c (va + vb) (ea + eb + 1 / 1000000).
Proof.
  intros Ha Hb Hea Heb Hva Hvb. pose proof limite_grande as HL.
  assert (Hfloat : exists c,
             (x <- Py.to_float fl a ;; y <- Py.to_float fl b ;;
              Ok (Py.Float (Np.fadd fl x y))) = Ok c
             /\ aprox c (va + vb) (ea + eb + 1 / 1000000)).
  { destruct (@to_float_aprox fl a _ _ Ha) as (x & -> & Hx); [lra|assumption|].
    destruct (@to_float_aprox fl b _ _ Hb) as (y & -> & Hy); [lra|assumption|].
    cbn [bind Np.fadd].
    apply Rabs_le_elim in Hx, Hy, Hva, Hvb.
    assert (Hxy : Rabs (x + y) <= 500000000) by (apply Rabs_le; lra).
    rewrite arredondar_finito by lra.
    eexists. split; [reflexivity|]. cbn [aprox].
    pose proof (@rnd_perto fl _ Hxy) as Hr. apply Rabs_le_elim in Hr.
    apply Rabs_le. lra. }
  destruct a as [n|x], b as [m|y]; cbn [Py.add]; try exact Hfloat.
  eexists. split; [reflexivity|]. cbn [aprox] in *.
  rewrite plus_IZR. now subst.
Qed.

Lemma mul_aprox fl (a b : Py.num) (va vb ea eb : R) :
  aprox a va ea -> aprox b vb eb ->
  0 <= ea <= 1 -> 0 <= eb <= 1 ->
  Rabs va <= 10000 -> Rabs vb <= 10000 ->
  exists c, Py.mul fl a b = Ok c
            /\ aprox c (va * vb) (10001 * (ea + eb) + 1 / 1000000).
Proof.
  intros Ha Hb Hea Heb Hva Hvb. pose proof limite_grande as HL.
  assert (Hfloat : exists c,
             (x <- Py.to_float fl a ;; y <- Py.to_float fl b ;;
              Ok (Py.Float (Np.fmul fl x y))) = Ok c
             /\ aprox c (va * vb) (10001 * (ea + eb) + 1 / 1000000)).
  { destruct (@to_float_aprox fl a _ _ Ha) as (x & -> & Hx); [lra|lra|].
    destruct (@to_float_aprox fl b _ _ Hb) as (y & -> & Hy); [lra|lra|].
    cbn [bind Np.fmul].
    apply Rabs_le_elim in Hx, Hy, Hva, Hvb.
    assert (Hxy : Rabs (x * y) <= 500000000) by (apply Rabs_le; nra).
    rewrite arredondar_finito by lra.
    eexists. split; [reflexivity|]. cbn [aprox].
    pose proof (@rnd_perto fl _ Hxy) as Hr. apply Rabs_le_elim in Hr.
    apply Rabs_le. nra. }
  destruct a as [n|x], b as [m|y]; cbn [Py.mul]; try exact Hfloat.
  eexists. split; [reflexivity|]. cbn [aprox] in *.
  rewrite mult_IZR. now subst.
Qed.

Lemma pow2_aprox fl (c : numero) :
  Rabs (valor c) <= 1000 ->
  exists b, Py.pow2 fl (py c) = Ok b
            /\ aprox b (valor c * valor c) (1 / 1000000).
Proof.
  pose proof limite_grande as HL.
  destruct c as [n|x]; cbn [py valor Py.pow2]; intros Hv.
  - eexists. split; [reflexivity|]. cbn [aprox]. now rewrite mult_IZR.
  - pose proof (@pow2_perto fl _ Hv) as Hp. apply Rabs_le_elim in Hv.
    pose proof max_float_grande as HM.
    rewrite (@Np.pow2_estoura_nao fl x ltac:(nra)).
    eexists. split; [reflexivity|]. exact Hp.
Qed.

Lemma sqrt_3700_perto (y : R) :
  3699.9 <= y <= 3700.1 -> 60.82 < sqrt y < 60.83.
Proof.
  intros [Hlo Hhi]. split.
  - rewrite <- (sqrt_square 60.82) by lra. apply sqrt_lt_1_alt. lra.
  - rewrite <- (sqrt_square 60.83) by lra. apply sqrt_lt_1_alt. lra.
Qed.

(** The square root of line 205 for the statistics of the worked
    example, whatever the columns they are in: sqrt(3700) to four
    decimals. *)
Lemma raiz_do_exemplo fl (s : Sku) :
  Lead_Time_medio s = 2 -> Desvio_Padrao_LT s = 0.5 ->
  Consumo_Medio_Mensal s = 100 -> Desvio_Padrao_Consumo s = 20 ->
  exists r, raiz_de fl s = Ok (Fin r) /\ 60.8199 <= r <= 60.8301.
Proof.
  unfold Lead_Time_medio, Desvio_Padrao_LT, Consumo_Medio_Mensal,
    Desvio_Padrao_Consumo.
  intros HLT HsLT Hm Hsd.
  assert (Hint1 : aprox (Py.Int 1) 1 0) by reflexivity.
  assert (H0 : 0 <= 0 <= 1) by lra.
  assert (H6 : 0 <= 1 / 1000000 <= 1) by lra.
  assert (H10 : 0 <= 1 / 10 <= 1) by lra.
  pose proof (aprox_py (col_Lead_Time_medio s)) as A0. rewrite HLT in A0.
  destruct (@add_aprox fl _ _ _ _ _ _ A0 Hint1 H0 H0
              ltac:(apply Rabs_le; lra) ltac:(apply Rabs_le; lra))
    as (periodo & E1 & A1).
  destruct (@pow2_aprox fl (col_Desvio_Padrao_Consumo s)
              ltac:(rewrite Hsd; apply Rabs_le; lra)) as (d2 & E2 & A2).
  rewrite Hsd in A2.
  assert (H16 : 0 <= 0 + 0 + 1 / 1000000 <= 1) by lra.
  destruct (@mul_aprox fl _ _ _ _ _ _ A1 A2 H16 H6
              ltac:(apply Rabs_le; lra) ltac:(apply Rabs_le; lra))
    as (vd & E3 & A3).
  destruct (@pow2_aprox fl (col_Consumo_Medio_Mensal s)
              ltac:(rewrite Hm; apply Rabs_le; lra)) as (c2 & E4 & A4).
  rewrite Hm in A4.
  destruct (@pow2_aprox fl (col_Desvio_Padrao_LT s)
              ltac:(rewrite HsLT; apply Rabs_le; lra)) as (l2 & E5 & A5).
  rewrite HsLT in A5.
  destruct (@mul_aprox fl _ _ _ _ _ _ A4 A5 H6 H6
              ltac:(apply Rabs_le; lra) ltac:(apply Rabs_le; lra))
    as (vl & E6 & A6).
  apply (@aprox_mono _ _ _ (1 / 10)) in A3; [|lra].
  apply (@aprox_mono _ _ _ (1 / 10)) in A6; [|lra].
  destruct (@add_aprox fl _ _ _ _ _ _ A3 A6 H10 H10
              ltac:(apply Rabs_le; lra) ltac:(apply Rabs_le; lra))
    as (rad & E7 & A7).
  rewrite (@raiz_de_intro fl s _ _ _ _ _ _ _ E1 E2 E3 E4 E5 E6 E7).
  assert (Hraiz : forall y, 3699.75 <= y <= 3700.25 ->
            exists r, Np.sqrt fl (Fin y) = Fin r /\ 60.8199 <= r <= 60.8301).
  { intros y Hy. cbn [Np.sqrt]. rewrite Rgtb_false by lra.
    eexists. split; [reflexivity|].
    assert (Hs : 60.8201 < sqrt y < 60.8299).
    { split.
      - rewrite <- (sqrt_square 60.8201) by lra. apply sqrt_lt_1_alt. lra.
      - rewrite <- (sqrt_square 60.8299) by lra. apply sqrt_lt_1_alt. lra. }
    assert (Hb : Rabs (sqrt y) <= 500000000) by (apply Rabs_le; lra).
    pose proof (@rnd_perto fl _ Hb) as Hr. apply Rabs_le_elim in Hr. lra. }
  destruct rad as [n|[y| | |]]; cbn [aprox] in A7; try contradiction.
  - assert (Hn : n = 3700%Z).
    { apply eq_IZR. rewrite A7. lra. }
    subst n. unfold np_sqrt.
    replace ((- 2 ^ 63 <=? 3700)%Z && (3700 <? 2 ^ 64)%Z) with true
      by reflexivity.
    rewrite Np.rnd_int by (cbn; lia).
    destruct (Hraiz 3700) as (r & -> & Hr); [lra|]. eauto.
  - unfold np_sqrt. apply Rabs_le_elim in A7.
    destruct (Hraiz y) as (r & -> & Hr); [lra|]. eauto.
Qed.
(** *** Summary matrices *)

Lemma get_loc_nth (l : list string) (c d : string) (j : nat) :
  Pd.get_loc l c = Some j -> nth j l d = c.
Proof.
  revert j. induction l as [|h l IH]; intros j; simpl; [discriminate|].
  destruct (String.eqb_spec c h) as [->|Hne].
  - intros [= <-]. reflexivity.
  - destruct (Pd.get_loc l c) as [k|]; simpl; [|discriminate].
    intros [= <-]. now apply IH.
Qed.

(** Writing a frame's own headers back leaves every cell in place. *)
Lemma set_columns_same {V} (m : DataFrame V) (r c : string) :
  Pd.data (Pd.set_columns (Pd.columns m) m) r c = Pd.data m r c.
Proof.
  cbn [Pd.set_columns Pd.data].
  destruct (Pd.get_loc (Pd.columns m) c) as [j|] eqn:E; [|reflexivity].
  now rewrite (get_loc_nth _ _ c E).
Qed.

Lemma isin_app (x : string) (l1 l2 : list string) :
  Pd.isin x (l1 ++ l2) = Pd.isin x l1 || Pd.isin x l2.
Proof. unfold Pd.isin. apply existsb_app. Qed.

Lemma isin_last (x : string) (l : list string) : Pd.isin x (l ++ [x]) = true.
Proof.
  rewrite isin_app. unfold Pd.isin at 2. cbn [existsb].
  now rewrite String.eqb_refl, !orb_true_r.
Qed.

(** Lines 282-283 on a table whose last column is 'Total': the rows
    become X, Y, Z, Total, the columns stay, and a cell is the old cell
    when its row existed and NaN otherwise. *)
Lemma loc_fixar_eixos {V} (m : DataFrame V) (cl : list string) (r c : string) :
  Pd.columns m = cl ++ ["Total"] ->
  Pd.loc (fixar_eixos m) r c
  = if Pd.isin r ["X"; "Y"; "Z"; "Total"] && Pd.isin c (Pd.columns m)
    then Some (if Pd.isin r (Pd.index m)
               then Pd.Val (Pd.data m r c) else Pd.NA)
    else None.
Proof.
  intros Hcols. unfold fixar_eixos.
  assert (Hlast : Pd.isin "Total"
            (Pd.columns (Pd.reindex ["X"; "Y"; "Z"; "Total"] m)) = true).
  { cbn [Pd.reindex Pd.columns]. rewrite Hcols. apply isin_last. }
  rewrite Hlast.
  replace (removelast (Pd.columns (Pd.reindex ["X"; "Y"; "Z"; "Total"] m))
           ++ ["Total"])
    with (Pd.columns (Pd.reindex ["X"; "Y"; "Z"; "Total"] m))
    by (cbn [Pd.reindex Pd.columns]; now rewrite Hcols, removelast_last).
  unfold Pd.loc at 1.
  rewrite set_columns_same.
  cbn [Pd.index Pd.columns Pd.set_columns Pd.reindex Pd.data].
  reflexivity.
Qed.

Lemma tabela_de_length ppf fl M (sel : frame Sku) :
  List.length (tabela_de ppf fl M sel) = List.length sel.
Proof. unfold tabela_de, resultado_de, calculadas. now rewrite !length_map. Qed.

Lemma resultado_de_length ppf fl M (sel : frame Sku) :
  List.length (resultado_de ppf fl M sel) = List.length sel.
Proof. unfold resultado_de, calculadas. now rewrite !length_map. Qed.

Lemma tabela_Criticidade ppf fl M (sel : frame Sku) :
  map t_Criticidade (map snd (tabela_de ppf fl M sel))
  = map (fun ir => Criticidade (snd ir)) sel.
Proof. unfold tabela_de, resultado_de, calculadas. now rewrite !map_map. Qed.

Lemma tabela_Curva ppf fl M (sel : frame Sku) :
  map t_Curva (map snd (tabela_de ppf fl M sel))
  = map (fun ir => Curva (snd ir)) sel.
Proof. unfold tabela_de, resultado_de, calculadas. now rewrite !map_map. Qed.

Lemma In_tabela_de ppf fl M (sel : frame Sku) (i : Z) (s : Sku) :
  In (i, s) sel ->
  In (tabular fl (derivar fl (linha_calculada ppf fl M s))) (map snd (tabela_de ppf fl M sel)).
Proof.
  intros Hin. unfold tabela_de, resultado_de, calculadas. rewrite !map_map.
  apply in_map_iff. now exists (i, s).
Qed.

Lemma filter_none {A} (f : A -> bool) (l : list A) :
  (forall x, In x l -> f x = false) -> filter f l = [].
Proof.
  induction l as [|h l IH]; intros Hf; simpl; [reflexivity|].
  rewrite (Hf h) by now left. apply IH. intros x Hx. apply Hf. now right.
Qed.

Lemma XYZ_not_Total (c : string) : In c ["X"; "Y"; "Z"] -> String.eqb c "Total" = false.
Proof.
  intros [<-|[<-|[<-|[]]]]; reflexivity.
Qed.

Lemma XYZ_isin (c : string) :
  In c ["X"; "Y"; "Z"] -> Pd.isin c ["X"; "Y"; "Z"; "Total"] = true.
Proof.
  intros [<-|[<-|[<-|[]]]]; reflexivity.
Qed.

(** What [fill_value=0] does achieve: a combination without records, of a
    criticality in X, Y, Z that has records and a curve that has records,
    is 0 in the three matrices. *)
Lemma celula_sem_registros_zero ppf fl M (df : frame Sku) (skus : list string)
      (c v : string) :
  bem_formado df ->
  In c ["X"; "Y"; "Z"] ->
  (exists i s, In (i, s) (selecionar df skus) /\ Criticidade s = c) ->
  (exists i s, In (i, s) (selecionar df skus) /\ Curva s = v) ->
  (forall i s, In (i, s) (selecionar df skus) ->
               ~ (Criticidade s = c /\ Curva s = v)) ->
  let p := passe_de ppf fl M (selecionar df skus) in
  Pd.loc (matriz_valor p) c v = Some (Pd.Val (Fin 0))
  /\ Pd.loc (matriz_cobertura p) c v = Some (Pd.Val (Fin 0))
  /\ Pd.loc (matriz_count p) c v = Some (Pd.Val 0%Z).
Proof.
  intros Hwf Hc [ic [sc [Hinc Hcrit]]] [iv [sv [Hinv Hcur]]] Hnone p.
  apply (selecionar_bem_formado skus) in Hwf. destruct Hwf as (_ & Hup & _).
  set (sel := selecionar df skus) in *.
  assert (HvT : String.eqb v "Total" = false).
  { apply String.eqb_neq. rewrite Forall_forall in Hup.
    destruct (Hup _ Hinv) as [_ [Hv _]]. cbn [snd] in Hv.
    rewrite <- Hcur. now apply str_upper_not_Total. }
  assert (Hrow : Pd.isin c (Pd.unique_sorted
                   (map t_Criticidade (map snd (tabela_de ppf fl M sel)))
                 ++ ["Total"]) = true).
  { rewrite isin_app. apply orb_true_iff. left. apply isin_In.
    rewrite In_unique_sorted, tabela_Criticidade. apply in_map_iff.
    now exists (ic, sc). }
  assert (Hcol : Pd.isin v (Pd.unique_sorted
                   (map t_Curva (map snd (tabela_de ppf fl M sel)))
                 ++ ["Total"]) = true).
  { rewrite isin_app. apply orb_true_iff. left. apply isin_In.
    rewrite In_unique_sorted, tabela_Curva. apply in_map_iff.
    now exists (iv, sv). }
  assert (Hgrp : Pd.group_rc t_Criticidade t_Curva c v
                   (map snd (tabela_de ppf fl M sel)) = []).
  { apply filter_none. intros t Ht.
    unfold tabela_de, resultado_de, calculadas in Ht. rewrite !map_map in Ht.
    apply in_map_iff in Ht as [[i s] [<- Hin]]. cbn.
    apply andb_false_iff.
    destruct (String.eqb_spec (Criticidade s) c) as [E1|]; [|now left].
    destruct (String.eqb_spec (Curva s) v) as [E2|]; [|now right].
    exfalso. now apply (Hnone i s Hin). }
  subst p. cbn [matriz_valor matriz_cobertura matriz_count passe_de].
  unfold pivot_valor, pivot_cobertura, pivot_count.
  repeat split;
    (erewrite loc_fixar_eixos by (cbn [Pd.columns Pd.margins_frame]; reflexivity);
     cbn [Pd.columns Pd.index Pd.margins_frame Pd.data];
     rewrite Hrow, Hcol, (XYZ_isin Hc), (XYZ_not_Total Hc), HvT;
     unfold Pd.pivot_cell; rewrite Hgrp; reflexivity).
Qed.

(** Counting the records of one curve by criticality. *)
Section Contagem.

Variable v : string.





End Contagem.



(** *** The labels of a pivot *)

Lemma compare_refl_string (s : string) : String.compare s s = Eq.
Proof.
  pose proof (String.compare_antisym s s) as H.
  destruct (String.compare s s); simpl in H; congruence.
Qed.

Lemma compare_lt_trans (a b c : string) :
  String.compare a b = Lt -> String.compare b c = Lt -> String.compare a c = Lt.
Proof.
  intros Hab Hbc.
  apply OrderedTypeEx.String_as_OT.cmp_lt.
  apply OrderedTypeEx.String_as_OT.lt_trans with b;
    now apply OrderedTypeEx.String_as_OT.cmp_lt.
Qed.

Lemma insert_label_sorted (x : string) (l : list string) :
  StronglySorted (fun a b => String.compare a b = Lt) l ->
  StronglySorted (fun a b => String.compare a b = Lt) (Pd.insert_label x l).
Proof.
  induction 1 as [|a l Hs IH Hall]; cbn [Pd.insert_label].
  - repeat constructor.
  - destruct (String.compare x a) eqn:Hc.
    + now constructor.
    + constructor; [now constructor|]. constructor; [assumption|].
      rewrite Forall_forall in *. intros y Hy.
      apply compare_lt_trans with a; auto.
    + constructor; [assumption|].
      rewrite Forall_forall in *. intros y Hy.
      apply In_insert_label in Hy as [->|Hy]; [|now apply Hall].
      rewrite String.compare_antisym, Hc. reflexivity.
Qed.

Lemma unique_sorted_sorted (l : list string) :
  StronglySorted (fun a b => String.compare a b = Lt) (Pd.unique_sorted l).
Proof.
  induction l as [|x l IH]; cbn [Pd.unique_sorted fold_right].
  - constructor.
  - now apply insert_label_sorted.
Qed.

(** The labels of a pivot have no duplicates. *)
Lemma unique_sorted_NoDup (l : list string) : NoDup (Pd.unique_sorted l).
Proof.
  pose proof (unique_sorted_sorted l) as Hs.
  induction Hs as [|a u Hs IH Hall]; constructor; [|assumption].
  intros Hin. rewrite Forall_forall in Hall. specialize (Hall a Hin).
  now rewrite compare_refl_string in Hall.
Qed.

Lemma length_filter_orb {A} (f g : A -> bool) (l : list A) :
  (forall x, In x l -> f x && g x = false) ->
  List.length (filter (fun x => f x || g x) l)
  = (List.length (filter f l) + List.length (filter g l))%nat.
Proof.
  induction l as [|x l IH]; intros Hdis; [reflexivity|].
  cbn [filter]. pose proof (Hdis x (or_introl eq_refl)) as Hx.
  assert (IH' := IH (fun y Hy => Hdis y (or_intror Hy))).
  destruct (f x), (g x); cbn [orb andb List.length] in *;
    try discriminate; lia.
Qed.

(** Counting a table by the labels of a duplicate-free list counts every
    row whose key is in the list once. *)
Lemma count_by_labels {A} (key : A -> string) (labels : list string)
      (rows : list A) :
  NoDup labels ->
  fold_right Nat.add O
    (map (fun v => List.length (filter (fun x => String.eqb (key x) v) rows))
         labels)
  = List.length (filter (fun x => Pd.isin (key x) labels) rows).
Proof.
  induction 1 as [|v labels Hni Hnd IH]; cbn [map fold_right].
  - rewrite filter_none; [reflexivity | reflexivity].
  - rewrite IH.
    rewrite (filter_ext (fun x => Pd.isin (key x) (v :: labels))
                        (fun x => String.eqb (key x) v || Pd.isin (key x) labels))
      by (intros x; reflexivity).
    rewrite <- (length_filter_orb (fun x => String.eqb (key x) v)
                                  (fun x => Pd.isin (key x) labels)).
    + reflexivity.
    + intros x _. destruct (String.eqb_spec (key x) v) as [->|]; [|reflexivity].
      cbn [andb]. now apply isin_false.
Qed.

Lemma columns_fixar_eixos {V} (m : DataFrame V) (cl : list string) :
  Pd.columns m = cl ++ ["Total"] ->
  Pd.columns (fixar_eixos m) = Pd.columns m
  /\ Pd.index (fixar_eixos m) = ["X"; "Y"; "Z"; "Total"].
Proof.
  intros Hc. unfold fixar_eixos. cbn [Pd.reindex Pd.columns].
  rewrite Hc, isin_last. cbn [Pd.set_columns Pd.columns Pd.index].
  now rewrite removelast_last.
Qed.

Lemma group_nonempty_label {A} (key : A -> string) (f : A -> bool)
      (v : string) (rows : list A) :
  (forall x, f x = true -> key x = v) ->
  filter f rows <> [] ->
  Pd.isin v (Pd.unique_sorted (map key rows) ++ ["Total"]) = true.
Proof.
  intros Hkey Hne. destruct (filter f rows) as [|x g] eqn:Hg; [contradiction|].
  assert (Hx : In x (filter f rows)) by (rewrite Hg; now left).
  apply filter_In in Hx as [Hin Hfx].
  rewrite isin_app. apply orb_true_iff. left. apply isin_In.
  rewrite In_unique_sorted. apply in_map_iff. exists x. split; auto.
Qed.

Lemma length_zero_of_absent {A} (key : A -> string) (f : A -> bool)
      (v : string) (rows : list A) :
  (forall x, f x = true -> key x = v) ->
  Pd.isin v (Pd.unique_sorted (map key rows) ++ ["Total"]) = false ->
  filter f rows = [].
Proof.
  intros Hkey Habs. destruct (filter f rows) as [|x g] eqn:Hg; [reflexivity|].
  rewrite (@group_nonempty_label _ key f v rows Hkey) in Habs; [discriminate|].
  rewrite Hg. discriminate.
Qed.

(** A cell X, Y or Z of a curve column of the count matrix, read for a
    total, is the number of records of that criticality and curve. *)
Lemma celula_count_eq (tab : frame Tabela) (c v : string) :
  In c ["X"; "Y"; "Z"] ->
  String.eqb v "Total" = false ->
  celula_ou_zero (Pd.loc (fixar_eixos (pivot_count tab)) c v)
  = Z.of_nat (List.length
                (Pd.group_rc t_Criticidade t_Curva c v (map snd tab))).
Proof.
  intros Hc HvT. unfold pivot_count.
  erewrite loc_fixar_eixos by (cbn [Pd.columns Pd.margins_frame]; reflexivity).
  rewrite (XYZ_isin Hc). cbn [Pd.columns Pd.index Pd.margins_frame andb].
  destruct (Pd.isin v (Pd.unique_sorted (map t_Curva (map snd tab)) ++ ["Total"]))
    eqn:Hcol.
  - destruct (Pd.isin c (Pd.unique_sorted (map t_Criticidade (map snd tab))
                         ++ ["Total"])) eqn:Hrow.
    + cbn [celula_ou_zero Pd.data Pd.margins_frame].
      rewrite (XYZ_not_Total Hc), HvT.
      unfold Pd.pivot_cell.
      destruct (Pd.group_rc t_Criticidade t_Curva c v (map snd tab)) as [|t g].
      * reflexivity.
      * now rewrite length_map.
    + unfold Pd.group_rc.
      rewrite (@length_zero_of_absent _ t_Criticidade _ c (map snd tab)); auto.
      intros x Hx. apply andb_true_iff in Hx as [Hx _].
      now apply String.eqb_eq.
  - unfold Pd.group_rc.
    rewrite (@length_zero_of_absent _ t_Curva _ v (map snd tab)); auto.
    intros x Hx. apply andb_true_iff in Hx as [_ Hx].
    now apply String.eqb_eq.
Qed.

(** The 'Total' cell of a curve column of the count matrix, read for a
    total, is the number of records of that curve. *)
Lemma celula_total_eq (tab : frame Tabela) (v : string) :
  String.eqb v "Total" = false ->
  celula_ou_zero (Pd.loc (fixar_eixos (pivot_count tab)) "Total" v)
  = Z.of_nat (List.length (Pd.group_c t_Curva v (map snd tab))).
Proof.
  intros HvT. unfold pivot_count.
  erewrite loc_fixar_eixos by (cbn [Pd.columns Pd.margins_frame]; reflexivity).
  change (Pd.isin "Total" ["X"; "Y"; "Z"; "Total"]) with true.
  cbn [Pd.columns Pd.index Pd.margins_frame andb].
  destruct (Pd.isin v (Pd.unique_sorted (map t_Curva (map snd tab)) ++ ["Total"]))
    eqn:Hcol.
  - rewrite isin_last. cbn [celula_ou_zero Pd.data Pd.margins_frame].
    rewrite String.eqb_refl, HvT. now rewrite length_map.
  - unfold Pd.group_c.
    rewrite (@length_zero_of_absent _ t_Curva _ v (map snd tab)); auto.
    intros x Hx. now apply String.eqb_eq.
Qed.

Lemma fold_add_of_nat (l : list nat) :
  fold_right Z.add 0%Z (map Z.of_nat l) = Z.of_nat (fold_right Nat.add O l).
Proof.
  induction l as [|n l IH]; [reflexivity|].
  cbn [map fold_right]. rewrite IH. lia.
Qed.

Lemma filter_all {A} (f : A -> bool) (l : list A) :
  (forall x, In x l -> f x = true) -> filter f l = l.
Proof.
  induction l as [|x l IH]; intros Hf; [reflexivity|].
  cbn [filter]. rewrite (Hf x) by now left.
  f_equal. apply IH. intros y Hy. apply Hf. now right.
Qed.

Lemma n_xyz_eq (v : string) (rows : list Tabela) :
  (forall t, In t rows -> In (t_Criticidade t) ["X"; "Y"; "Z"]) ->
  n_xyz v rows = n_curva v rows.
Proof.
  induction rows as [|t rows IH]; intros Hall; [reflexivity|].
  assert (IH' := IH (fun u Hu => Hall u (or_intror Hu))).
  pose proof (Hall t (or_introl eq_refl)) as Ht.
  unfold n_xyz, n_curva, Pd.group_rc, Pd.group_c in *. cbn [filter].
  destruct (String.eqb (t_Curva t) v);
    destruct Ht as [<-|[<-|[<-|[]]]]; cbn [String.eqb Ascii.eqb Bool.eqb andb
                                          List.length]; lia.
Qed.

Lemma NoDup_fst_functional {A} (df : frame A) (i : Z) (a b : A) :
  NoDup (map fst df) -> In (i, a) df -> In (i, b) df -> a = b.
Proof.
  induction df as [|[j c] df IH]; intros Hnd Ha Hb; [contradiction|].
  cbn [map fst] in Hnd. inversion Hnd as [|? ? Hni Hnd']; subst.
  destruct Ha as [Ha|Ha], Hb as [Hb|Hb].
  - congruence.
  - injection Ha as -> _. exfalso. apply Hni.
    apply in_map_iff. now exists (i, b).
  - injection Hb as -> _. exfalso. apply Hni.
    apply in_map_iff. now exists (i, a).
  - now apply IH.
Qed.

Lemma selecionar_In (df : frame Sku) (skus : list string) (i : Z) (s : Sku) :
  In (i, s) (selecionar df skus)
  <-> In (i, s) df /\ (skus = [] \/ In (SKU s) skus).
Proof.
  unfold selecionar. destruct skus as [|k skus].
  - intuition.
  - rewrite filter_In. cbn [snd]. rewrite isin_In. split.
    + intros [H1 H2]. split; [assumption | now right].
    + intros [H1 [H2|H2]]; [discriminate | now split].
Qed.

Lemma avisos_filter M (sel : frame Sku) :
  flat_map (fun ir => avisos_de M (snd ir)) sel
  = map (fun ir => aviso_nao_mapeada (SKU (snd ir)) (Criticidade (snd ir))
                                     (Curva (snd ir)))
        (filter (fun ir => negb (mapeado M (snd ir))) sel).
Proof.
  induction sel as [|[i s] sel IH]; [reflexivity|].
  cbn [flat_map filter snd]. unfold avisos_de at 1.
  destruct (mapeado M s); cbn [negb app map snd]; now rewrite IH.
Qed.

(** *** Labels present in a column *)

Lemma isin_label_present {A} (key : A -> string) (rows : list A) (x : A) :
  In x rows ->
  Pd.isin (key x) (Pd.unique_sorted (map key rows) ++ ["Total"]) = true.
Proof.
  intros Hin. rewrite isin_app. apply orb_true_iff. left. apply isin_In.
  rewrite In_unique_sorted. now apply in_map.
Qed.

Lemma isin_label_absent {A} (key : A -> string) (rows : list A) (c : string) :
  c <> "Total" ->
  (forall x, In x rows -> key x <> c) ->
  Pd.isin c (Pd.unique_sorted (map key rows) ++ ["Total"]) = false.
Proof.
  intros HcT Hnone. apply isin_false. intros Hin.
  apply in_app_or in Hin as [Hin|[Heq|[]]].
  - rewrite In_unique_sorted in Hin. apply in_map_iff in Hin as [x [Hx Hin]].
    now apply (Hnone x Hin).
  - now apply HcT.
Qed.

(** ** Evaluation on the sample frames *)

Lemma numero_valido_decimal (x : R) :
  Rabs x <= 1000000000000000000 -> numero_valido (Decimal x).
Proof.
  intros H. cbn [numero_valido]. pose proof max_float_grande. lra.
Qed.

(** [np.sqrt] of a Python int from 2^64 on. *)
Lemma np_sqrt_TypeError fl (n : Z) :
  (2 ^ 64 <= n)%Z -> np_sqrt fl (Py.Int n) = Raise "TypeError".
Proof.
  intros Hn. unfold np_sqrt.
  destruct (Z.ltb_spec n (2 ^ 64)) as [Hlt|_]; [lia|].
  now rewrite andb_false_r.
Qed.

Lemma np_sqrt_Int fl (n : Z) :
  (- 2 ^ 63 <= n < 2 ^ 64)%Z ->
  np_sqrt fl (Py.Int n) = Ok (Np.sqrt fl (Fin (Np.rnd fl (IZR n)))).
Proof.
  intros [Hlo Hhi]. unfold np_sqrt.
  apply Z.leb_le in Hlo. apply Z.ltb_lt in Hhi. now rewrite Hlo, Hhi.
Qed.

(** A row of whole numbers whose radicand [np.sqrt] accepts. *)
Lemma raiz_inteira_ok fl (s : Sku) (a b c d : Z) :
  col_Lead_Time_medio s = Inteiro a ->
  col_Desvio_Padrao_LT s = Inteiro b ->
  col_Consumo_Medio_Mensal s = Inteiro c ->
  col_Desvio_Padrao_Consumo s = Inteiro d ->
  (- 2 ^ 63 <= (a + 1) * (d * d) + c * c * (b * b) < 2 ^ 64)%Z ->
  exists raiz, raiz_de fl s = Ok raiz.
Proof.
  intros Ha Hb Hc Hd Hn. rewrite (@raiz_inteira fl s a b c d Ha Hb Hc Hd).
  rewrite np_sqrt_Int by assumption. eauto.
Qed.

Ltac celula_valida :=
  first [ (cbn [numero_valido]; unfold Np.int64_min, Np.int64_max; lia)
        | (apply numero_valido_decimal; apply Rabs_le; lra) ].

Ltac frame_bem_formado :=
  split;
  [ repeat (constructor; [simpl; intuition discriminate|]); constructor
  | split;
    [ repeat constructor
    | repeat (constructor; [repeat split; celula_valida|]); constructor ] ].

Ltac estatisticas :=
  cbv [moderado Lead_Time_medio Desvio_Padrao_LT Consumo_Medio_Mensal
       Desvio_Padrao_Consumo valor col_Lead_Time_medio col_Desvio_Padrao_LT
       col_Consumo_Medio_Mensal col_Desvio_Padrao_Consumo
       sku_exemplo sku_curva_d sku_lt_negativo sku_enorme sku_crit_w
       sku_centavos sku_constante sku_sem_classe snd].

Ltac linha_sem_excecao :=
  first [ (eapply raiz_inteira_ok;
           [reflexivity | reflexivity | reflexivity | reflexivity | lia])
        | (eexists; apply raiz_exata;
           [estatisticas; repeat split; apply Rabs_le; lra | reflexivity]) ].

(** With exact arithmetic nothing raises on the sample frames whose
    numbers are moderate. *)
Ltac frame_sem_excecao :=
  repeat (constructor; [split; [linha_sem_excecao | reflexivity]|]);
  constructor.

Lemma df_exemplo_bem_formado : bem_formado df_exemplo.
Proof. frame_bem_formado. Qed.

Lemma df_exemplo_sem_excecao : sem_excecao Np.exato (selecionar df_exemplo []).
Proof. frame_sem_excecao. Qed.

Lemma df_curva_d_bem_formado : bem_formado df_curva_d.
Proof. frame_bem_formado. Qed.

Lemma df_curva_d_sem_excecao : sem_excecao Np.exato (selecionar df_curva_d []).
Proof. frame_sem_excecao. Qed.



Lemma df_enorme_bem_formado : bem_formado df_enorme.
Proof. frame_bem_formado. Qed.

Lemma df_enorme_sem_excecao : sem_excecao Np.exato (selecionar df_enorme []).
Proof. frame_sem_excecao. Qed.

Lemma df_inteiros_bem_formado : bem_formado df_inteiros.
Proof. frame_bem_formado. Qed.



Lemma df_centavos_bem_formado : bem_formado df_centavos.
Proof. frame_bem_formado. Qed.

Lemma df_centavos_sem_excecao :
  sem_excecao Np.exato (selecionar df_centavos []).
Proof. frame_sem_excecao. Qed.



Lemma df_duas_classes_bem_formado : bem_formado df_duas_classes.
Proof. frame_bem_formado. Qed.

Lemma df_duas_classes_sem_excecao :
  sem_excecao Np.exato (selecionar df_duas_classes []).
Proof. frame_sem_excecao. Qed.

Lemma df_sem_classe_bem_formado : bem_formado df_sem_classe.
Proof. frame_bem_formado. Qed.

(** The sheet of whole numbers with the radicand 2^64: the loop raises
    TypeError at line 205, whatever the matrix, the quantile function and
    the rounding. *)
Lemma df_inteiros_TypeError ppf fl M :
  calcular ppf fl M df_inteiros [] = Raise "TypeError".
Proof.
  rewrite calcular_eq; [|exact df_inteiros_bem_formado|discriminate].
  cbn [selecionar df_inteiros verificar].
  rewrite (@raiz_inteira fl sku_inteiros 1 1 4294967296 0
             eq_refl eq_refl eq_refl eq_refl).
  rewrite np_sqrt_TypeError by lia. reflexivity.
Qed.

(** The sheet without the column 'Classe': the loop completes and line
    226 raises KeyError. *)
Lemma df_sem_classe_KeyError :
  calcular ppf_exemplo Np.exato matriz_default df_sem_classe []
  = Raise "KeyError".
Proof.
  rewrite calcular_eq; [|exact df_sem_classe_bem_formado|discriminate].
  cbn [selecionar df_sem_classe verificar].
  rewrite raiz_exata;
    [|estatisticas; repeat split; apply Rabs_le; lra | reflexivity].
  reflexivity.
Qed.

Lemma ppf_exemplo_98 : ppf_exemplo 0.98 = Fin 2.05375.
Proof. unfold ppf_exemplo. now rewrite Reqb_true. Qed.

Lemma ppf_exemplo_95 : ppf_exemplo 0.95 = Fin 1.64485.
Proof.
  unfold ppf_exemplo. rewrite Reqb_false by lra. now rewrite Reqb_false by lra.
Qed.


Lemma z_exemplo_default (s : Sku) :
  z_de ppf_exemplo matriz_default s = Fin 1.64485.
Proof.
  unfold z_de. destruct (mapeado matriz_default s); [|apply ppf_exemplo_95].
  cbn [Pd.data matriz_default]. rewrite <- ppf_exemplo_95. f_equal; lra.
Qed.
(** *** Line 205 on a row *)

Lemma ss_calc_de_Ok fl (zv : float64) (s : Sku) (raiz : float64) :
  raiz_de fl s = Ok raiz -> ss_calc_de fl zv s = Np.fmul fl zv raiz.
Proof. intros H. unfold ss_calc_de. now rewrite H. Qed.

(** The cast of the ceiling of a raw value whose ceiling fits the int64
    column is that ceiling, the least whole number from the raw value
    up. *)
Lemma teto_armazenado (raw : R) :
  (Np.int64_min <= Zceil raw <= Np.int64_max)%Z ->
  Np.astype_int (Np.ceil (Fin raw)) = Zceil raw
  /\ raw <= IZR (Np.astype_int (Np.ceil (Fin raw))) < raw + 1.
Proof.
  intros Hfit. rewrite (@astype_int_ceil raw Hfit). split; [reflexivity|].
  pose proof (Zceil_bound raw). lra.
Qed.

Lemma fmul_sem_erro fl (x y : R) :
  (forall u, Np.rnd fl u = u) -> Rabs (x * y) < Np.limite ->
  Np.fmul fl (Fin x) (Fin y) = Fin (x * y).
Proof.
  intros Hid Hlim. cbn [Np.fmul]. rewrite arredondar_finito by assumption.
  now rewrite Hid.
Qed.

(** The raw safety stock of the worked example, for a quantile between
    2.0537 and 2.0538. *)
Lemma ss_do_exemplo fl (z98 r : R) :
  2.0537 <= z98 <= 2.0538 -> 60.8199 <= r <= 60.8301 ->
  exists raw, Np.fmul fl (Fin z98) (Fin r) = Fin raw /\ Zceil raw = 125%Z.
Proof.
  intros Hz Hr. pose proof limite_grande as HL.
  assert (Hp : 124.9 <= z98 * r <= 124.94) by nra.
  cbn [Np.fmul]. rewrite arredondar_finito by (apply Rabs_def1; lra).
  eexists. split; [reflexivity|].
  assert (Hb : Rabs (z98 * r) <= 500000000) by (apply Rabs_le; lra).
  pose proof (@rnd_perto fl _ Hb) as He. apply Rabs_le_elim in He.
  apply Zceil_eq. change (IZR (125 - 1)) with 124. split; lra.
Qed.

(** ** Safety-stock calculator *)

(** C1, amended.  On a selection on which the pass raises nothing, every
    selected record has its row in the result.  In that row the period is
    the lead time plus one, the demand variance the period times the square
    of the
    consumption deviation, the lead-time variance the square of the mean
    consumption times the square of the lead-time deviation, all in
    Python's arithmetic; [SS_Calculado] is z times [np.sqrt] of their sum
    and [SS_Arredondado] the integer cast of its ceiling: the least whole
    number from the raw value up, whenever that fits the int64 column.
    Where the arithmetic rounds nothing, the raw value is the real number
    z * sqrt((lead time + 1) * sd(consumption)^2 + mean(consumption)^2 *
    sd(lead time)^2).  For the record with lead time 2 +- 0.5,
    consumption 100 +- 20 and service level 98 the rounded safety stock
    is 125 in binary64 arithmetic (with norm.ppf(0.98) between 2.0537 and
    2.0538). *)
Theorem C1_safety_stock_formula ppf fl M (df : frame Sku) (skus : list string)
        (z98 : R) :
  bem_formado df ->
  selecionar df skus <> [] ->
  sem_excecao fl (selecionar df skus) ->
  ppf 0.98 = Fin z98 ->
  2.0537 <= z98 <= 2.0538 ->
  exists p,
    calcular ppf fl M df skus = Ok p /\
    forall i s, In (i, s) (selecionar df skus) ->
      exists r periodo desvio2 var_dem consumo2 lt2 var_lt soma raiz,
        In (i, r) (resultado p)
        /\ sku (calculo r) = s
        /\ Py.add fl (py (col_Lead_Time_medio s)) (Py.Int 1) = Ok periodo
        /\ Py.pow2 fl (py (col_Desvio_Padrao_Consumo s)) = Ok desvio2
        /\ Py.mul fl periodo desvio2 = Ok var_dem
        /\ Py.pow2 fl (py (col_Consumo_Medio_Mensal s)) = Ok consumo2
        /\ Py.pow2 fl (py (col_Desvio_Padrao_LT s)) = Ok lt2
        /\ Py.mul fl consumo2 lt2 = Ok var_lt
        /\ Py.add fl var_dem var_lt = Ok soma
        /\ np_sqrt fl soma = Ok raiz
        /\ SS_Calculado (calculo r) = Np.fmul fl (z (calculo r)) raiz
        /\ SS_Arredondado (calculo r)
           = Np.astype_int (Np.ceil (SS_Calculado (calculo r)))
        /\ (forall raw, SS_Calculado (calculo r) = Fin raw ->
              (Np.int64_min <= Zceil raw <= Np.int64_max)%Z ->
              SS_Arredondado (calculo r) = Zceil raw
              /\ raw <= IZR (SS_Arredondado (calculo r)) < raw + 1)
        /\ ((forall x, Np.rnd fl x = x) -> (forall x, Np.pow2 fl x = x * x) ->
            moderado s -> 0 <= radicando s ->
            forall zr, z (calculo r) = Fin zr ->
              Rabs (zr * sqrt (radicando s)) < Np.limite ->
              SS_Calculado (calculo r) = Fin (zr * sqrt (radicando s)))
        /\ (Lead_Time_medio s = 2 -> Desvio_Padrao_LT s = 0.5 ->
            Consumo_Medio_Mensal s = 100 -> Desvio_Padrao_Consumo s = 20 ->
            Nivel_de_Servico (calculo r) = 98%Z ->
            SS_Arredondado (calculo r) = 125%Z).
Proof.
  intros Hwf Hne Hex Hppf Hz98.
  exists (passe_de ppf fl M (selecionar df skus)). split.
  { now apply calcular_ok. }
  intros i s Hin.
  destruct (@sem_excecao_In fl _ i s Hex Hin) as [[raiz Hraiz] _].
  destruct (@raiz_de_Ok fl s raiz Hraiz)
    as (periodo & desvio2 & var_dem & consumo2 & lt2 & var_lt & rad
        & E1 & E2 & E3 & E4 & E5 & E6 & E7 & E8).
  exists (derivar fl (linha_calculada ppf fl M s)),
    periodo, desvio2, var_dem, consumo2, lt2, var_lt, rad, raiz.
  cbn [resultado passe_de calculo derivar sku linha_calculada SS_Calculado
       SS_Arredondado z Nivel_de_Servico].
  rewrite (@ss_calc_de_Ok fl _ s raiz Hraiz).
  split; [now apply resultado_de_In|]. split; [reflexivity|].
  do 8 (split; [assumption|]).
  split; [reflexivity|]. split; [reflexivity|]. split; [|split].
  - intros raw Hraw Hfit. rewrite Hraw. now apply teto_armazenado.
  - intros Hid Hpw Hmod Hrad zr Hz Hlim.
    rewrite (@raiz_sem_erro fl Hid Hpw s raiz Hmod Hraiz), Hz.
    rewrite Rgtb_false by lra. now apply fmul_sem_erro.
  - intros HLT HsLT Hmean Hsd Hniv.
    destruct (@raiz_do_exemplo fl s HLT HsLT Hmean Hsd) as (r & Hr & Hrb).
    rewrite Hraiz in Hr. injection Hr as ->.
    assert (Hz : z_de ppf M s = Fin z98).
    { rewrite z_de_nivel_de, Hniv, <- Hppf. f_equal; lra. }
    rewrite Hz.
    destruct (@ss_do_exemplo fl z98 r Hz98 Hrb) as (raw & -> & Hc).
    rewrite astype_int_ceil; rewrite Hc; [reflexivity|].
    unfold Np.int64_min, Np.int64_max. lia.
Qed.
(** The row of the large numbers with exact arithmetic: the square root
    of line 205 is the product of the mean consumption and the lead-time
    deviation, and the raw safety stock is beyond the int64 range. *)
Lemma raiz_enorme :
  raiz_de Np.exato sku_enorme = Ok (Fin (15000000000.5 * 1500000000.5)).
Proof.
  rewrite raiz_exata;
    [|estatisticas; repeat split; apply Rabs_le; lra | reflexivity].
  replace (radicando sku_enorme)
    with ((15000000000.5 * 1500000000.5) * (15000000000.5 * 1500000000.5))
    by (unfold radicando, var_dem_de, var_lt_de, periodo_de; estatisticas; lra).
  cbn [Np.sqrt Np.exato Np.rnd]. rewrite Rgtb_false by lra.
  now rewrite sqrt_square by lra.
Qed.

Lemma ss_enorme :
  ss_calc_de Np.exato (Fin 1.64485) sku_enorme
  = Fin (1.64485 * (15000000000.5 * 1500000000.5)).
Proof.
  rewrite (@ss_calc_de_Ok Np.exato _ sku_enorme _ raiz_enorme).
  pose proof limite_grande as HL.
  apply fmul_sem_erro; [reflexivity|]. apply Rabs_def1; lra.
Qed.

Lemma teto_enorme :
  Np.astype_int (Np.ceil (Fin (1.64485 * (15000000000.5 * 1500000000.5))))
  = Np.int64_min.
Proof.
  apply astype_int_overflow. apply lt_IZR.
  pose proof (Zceil_bound (1.64485 * (15000000000.5 * 1500000000.5)))
    as [_ Hb].
  unfold Np.int64_max. eapply Rlt_le_trans; [|exact Hb].
  replace (2 ^ 63 - 1)%Z with 9223372036854775807%Z by reflexivity. lra.
Qed.

(** C1, as stated, fails on the code.  On the sheet of whole numbers
    with the radicand 2^64 line 205 raises TypeError and no record gets a
    safety stock.  On the sheet with the large float statistics the pass
    completes, the raw safety stock is a positive number beyond 2^63, and
    the stored rounded safety stock is the negative int64 that the cast
    leaves, not the ceiling. *)
Lemma C1_no_result_or_not_the_ceiling_counterexample :
  calcular ppf_exemplo Np.exato matriz_default df_inteiros []
  = Raise "TypeError"
  /\ (forall ppf fl M, calcular ppf fl M df_inteiros [] = Raise "TypeError")
  /\ exists p i r raw,
       calcular ppf_exemplo Np.exato matriz_default df_enorme [] = Ok p
       /\ In (i, r) (resultado p)
       /\ sku (calculo r) = sku_enorme
       /\ SS_Calculado (calculo r) = Fin raw
       /\ 0 < raw
       /\ (SS_Arredondado (calculo r) < 0)%Z
       /\ SS_Arredondado (calculo r) <> Zceil raw.
Proof.
  split; [apply df_inteiros_TypeError|].
  split; [apply df_inteiros_TypeError|].
  exists (passe_de ppf_exemplo Np.exato matriz_default (selecionar df_enorme [])),
    0%Z,
    (derivar Np.exato
       (linha_calculada ppf_exemplo Np.exato matriz_default sku_enorme)),
    (1.64485 * (15000000000.5 * 1500000000.5)).
  split.
  { apply calcular_ok;
      [exact df_enorme_bem_formado | discriminate | exact df_enorme_sem_excecao]. }
  split; [now left|]. split; [reflexivity|].
  cbn [calculo derivar sku linha_calculada SS_Calculado SS_Arredondado].
  rewrite z_exemplo_default, ss_enorme, teto_enorme.
  split; [reflexivity|]. split; [lra|].
  split; [unfold Np.int64_min; lia|].
  intros Heq.
  pose proof (Zceil_bound (1.64485 * (15000000000.5 * 1500000000.5)))
    as [_ Hb].
  rewrite <- Heq in Hb. unfold Np.int64_min in Hb.
  replace (- 2 ^ 63)%Z with (-9223372036854775808)%Z in Hb by reflexivity.
  lra.
Qed.

(** The worked example, with exact arithmetic and the quantile 2.05375
    of the level 98: the pass completes and the record's rounded safety
    stock is 125. *)
Lemma C1_worked_example_witness :
  bem_formado df_exemplo
  /\ selecionar df_exemplo [] <> []
  /\ sem_excecao Np.exato (selecionar df_exemplo [])
  /\ exists p,
       calcular ppf_exemplo Np.exato matriz_98 df_exemplo [] = Ok p
       /\ exists r, In (0%Z, r) (resultado p)
                    /\ sku (calculo r) = sku_exemplo
                    /\ SS_Arredondado (calculo r) = 125%Z.
Proof.
  assert (Hwf := df_exemplo_bem_formado).
  assert (Hne : selecionar df_exemplo [] <> []) by discriminate.
  assert (Hex := df_exemplo_sem_excecao).
  split; [exact Hwf|]. split; [exact Hne|]. split; [exact Hex|].
  assert (Hz : 2.0537 <= 2.05375 <= 2.0538) by lra.
  destruct (@C1_safety_stock_formula ppf_exemplo Np.exato matriz_98
              df_exemplo [] 2.05375 Hwf Hne Hex ppf_exemplo_98 Hz)
    as (p & Hp & Hrows).
  exists p. split; [exact Hp|].
  destruct (Hrows 0%Z sku_exemplo (or_introl eq_refl))
    as (r & periodo & desvio2 & var_dem & consumo2 & lt2 & var_lt & soma
        & raiz & Hin & Hsku & _ & _ & _ & _ & _ & _ & _ & _ & _ & _ & _ & _
        & Hex125).
  exists r. split; [exact Hin|]. split; [exact Hsku|].
  apply Hex125; try (estatisticas; lra).
  destruct (@calcular_inv ppf_exemplo Np.exato matriz_98 df_exemplo [] p Hwf Hp)
    as (_ & _ & ->).
  cbn [resultado passe_de] in Hin.
  apply In_resultado_de in Hin as (s & Hs & ->).
  destruct Hs as [Hs|[]]. injection Hs as <-. reflexivity.
Defined.
(** ** Quantile resolver *)

(** C2.  On a selection on which the pass raises nothing, every selected
    record whose criticality is a row label and whose curve is a column
    label of the matrix has its row in the result, with the level of the
    matrix cell under these labels and the quantile ppf(level / 100);
    and every row of the result with such a pair holds them. *)
Theorem C2_mapped_pair_uses_matrix_cell ppf fl M (df : frame Sku)
        (skus : list string) :
  bem_formado df ->
  selecionar df skus <> [] ->
  sem_excecao fl (selecionar df skus) ->
  exists p,
    calcular ppf fl M df skus = Ok p /\
    (forall i s, In (i, s) (selecionar df skus) ->
       In (Criticidade s) (Pd.index M) ->
       In (Curva s) (Pd.columns M) ->
       exists r,
         In (i, r) (resultado p)
         /\ sku (calculo r) = s
         /\ Pd.loc M (Criticidade s) (Curva s)
            = Some (Nivel_de_Servico (calculo r))
         /\ Nivel_de_Servico (calculo r) = Pd.data M (Criticidade s) (Curva s)
         /\ z (calculo r) = ppf (IZR (Nivel_de_Servico (calculo r)) / 100)) /\
    (forall i r, In (i, r) (resultado p) ->
       let c := calculo r in
       let s := sku c in
       In (Criticidade s) (Pd.index M) ->
       In (Curva s) (Pd.columns M) ->
       Pd.loc M (Criticidade s) (Curva s) = Some (Nivel_de_Servico c)
       /\ z c = ppf (IZR (Nivel_de_Servico c) / 100)).
Proof.
  intros Hwf Hne Hex.
  exists (passe_de ppf fl M (selecionar df skus)). split.
  { now apply calcular_ok. }
  assert (Hrow : forall s,
             In (Criticidade s) (Pd.index M) -> In (Curva s) (Pd.columns M) ->
             Pd.loc M (Criticidade s) (Curva s) = Some (nivel_de M s)
             /\ nivel_de M s = Pd.data M (Criticidade s) (Curva s)).
  { intros s Hr Hc.
    assert (Hmap : mapeado M s = true) by (apply mapeado_In; now split).
    unfold Pd.loc, nivel_de. fold (mapeado M s). now rewrite Hmap. }
  split.
  - intros i s Hin Hr Hc.
    exists (derivar fl (linha_calculada ppf fl M s)).
    cbn [resultado passe_de calculo derivar sku linha_calculada z
         Nivel_de_Servico].
    split; [now apply resultado_de_In|]. split; [reflexivity|].
    destruct (Hrow s Hr Hc) as [Hloc Hdata].
    split; [exact Hloc|]. split; [exact Hdata|]. apply z_de_nivel_de.
  - intros i r Hin. cbn [resultado passe_de] in Hin.
    apply In_resultado_de in Hin as [s [_ ->]].
    cbn [calculo derivar sku linha_calculada z Nivel_de_Servico].
    intros Hr Hc. split; [apply (Hrow s Hr Hc) | apply z_de_nivel_de].
Qed.

(** The record of class X/A under the matrix with 98 in (X, A): level 98
    and quantile ppf(0.98). *)
Lemma C2_mapped_pair_witness :
  bem_formado df_exemplo
  /\ selecionar df_exemplo [] <> []
  /\ sem_excecao Np.exato (selecionar df_exemplo [])
  /\ exists p,
       calcular ppf_exemplo Np.exato matriz_98 df_exemplo [] = Ok p /\
       exists r, In (0%Z, r) (resultado p)
                 /\ sku (calculo r) = sku_exemplo
                 /\ Nivel_de_Servico (calculo r) = 98%Z
                 /\ z (calculo r) = Fin 2.05375.
Proof.
  assert (Hwf := df_exemplo_bem_formado).
  assert (Hne : selecionar df_exemplo [] <> []) by discriminate.
  assert (Hex := df_exemplo_sem_excecao).
  split; [exact Hwf|]. split; [exact Hne|]. split; [exact Hex|].
  destruct (@C2_mapped_pair_uses_matrix_cell ppf_exemplo Np.exato matriz_98
              df_exemplo [] Hwf Hne Hex) as (p & Hp & Hsel & _).
  exists p. split; [exact Hp|].
  destruct (Hsel 0%Z sku_exemplo) as (r & Hin & Hs & _ & Hn & Hz).
  - now left.
  - simpl; tauto.
  - simpl; tauto.
  - exists r. split; [exact Hin|]. split; [exact Hs|].
    assert (Hn98 : Nivel_de_Servico (calculo r) = 98%Z)
      by (rewrite Hn; reflexivity).
    split; [exact Hn98|].
    rewrite Hz, Hn98, <- ppf_exemplo_98. f_equal; lra.
Defined.

(** C9.  In every row of the result the stored quantile is
    ppf(stored level / 100), whichever branch produced them. *)
Theorem C9_quantile_matches_stored_level ppf fl M (df : frame Sku)
        (skus : list string) :
  bem_formado df ->
  selecionar df skus <> [] ->
  sem_excecao fl (selecionar df skus) ->
  exists p,
    calcular ppf fl M df skus = Ok p /\
    forall i r, In (i, r) (resultado p) ->
      z (calculo r) = ppf (IZR (Nivel_de_Servico (calculo r)) / 100).
Proof.
  intros Hwf Hne Hex.
  exists (passe_de ppf fl M (selecionar df skus)). split.
  { now apply calcular_ok. }
  intros i r Hin. cbn [resultado passe_de] in Hin.
  apply In_resultado_de in Hin as [s [_ ->]].
  cbn [calculo derivar linha_calculada z Nivel_de_Servico].
  apply z_de_nivel_de.
Qed.

(** Both branches on the two-record frame: each stored quantile is the
    quantile of the stored level. *)
Lemma C9_quantile_matches_level_witness :
  bem_formado df_curva_d
  /\ selecionar df_curva_d [] <> []
  /\ sem_excecao Np.exato (selecionar df_curva_d [])
  /\ exists p,
       calcular ppf_exemplo Np.exato matriz_98 df_curva_d [] = Ok p /\
       forall i r, In (i, r) (resultado p) ->
         z (calculo r) = ppf_exemplo (IZR (Nivel_de_Servico (calculo r)) / 100).
Proof.
  assert (Hwf := df_curva_d_bem_formado).
  assert (Hne : selecionar df_curva_d [] <> []) by discriminate.
  assert (Hex := df_curva_d_sem_excecao).
  split; [exact Hwf|]. split; [exact Hne|]. split; [exact Hex|].
  exact (@C9_quantile_matches_stored_level ppf_exemplo Np.exato matriz_98
           df_curva_d [] Hwf Hne Hex).
Defined.



(** ** Derived metrics *)

Lemma of_int_sem_erro fl (n : Z) :
  (forall x, Np.rnd fl x = x) -> Np.of_int fl n = Fin (IZR n).
Proof. intros Hid. unfold Np.of_int. now rewrite Hid. Qed.

Lemma flutuante_sem_erro fl (c : numero) :
  (forall x, Np.rnd fl x = x) -> flutuante fl c = Fin (valor c).
Proof.
  intros Hid. destruct c as [n|x]; cbn [flutuante valor]; [|reflexivity].
  now apply of_int_sem_erro.
Qed.





(** ** Sign of the safety stock *)


Lemma df_transbordo_bem_formado : bem_formado df_transbordo.
Proof.
  assert (Hpot : forall n, (0 <= n <= 2 ^ 1024 - 2 ^ 971)%Z ->
                           numero_valido (Decimal (IZR n))).
  { intros n [Hlo Hhi]. cbn [numero_valido]. unfold Np.max_float.
    apply Rabs_le. split.
    - apply Rle_trans with 0; [|now apply IZR_le].
      rewrite <- Ropp_0. apply Ropp_le_contravar. apply IZR_le. lia.
    - now apply IZR_le. }
  split; [|split].
  - repeat (constructor; [simpl; intuition discriminate|]); constructor.
  - repeat constructor.
  - constructor; [|constructor].
    cbn [snd sku_transbordo]. unfold celulas_validas.
    cbn [col_Estoque_inicial col_Lead_Time_medio col_Desvio_Padrao_LT
         col_Estoque_de_Seguranca col_Consumo_Medio_Mensal
         col_Desvio_Padrao_Consumo col_Valor_Unit].
    repeat split; try celula_valida; apply Hpot; split;
      solve [ apply Z.pow_nonneg; lia
            | apply Zle_bool_imp_le; vm_compute; reflexivity ].
Qed.

(** The sheet of the overflow: the demand variance is beyond the largest
    float and the square root of line 205 is +inf, whatever the
    rounding. *)
Lemma raiz_transbordo fl : raiz_de fl sku_transbordo = Ok PInf.
Proof.
  pose proof limite_grande as HL.
  assert (H1000 : IZR (2 ^ 500) * IZR (2 ^ 500) = IZR (2 ^ 1000)).
  { rewrite <- mult_IZR. f_equal. }
  assert (Hlt : IZR (2 ^ 1000) < Np.limite).
  { unfold Np.limite. apply IZR_lt. reflexivity. }
  assert (Hp30 : 0 < IZR (2 ^ 30)) by (apply IZR_lt; reflexivity).
  assert (Hp30' : IZR (2 ^ 30) <= 10000000000)
    by (apply IZR_le; apply Zle_bool_imp_le; vm_compute; reflexivity).
  unfold raiz_de, radicando_de.
  cbn [sku_transbordo col_Lead_Time_medio col_Desvio_Padrao_Consumo
       col_Consumo_Medio_Mensal col_Desvio_Padrao_LT py Py.add Py.to_float
       bind].
  rewrite Rabs_R1. rewrite Rleb_false by lra. cbn [bind]. rewrite rnd_1.
  cbn [Np.fadd]. rewrite arredondar_finito by (apply Rabs_def1; lra).
  assert (Hmax : IZR (2 ^ 1000) <= Np.max_float).
  { unfold Np.max_float. apply IZR_le. apply Zle_bool_imp_le.
    vm_compute. reflexivity. }
  cbn [Py.pow2].
  rewrite (@Np.pow2_estoura_nao fl (IZR (2 ^ 500)) ltac:(rewrite H1000; lra)).
  cbn [bind].
  rewrite (@Np.pow2_estoura_nao fl 0 ltac:(lra)). cbn [bind].
  rewrite Np.pow2_0.
  cbn [Py.mul Py.to_float bind Np.fmul].
  assert (Hper : IZR (2 ^ 30) <= Np.rnd fl (IZR (2 ^ 30) + 1)).
  { rewrite <- (Np.rnd_int fl (2 ^ 30)) at 1 by (cbn; lia).
    apply Np.rnd_mono. lra. }
  assert (Hsq : IZR (2 ^ 999) <= Np.pow2 fl (IZR (2 ^ 500))).
  { pose proof (Np.pow2_err fl (IZR (2 ^ 500))) as He.
    apply Rabs_le_elim in He. rewrite H1000 in He.
    assert (Hdobro : IZR (2 ^ 1000) = 2 * IZR (2 ^ 999))
      by (rewrite <- mult_IZR; f_equal).
    assert (Hbig : 1 <= IZR (2 ^ 999))
      by (apply IZR_le; apply Zle_bool_imp_le; vm_compute; reflexivity).
    lra. }
  assert (Hprod : Np.limite
                  <= Np.rnd fl (IZR (2 ^ 30) + 1) * Np.pow2 fl (IZR (2 ^ 500))).
  { apply Rle_trans with (IZR (2 ^ 30) * IZR (2 ^ 999)).
    - unfold Np.limite. rewrite <- mult_IZR.
      apply IZR_le. apply Zle_bool_imp_le. vm_compute. reflexivity.
    - assert (Hbig : 0 <= IZR (2 ^ 999))
        by (apply IZR_le; apply Zle_bool_imp_le; vm_compute; reflexivity).
      apply Rmult_le_compat; lra. }
  rewrite (@arredondar_pinf fl _ Hprod).
  replace (0 * 0) with 0 by lra. rewrite arredondar_0.
  cbn [Py.add Py.to_float bind Np.fadd Np.add np_sqrt Np.sqrt]. reflexivity.
Qed.

Lemma df_transbordo_sem_excecao fl :
  sem_excecao fl (selecionar df_transbordo []).
Proof.
  constructor; [|constructor]. split; [|reflexivity].
  exists PInf. apply raiz_transbordo.
Qed.



(** ** Summary matrices of a pass *)

(** C6.  The cell ('Total', 'Total') of the count matrix is the number of
    records of the pass. *)
Theorem C6_count_grand_total ppf fl M (df : frame Sku) (skus : list string) :
  bem_formado df ->
  selecionar df skus <> [] ->
  sem_excecao fl (selecionar df skus) ->
  exists p,
    calcular ppf fl M df skus = Ok p /\
    List.length (resultado p) = List.length (selecionar df skus) /\
    Pd.loc (matriz_count p) "Total" "Total"
    = Some (Pd.Val (Z.of_nat (List.length (resultado p)))).
Proof.
  intros Hwf Hne Hex.
  exists (passe_de ppf fl M (selecionar df skus)). split.
  { now apply calcular_ok. }
  cbn [resultado matriz_count passe_de].
  split; [apply resultado_de_length|].
  unfold pivot_count.
  erewrite loc_fixar_eixos by (cbn [Pd.columns Pd.margins_frame]; reflexivity).
  cbn [Pd.columns Pd.index Pd.margins_frame Pd.data].
  rewrite !isin_last. rewrite String.eqb_refl.
  change (Pd.isin "Total" ["X"; "Y"; "Z"; "Total"]) with true. cbn [andb].
  now rewrite !length_map, resultado_de_length, tabela_de_length.
Qed.

(** Two records in the pass: the corner of the count matrix is 2. *)
Lemma C6_count_grand_total_witness :
  bem_formado df_curva_d
  /\ selecionar df_curva_d [] <> []
  /\ sem_excecao Np.exato (selecionar df_curva_d [])
  /\ exists p,
       calcular ppf_exemplo Np.exato matriz_default df_curva_d [] = Ok p /\
       Pd.loc (matriz_count p) "Total" "Total" = Some (Pd.Val 2%Z).
Proof.
  assert (Hwf := df_curva_d_bem_formado).
  assert (Hne : selecionar df_curva_d [] <> []) by discriminate.
  assert (Hex := df_curva_d_sem_excecao).
  split; [exact Hwf|]. split; [exact Hne|]. split; [exact Hex|].
  destruct (@C6_count_grand_total ppf_exemplo Np.exato matriz_default df_curva_d []
              Hwf Hne Hex) as [p [Hp [Hlen Hcell]]].
  exists p. split; [exact Hp|].
  rewrite Hcell, Hlen. reflexivity.
Defined.

(** C7 fails on the code.  In a pass whose only record is of class X/A,
    no record has criticality Y: the cell (Y, A) is NaN in the three
    matrices (the rows added by [reindex] are not filled), and there is no
    cell (X, B) at all (the curves without records have no column). *)
Theorem C7_absent_row_is_nan_not_zero :
  exists p,
    calcular ppf_exemplo Np.exato matriz_default df_exemplo [] = Ok p /\
    Pd.loc (matriz_valor p) "Y" "A" = Some Pd.NA /\
    Pd.loc (matriz_cobertura p) "Y" "A" = Some Pd.NA /\
    Pd.loc (matriz_count p) "Y" "A" = Some Pd.NA /\
    Pd.loc (matriz_valor p) "X" "B" = None /\
    Pd.loc (matriz_cobertura p) "X" "B" = None /\
    Pd.loc (matriz_count p) "X" "B" = None.
Proof.
  exists (passe_de ppf_exemplo Np.exato matriz_default (selecionar df_exemplo [])).
  split.
  { apply calcular_ok;
      [exact df_exemplo_bem_formado | discriminate
      | exact df_exemplo_sem_excecao]. }
  cbn [matriz_valor matriz_cobertura matriz_count passe_de].
  unfold pivot_valor, pivot_cobertura, pivot_count.
  repeat split;
    (erewrite loc_fixar_eixos by (cbn [Pd.columns Pd.margins_frame]; reflexivity);
     cbn [Pd.columns Pd.index Pd.margins_frame Pd.data];
     rewrite ?tabela_Criticidade, ?tabela_Curva; reflexivity).
Qed.




(** ** Rounding of the table *)

Lemma rint_near (x : R) (n : Z) :
  IZR n - 1 / 2 < x < IZR n + 1 / 2 -> Np.rint x = n.
Proof.
  intros [Hlo Hhi]. unfold Np.rint.
  destruct (Rle_lt_dec (IZR n) x) as [Hge|Hlt].
  - rewrite (Zfloor_eq n x) by lra. rewrite Rgtb_true by lra. reflexivity.
  - assert (Hf : Zfloor x = (n - 1)%Z).
    { apply Zfloor_eq. rewrite minus_IZR. lra. }
    rewrite Hf, minus_IZR.
    rewrite Rgtb_false by lra. rewrite Rgtb_true by lra. lia.
Qed.

(** [round(2)] with exact arithmetic, away from the ties. *)
Lemma round2_exato_near (x : R) (n : Z) :
  IZR n - 1 / 2 < x * 100 < IZR n + 1 / 2 ->
  Rabs (x * 100) < Np.limite ->
  Np.round2 Np.exato (Fin x) = Fin (IZR n / 100).
Proof.
  intros H Hlim. cbn [Np.round2 Np.fmul].
  rewrite arredondar_finito by assumption.
  cbn [Np.rnd Np.exato]. now rewrite (rint_near _ H).
Qed.

(** C8, as stated, fails on the code.  For a record with unit value 0.004
    and current safety stock 1000, the exported table holds the unit
    value 0 and the financial summary reports a current value of 0, while
    the stored columns give 1000 * 0.004 = 4. *)
Lemma C8_summary_from_rounded_table_counterexample :
  exists p,
    calcular ppf_exemplo Np.exato matriz_default df_centavos [] = Ok p /\
    (exists i r t,
        In (i, r) (resultado p) /\ In (i, t) (excel p)
        /\ t_Valor_Unit t = F64 (Fin 0)
        /\ col_Valor_Unit (sku (calculo r)) = Decimal 0.004)
    /\ valor_atual p = Fin 0
    /\ valor_atual_pleno Np.exato (resultado p) = Fin 4
    /\ valor_atual p <> valor_atual_pleno Np.exato (resultado p).
Proof.
  exists (passe_de ppf_exemplo Np.exato matriz_default
            (selecionar df_centavos [])).
  split.
  { apply calcular_ok;
      [exact df_centavos_bem_formado | discriminate
      | exact df_centavos_sem_excecao]. }
  pose proof limite_grande as HL.
  assert (Hvu : Np.round2 Np.exato (Fin 0.004) = Fin 0).
  { rewrite (@round2_exato_near 0.004 0%Z);
      [f_equal; lra | lra | apply Rabs_def1; lra]. }
  assert (Hatual :
            valor_atual
              (passe_de ppf_exemplo Np.exato matriz_default
                 (selecionar df_centavos []))
            = Fin 0).
  { cbn [valor_atual passe_de]. unfold valor_atual_de.
    cbn [selecionar df_centavos tabela_de resultado_de calculadas map fst snd
         tabular t_SS_Atual t_Valor_Unit calculo derivar sku linha_calculada
         sku_centavos col_Estoque_de_Seguranca col_Valor_Unit arredondado
         vezes].
    rewrite Hvu. unfold Np.of_int. cbn [Np.rnd Np.exato Np.fmul].
    rewrite arredondar_finito by (apply Rabs_def1; lra).
    cbn [Np.rnd Np.exato]. cbn. f_equal; lra. }
  assert (Hpleno :
            valor_atual_pleno Np.exato
              (resultado
                 (passe_de ppf_exemplo Np.exato matriz_default
                    (selecionar df_centavos [])))
            = Fin 4).
  { unfold valor_atual_pleno.
    cbn [resultado passe_de selecionar df_centavos resultado_de calculadas
         map fst snd calculo derivar sku linha_calculada sku_centavos
         col_Estoque_de_Seguranca col_Valor_Unit celula_de vezes].
    unfold Np.of_int. cbn [Np.rnd Np.exato Np.fmul].
    rewrite arredondar_finito by (apply Rabs_def1; lra).
    cbn [Np.rnd Np.exato]. cbn. f_equal; lra. }
  split; [|split; [|split]].
  - exists 0%Z,
      (derivar Np.exato
         (linha_calculada ppf_exemplo Np.exato matriz_default sku_centavos)),
      (tabular Np.exato
         (derivar Np.exato
            (linha_calculada ppf_exemplo Np.exato matriz_default sku_centavos))).
    split; [now left|]. split; [now left|].
    split; [|reflexivity].
    cbn [tabular t_Valor_Unit calculo derivar sku linha_calculada sku_centavos
         col_Valor_Unit arredondado].
    now rewrite Hvu.
  - exact Hatual.
  - exact Hpleno.
  - rewrite Hatual, Hpleno. intros [= H]. lra.
Qed.

(** C8, amended.  The table is the result rounded to two decimals, cell by
    cell, when it is built (line 234, the int64 columns left as they
    are); the financial summary, the three matrices and the exported
    sheet are all computed from that rounded table.  Only the frame
    [resultado], which has a row for every selected record, keeps the
    unrounded values: the input columns as they were read and the value
    of the calculated safety stock as the product of line 215. *)
Theorem C8_table_rounded_once_and_reused ppf fl M (df : frame Sku)
        (skus : list string) :
  bem_formado df ->
  selecionar df skus <> [] ->
  sem_excecao fl (selecionar df skus) ->
  exists p,
    calcular ppf fl M df skus = Ok p /\
    tabela p = map (fun ir => (fst ir, tabular fl (snd ir))) (resultado p) /\
    (forall i r, In (i, r) (resultado p) ->
       let s := sku (calculo r) in
       exists t,
         In (i, t) (tabela p)
         /\ t_SS_Atual t = arredondado fl (col_Estoque_de_Seguranca s)
         /\ t_Valor_Unit t = arredondado fl (col_Valor_Unit s)
         /\ t_Valor_SS_Calculado t
            = match col_Valor_Unit s with
              | Inteiro _ => Valor_SS_Calculado r
              | Decimal _ => Np.round2 fl (Valor_SS_Calculado r)
              end
         /\ t_Cobertura_Calculada t = Np.round2 fl (Cobertura_Calculada_Meses r)
         /\ t_Cobertura_Atual t = Np.round2 fl (Cobertura_Atual_Meses r)
         /\ t_Diferenca_Unidades t
            = match col_Estoque_de_Seguranca s with
              | Inteiro _ => Diferenca_Unidades r
              | Decimal _ => Np.round2 fl (Diferenca_Unidades r)
              end
         /\ t_Diferenca_pct t = Np.round2 fl (Diferenca_pct r)) /\
    (forall n, arredondado fl (Inteiro n) = I64 n) /\
    (forall x, arredondado fl (Decimal x) = F64 (Np.round2 fl (Fin x))) /\
    valor_atual p
    = Np.sum (map (fun it => vezes fl (t_SS_Atual (snd it))
                                      (t_Valor_Unit (snd it)))
                  (tabela p)) /\
    valor_novo p
    = Np.sum (map (fun it => t_Valor_SS_Calculado (snd it)) (tabela p)) /\
    impacto p = Np.sub (valor_novo p) (valor_atual p) /\
    matriz_valor_de (tabela p) = Ok (matriz_valor p) /\
    matriz_cobertura_de (tabela p) = Ok (matriz_cobertura p) /\
    matriz_count_de (tabela p) = Ok (matriz_count p) /\
    excel p = tabela p /\
    (forall i s, In (i, s) (selecionar df skus) ->
       exists r, In (i, r) (resultado p) /\ sku (calculo r) = s) /\
    (forall i r, In (i, r) (resultado p) ->
       In (i, sku (calculo r)) (selecionar df skus)
       /\ Valor_SS_Calculado r
          = match col_Valor_Unit (sku (calculo r)) with
            | Inteiro m =>
                Fin (IZR (Np.wrap64 (SS_Arredondado (calculo r) * m)))
            | Decimal x =>
                Np.fmul fl (Np.of_int fl (SS_Arredondado (calculo r))) (Fin x)
            end).
Proof.
  intros Hwf Hne Hex.
  exists (passe_de ppf fl M (selecionar df skus)). split.
  { now apply calcular_ok. }
  apply (selecionar_bem_formado skus) in Hwf. destruct Hwf as (_ & Hup & _).
  cbn [resultado tabela valor_atual valor_novo impacto matriz_valor
       matriz_cobertura matriz_count excel passe_de].
  split; [reflexivity|]. split.
  { intros i r Hin. exists (tabular fl r). split.
    - unfold tabela_de. apply in_map_iff. now exists (i, r).
    - repeat split; reflexivity. }
  split; [reflexivity|]. split; [reflexivity|].
  split; [reflexivity|]. split; [reflexivity|]. split; [reflexivity|].
  unfold matriz_valor_de, matriz_cobertura_de, matriz_count_de.
  rewrite !pivot_table_ok by (now apply tabela_sem_conflito).
  repeat (split; [reflexivity|]).
  split.
  { intros i s Hin. exists (derivar fl (linha_calculada ppf fl M s)).
    split; [now apply resultado_de_In | reflexivity]. }
  intros i r Hin. apply In_resultado_de in Hin as [s [Hin ->]].
  split; [exact Hin | reflexivity].
Qed.

(** The record with unit value 0.004: the sheet is the rounded table and
    holds the unit value 0. *)
Lemma C8_table_rounded_witness :
  bem_formado df_centavos
  /\ selecionar df_centavos [] <> []
  /\ sem_excecao Np.exato (selecionar df_centavos [])
  /\ exists p,
       calcular ppf_exemplo Np.exato matriz_default df_centavos [] = Ok p /\
       excel p = tabela p /\
       forall i r, In (i, r) (resultado p) ->
         col_Valor_Unit (sku (calculo r)) = Decimal 0.004
         /\ exists t, In (i, t) (excel p) /\ t_Valor_Unit t = F64 (Fin 0).
Proof.
  assert (Hwf := df_centavos_bem_formado).
  assert (Hne : selecionar df_centavos [] <> []) by discriminate.
  assert (Hex := df_centavos_sem_excecao).
  split; [exact Hwf|]. split; [exact Hne|]. split; [exact Hex|].
  destruct (@C8_table_rounded_once_and_reused ppf_exemplo Np.exato
              matriz_default df_centavos [] Hwf Hne Hex)
    as (p & Hp & _ & Hcells & _ & Hdec & _ & _ & _ & _ & _ & _ & Hexcel & _
        & Hfull).
  exists p. split; [exact Hp|]. split; [exact Hexcel|].
  intros i r Hin.
  destruct (Hfull i r Hin) as [Hsel _].
  destruct (Hcells i r Hin) as (t & Ht & _ & Hvu & _).
  cbn [selecionar df_centavos In] in Hsel.
  destruct Hsel as [Heq|[]]. injection Heq as _ Hs.
  rewrite <- Hs in *. split; [reflexivity|].
  exists t. rewrite Hexcel. split; [exact Ht|].
  rewrite Hvu. cbn [sku_centavos col_Valor_Unit]. rewrite Hdec.
  pose proof limite_grande as HL.
  rewrite (@round2_exato_near 0.004 0%Z);
    [do 2 f_equal; lra | lra | apply Rabs_def1; lra].
Defined.
(* ================================================================== *)
(** * Further properties of the pass *)

(** X3.  The result and the table have one row for each selected row, in
    the same order and under the same index label; the result carries the
    input row unchanged and the table its text columns and the rounded
    safety stock.  A row is selected when its SKU is among the chosen SKUs,
    or when none is chosen. *)
Theorem X3_rows_and_labels_preserved ppf fl M (df : frame Sku)
        (skus : list string) :
  bem_formado df ->
  selecionar df skus <> [] ->
  sem_excecao fl (selecionar df skus) ->
  exists p,
    calcular ppf fl M df skus = Ok p /\
    map (fun ir => (fst ir, sku (calculo (snd ir)))) (resultado p)
    = selecionar df skus /\
    map (fun it => (fst it,
                    (t_Empresa (snd it), t_Classe (snd it), t_SKU (snd it),
                     t_Descricao_do_Material (snd it),
                     t_Criticidade (snd it), t_Curva (snd it))))
        (tabela p)
    = map (fun ir => (fst ir,
                      (Empresa (snd ir), Classe (snd ir), SKU (snd ir),
                       Descricao_do_Material (snd ir),
                       Criticidade (snd ir), Curva (snd ir))))
          (selecionar df skus) /\
    map (fun it => (fst it, t_SS_Calculado (snd it))) (tabela p)
    = map (fun ir => (fst ir, SS_Arredondado (calculo (snd ir)))) (resultado p) /\
    (forall i s, In (i, s) (selecionar df skus)
                 <-> In (i, s) df /\ (skus = [] \/ In (SKU s) skus)).
Proof.
  intros Hwf Hne Hex.
  exists (passe_de ppf fl M (selecionar df skus)). split.
  { now apply calcular_ok. }
  cbn [resultado tabela passe_de].
  unfold tabela_de, resultado_de, calculadas. rewrite !map_map.
  cbn [fst snd calculo derivar sku linha_calculada tabular t_Empresa t_Classe
       t_SKU t_Descricao_do_Material t_Criticidade t_Curva t_SS_Calculado
       SS_Arredondado].
  split; [|split; [|split]].
  - rewrite <- (map_id (selecionar df skus)) at 2.
    apply map_ext. now intros [i s].
  - reflexivity.
  - reflexivity.
  - intros i s. apply selecionar_In.
Qed.

Lemma X3_rows_preserved_witness :
  bem_formado df_curva_d
  /\ selecionar df_curva_d ["SKU-002"] <> []
  /\ sem_excecao Np.exato (selecionar df_curva_d ["SKU-002"])
  /\ exists p,
       calcular ppf_exemplo Np.exato matriz_default df_curva_d ["SKU-002"] = Ok p /\
       map (fun ir => (fst ir, sku (calculo (snd ir)))) (resultado p)
       = [(1%Z, sku_curva_d)].
Proof.
  assert (Hwf := df_curva_d_bem_formado).
  assert (Hne : selecionar df_curva_d ["SKU-002"] <> []) by discriminate.
  assert (Hex : sem_excecao Np.exato (selecionar df_curva_d ["SKU-002"])).
  { change (selecionar df_curva_d ["SKU-002"]) with [(1%Z, sku_curva_d)].
    frame_sem_excecao. }
  split; [exact Hwf|]. split; [exact Hne|]. split; [exact Hex|].
  destruct (@X3_rows_and_labels_preserved ppf_exemplo Np.exato matriz_default
              df_curva_d ["SKU-002"] Hwf Hne Hex) as (p & Hp & Hrows & _).
  exists p. split; [exact Hp|]. rewrite Hrows. reflexivity.
Defined.

(** X4.  The log holds one warning for each selected row whose pair is
    not in the matrix, in row order, and nothing else; it is empty exactly
    when every selected row is mapped. *)
Theorem X4_one_warning_per_unmapped_row ppf fl M (df : frame Sku)
        (skus : list string) :
  bem_formado df ->
  selecionar df skus <> [] ->
  sem_excecao fl (selecionar df skus) ->
  exists p,
    calcular ppf fl M df skus = Ok p /\
    avisos p
    = map (fun ir => aviso_nao_mapeada (SKU (snd ir)) (Criticidade (snd ir))
                                       (Curva (snd ir)))
          (filter (fun ir => negb (mapeado M (snd ir))) (selecionar df skus)) /\
    (avisos p = [] <->
     forall i s, In (i, s) (selecionar df skus) ->
                 In (Criticidade s) (Pd.index M) /\ In (Curva s) (Pd.columns M)).
Proof.
  intros Hwf Hne Hex.
  exists (passe_de ppf fl M (selecionar df skus)). split.
  { now apply calcular_ok. }
  cbn [avisos passe_de]. rewrite avisos_filter. split; [reflexivity|].
  split.
  - intros Hnil i s Hin. apply mapeado_In.
    destruct (mapeado M s) eqn:Hmap; [reflexivity|]. exfalso.
    assert (Hf : In (i, s) (filter (fun ir => negb (mapeado M (snd ir)))
                                   (selecionar df skus))).
    { apply filter_In. split; [assumption|]. cbn [snd]. now rewrite Hmap. }
    apply (in_map (fun ir => aviso_nao_mapeada (SKU (snd ir))
                               (Criticidade (snd ir)) (Curva (snd ir)))) in Hf.
    rewrite Hnil in Hf. contradiction.
  - intros Hall. rewrite filter_none; [reflexivity|].
    intros [i s] Hin. cbn [snd].
    apply Hall in Hin. apply mapeado_In in Hin. now rewrite Hin.
Qed.

Lemma X4_warnings_witness :
  bem_formado df_curva_d
  /\ selecionar df_curva_d [] <> []
  /\ sem_excecao Np.exato (selecionar df_curva_d [])
  /\ exists p,
       calcular ppf_exemplo Np.exato matriz_default df_curva_d [] = Ok p /\
       avisos p
       = ["SKU SKU-002: Criticidade 'X' ou Curva 'D' não mapeada. Usando default 95%."].
Proof.
  assert (Hwf := df_curva_d_bem_formado).
  assert (Hne : selecionar df_curva_d [] <> []) by discriminate.
  assert (Hex := df_curva_d_sem_excecao).
  split; [exact Hwf|]. split; [exact Hne|]. split; [exact Hex|].
  destruct (@X4_one_warning_per_unmapped_row ppf_exemplo Np.exato matriz_default
              df_curva_d [] Hwf Hne Hex) as (p & Hp & Hlog & _).
  exists p. split; [exact Hp|]. rewrite Hlog. reflexivity.
Defined.

(** X5.  Under the default matrix of line 120 every row is computed with
    level 95 and quantile ppf(0.95), whether or not its pair is in the
    matrix: the fallback of line 194 coincides with the default cell. *)
Theorem X5_default_matrix_gives_95_everywhere ppf fl (df : frame Sku)
        (skus : list string) :
  bem_formado df ->
  selecionar df skus <> [] ->
  sem_excecao fl (selecionar df skus) ->
  exists p,
    calcular ppf fl matriz_default df skus = Ok p /\
    forall i r, In (i, r) (resultado p) ->
      Nivel_de_Servico (calculo r) = 95%Z /\ z (calculo r) = ppf 0.95.
Proof.
  intros Hwf Hne Hex.
  exists (passe_de ppf fl matriz_default (selecionar df skus)). split.
  { now apply calcular_ok. }
  intros i r Hin. cbn [resultado passe_de] in Hin.
  apply In_resultado_de in Hin as [s [_ ->]].
  cbn [calculo derivar linha_calculada Nivel_de_Servico z].
  unfold nivel_de, z_de. destruct (mapeado matriz_default s).
  - cbn [Pd.data matriz_default]. split; [reflexivity | f_equal; lra].
  - split; reflexivity.
Qed.

Lemma X5_default_matrix_witness :
  bem_formado df_curva_d
  /\ selecionar df_curva_d [] <> []
  /\ sem_excecao Np.exato (selecionar df_curva_d [])
  /\ exists p,
       calcular ppf_exemplo Np.exato matriz_default df_curva_d [] = Ok p /\
       forall i r, In (i, r) (resultado p) ->
         Nivel_de_Servico (calculo r) = 95%Z /\ z (calculo r) = Fin 1.64485.
Proof.
  assert (Hwf := df_curva_d_bem_formado).
  assert (Hne : selecionar df_curva_d [] <> []) by discriminate.
  assert (Hex := df_curva_d_sem_excecao).
  split; [exact Hwf|]. split; [exact Hne|]. split; [exact Hex|].
  destruct (@X5_default_matrix_gives_95_everywhere ppf_exemplo Np.exato df_curva_d []
              Hwf Hne Hex) as (p & Hp & Hrows).
  exists p. split; [exact Hp|]. intros i r Hin.
  destruct (Hrows i r Hin) as [Hn Hz]. split; [exact Hn|].
  rewrite Hz. exact ppf_exemplo_95.
Defined.

(** X6.  When every cell of the matrix is within the bounds of the editor
    (50 to 99), so is the level stored in every row of the result and of
    the table, the fallback 95 included. *)
Theorem X6_level_within_editor_bounds ppf fl M (df : frame Sku)
        (skus : list string) :
  bem_formado df ->
  selecionar df skus <> [] ->
  sem_excecao fl (selecionar df skus) ->
  (forall r c, In r (Pd.index M) -> In c (Pd.columns M) ->
               (50 <= Pd.data M r c <= 99)%Z) ->
  exists p,
    calcular ppf fl M df skus = Ok p /\
    (forall i r, In (i, r) (resultado p) ->
                 (50 <= Nivel_de_Servico (calculo r) <= 99)%Z) /\
    (forall i t, In (i, t) (tabela p) ->
                 (50 <= t_Nivel_de_Servico t <= 99)%Z).
Proof.
  intros Hwf Hne Hex Hcells.
  exists (passe_de ppf fl M (selecionar df skus)). split.
  { now apply calcular_ok. }
  assert (Hniv : forall s, (50 <= nivel_de M s <= 99)%Z).
  { intros s. unfold nivel_de. destruct (mapeado M s) eqn:Hmap; [|lia].
    apply mapeado_In in Hmap as [Hr Hc]. now apply Hcells. }
  cbn [resultado tabela passe_de]. split.
  - intros i r Hin. apply In_resultado_de in Hin as [s [_ ->]].
    apply Hniv.
  - intros i t Hin. unfold tabela_de in Hin.
    apply in_map_iff in Hin as [[j r] [Heq Hin]]. cbn [fst snd] in Heq.
    injection Heq as -> <-.
    apply In_resultado_de in Hin as [s [_ ->]].
    apply Hniv.
Qed.

Lemma X6_level_bounds_witness :
  bem_formado df_curva_d
  /\ selecionar df_curva_d [] <> []
  /\ sem_excecao Np.exato (selecionar df_curva_d [])
  /\ (forall r c, In r (Pd.index matriz_98) -> In c (Pd.columns matriz_98) ->
                  (50 <= Pd.data matriz_98 r c <= 99)%Z)
  /\ exists p,
       calcular ppf_exemplo Np.exato matriz_98 df_curva_d [] = Ok p /\
       forall i r, In (i, r) (resultado p) ->
                   (50 <= Nivel_de_Servico (calculo r) <= 99)%Z.
Proof.
  assert (Hwf := df_curva_d_bem_formado).
  assert (Hne : selecionar df_curva_d [] <> []) by discriminate.
  assert (Hex := df_curva_d_sem_excecao).
  assert (Hcells : forall r c, In r (Pd.index matriz_98) ->
                               In c (Pd.columns matriz_98) ->
                               (50 <= Pd.data matriz_98 r c <= 99)%Z).
  { intros r c _ _. cbn [Pd.data matriz_98].
    destruct (String.eqb r "X" && String.eqb c "A")%bool; lia. }
  split; [exact Hwf|]. split; [exact Hne|]. split; [exact Hex|].
  split; [exact Hcells|].
  destruct (@X6_level_within_editor_bounds ppf_exemplo Np.exato matriz_98
              df_curva_d []
              Hwf Hne Hex Hcells) as (p & Hp & Hrows & _).
  exists p. split; [exact Hp | exact Hrows].
Defined.

(** ** Sums over the table *)







(** ** Margins and rounding of the stored safety stock *)



(** X14.  Where the raw safety stock is finite and its ceiling fits the
    int64 column, the rounded safety stock is never below the raw one and
    less than one unit above it. *)
Theorem X14_rounded_within_one_unit_above_raw ppf fl M (df : frame Sku)
        (skus : list string) :
  bem_formado df ->
  selecionar df skus <> [] ->
  sem_excecao fl (selecionar df skus) ->
  exists p,
    calcular ppf fl M df skus = Ok p /\
    forall i r raw, In (i, r) (resultado p) ->
      SS_Calculado (calculo r) = Fin raw ->
      (Np.int64_min <= Zceil raw <= Np.int64_max)%Z ->
      raw <= IZR (SS_Arredondado (calculo r)) < raw + 1.
Proof.
  intros Hwf Hne Hex.
  exists (passe_de ppf fl M (selecionar df skus)). split.
  { now apply calcular_ok. }
  intros i r raw Hin. cbn [resultado passe_de] in Hin.
  apply In_resultado_de in Hin as [s [_ ->]].
  cbn [calculo derivar linha_calculada SS_Calculado SS_Arredondado].
  intros Hraw Hfit. rewrite Hraw. now apply teto_armazenado.
Qed.

(** The record of whole numbers with radicand 1 and exact arithmetic: the
    raw safety stock is the quantile. *)
Lemma ss_centavos :
  ss_calc_de Np.exato (Fin 1.64485) sku_centavos = Fin 1.64485.
Proof.
  unfold ss_calc_de.
  rewrite (@raiz_inteira Np.exato sku_centavos 0 0 3 1
             eq_refl eq_refl eq_refl eq_refl).
  rewrite np_sqrt_Int by lia.
  replace ((0 + 1) * (1 * 1) + 3 * 3 * (0 * 0))%Z with 1%Z by reflexivity.
  cbn [Np.sqrt Np.rnd Np.exato]. rewrite Rgtb_false by lra. rewrite sqrt_1.
  pose proof limite_grande.
  rewrite fmul_sem_erro; [f_equal; lra | reflexivity | apply Rabs_def1; lra].
Qed.

Lemma X14_rounded_above_raw_witness :
  bem_formado df_centavos
  /\ selecionar df_centavos [] <> []
  /\ sem_excecao Np.exato (selecionar df_centavos [])
  /\ exists p,
       calcular ppf_exemplo Np.exato matriz_default df_centavos [] = Ok p /\
       forall i r, In (i, r) (resultado p) ->
         1.64485 <= IZR (SS_Arredondado (calculo r)) < 1.64485 + 1.
Proof.
  assert (Hwf := df_centavos_bem_formado).
  assert (Hne : selecionar df_centavos [] <> []) by discriminate.
  assert (Hex := df_centavos_sem_excecao).
  split; [exact Hwf|]. split; [exact Hne|]. split; [exact Hex|].
  destruct (@X14_rounded_within_one_unit_above_raw ppf_exemplo Np.exato
              matriz_default df_centavos [] Hwf Hne Hex) as (p & Hp & Hrows).
  exists p. split; [exact Hp|]. intros i r Hin.
  apply (Hrows i r 1.64485 Hin).
  - destruct (@calcular_inv ppf_exemplo Np.exato matriz_default df_centavos []
                p Hwf Hp) as (_ & _ & ->).
    cbn [resultado passe_de selecionar df_centavos resultado_de calculadas map
         fst snd In] in Hin.
    destruct Hin as [Heq|[]]. injection Heq as _ <-.
    cbn [calculo derivar linha_calculada SS_Calculado].
    rewrite z_exemplo_default. exact ss_centavos.
  - rewrite (Zceil_eq 2 1.64485) by lra.
    unfold Np.int64_min, Np.int64_max. lia.
Defined.




(* ================================================================== *)
(** * More on the summary matrices *)

(** X11.  The columns of the count matrix are the curves that occur among
    the selected rows, sorted and without duplicates, followed by 'Total'.
    The cell of the 'Total' row under each curve is the number of records
    of that curve, and these cells add up to the number of records of the
    pass. *)
Theorem X11_count_total_row_adds_up ppf fl M (df : frame Sku)
        (skus : list string) :
  bem_formado df ->
  selecionar df skus <> [] ->
  sem_excecao fl (selecionar df skus) ->
  exists p,
    calcular ppf fl M df skus = Ok p /\
    let curvas :=
      Pd.unique_sorted (map (fun ir => Curva (snd ir)) (selecionar df skus)) in
    Pd.columns (matriz_count p) = curvas ++ ["Total"]
    /\ NoDup (Pd.columns (matriz_count p))
    /\ Pd.index (matriz_count p) = ["X"; "Y"; "Z"; "Total"]
    /\ (forall v, In v curvas ->
          Pd.loc (matriz_count p) "Total" v
          = Some (Pd.Val (Z.of_nat (List.length
                            (Pd.group_c t_Curva v (map snd (tabela p)))))))
    /\ fold_right Z.add 0%Z
         (map (fun v => celula_ou_zero (Pd.loc (matriz_count p) "Total" v))
              curvas)
       = Z.of_nat (List.length (resultado p)).
Proof.
  intros Hwf Hne Hex.
  exists (passe_de ppf fl M (selecionar df skus)). split.
  { now apply calcular_ok. }
  apply (selecionar_bem_formado skus) in Hwf. destruct Hwf as (_ & Hup & _).
  set (sel := selecionar df skus) in *.
  cbn [matriz_count tabela resultado passe_de]. cbv zeta.
  set (tab := tabela_de ppf fl M sel).
  assert (Hcurvas : Pd.unique_sorted (map t_Curva (map snd tab))
                    = Pd.unique_sorted (map (fun ir => Curva (snd ir)) sel)).
  { unfold tab. now rewrite tabela_Curva. }
  assert (HnT : forall v, In v (Pd.unique_sorted (map t_Curva (map snd tab))) ->
                          String.eqb v "Total" = false).
  { intros v Hv. rewrite Hcurvas, In_unique_sorted in Hv.
    apply in_map_iff in Hv as [[i s] [<- Hin]]. cbn [snd].
    apply String.eqb_neq. apply str_upper_not_Total.
    rewrite Forall_forall in Hup. now destruct (Hup _ Hin) as [_ [Hv _]]. }
  destruct (@columns_fixar_eixos _ (pivot_count tab)
              (Pd.unique_sorted (map t_Curva (map snd tab))) eq_refl)
    as [Hcols Hidx].
  rewrite Hcols, Hidx. cbn [Pd.columns pivot_count Pd.margins_frame].
  rewrite <- Hcurvas.
  split; [reflexivity|]. split; [|split; [reflexivity|split]].
  - apply NoDup_app.
    + apply unique_sorted_NoDup.
    + repeat constructor. intros [].
    + intros v Hv [<-|[]]. apply HnT in Hv. discriminate Hv.
  - intros v Hv. unfold pivot_count.
    erewrite loc_fixar_eixos by (cbn [Pd.columns Pd.margins_frame]; reflexivity).
    change (Pd.isin "Total" ["X"; "Y"; "Z"; "Total"]) with true.
    cbn [Pd.columns Pd.index Pd.margins_frame andb Pd.data].
    rewrite isin_app. rewrite (proj2 (isin_In v _) Hv). cbn [orb].
    rewrite isin_last, String.eqb_refl, (HnT v Hv). now rewrite length_map.
  - rewrite (map_ext_in _ (fun v => Z.of_nat (List.length
                                      (Pd.group_c t_Curva v (map snd tab))))).
    2:{ intros v Hv. apply celula_total_eq. now apply HnT. }
    rewrite <- (map_map (fun v => List.length (Pd.group_c t_Curva v (map snd tab)))
                        Z.of_nat).
    rewrite fold_add_of_nat. f_equal. unfold Pd.group_c.
    rewrite count_by_labels by apply unique_sorted_NoDup.
    rewrite filter_all.
    + unfold tab. now rewrite length_map, tabela_de_length, resultado_de_length.
    + intros t Ht. apply isin_In. rewrite In_unique_sorted. now apply in_map.
Qed.

Lemma X11_count_total_row_witness :
  bem_formado df_curva_d
  /\ selecionar df_curva_d [] <> []
  /\ sem_excecao Np.exato (selecionar df_curva_d [])
  /\ exists p,
       calcular ppf_exemplo Np.exato matriz_default df_curva_d [] = Ok p /\
       Pd.columns (matriz_count p) = ["A"; "D"; "Total"] /\
       (celula_ou_zero (Pd.loc (matriz_count p) "Total" "A")
        + (celula_ou_zero (Pd.loc (matriz_count p) "Total" "D") + 0)
        = Z.of_nat (List.length (resultado p)))%Z.
Proof.
  assert (Hwf := df_curva_d_bem_formado).
  assert (Hne : selecionar df_curva_d [] <> []) by discriminate.
  assert (Hex := df_curva_d_sem_excecao).
  split; [exact Hwf|]. split; [exact Hne|]. split; [exact Hex|].
  destruct (@X11_count_total_row_adds_up ppf_exemplo Np.exato matriz_default
              df_curva_d [] Hwf Hne Hex) as (p & Hp & Hcols & _ & _ & _ & Hsum).
  exists p. split; [exact Hp|]. split; [exact Hcols | exact Hsum].
Defined.

(** X12.  When every selected record has its criticality in X, Y, Z, the
    cells X, Y and Z of each curve column of the count matrix (a NaN or an
    absent cell adding nothing) add up to the 'Total' cell of the
    column. *)
Theorem X12_count_columns_add_up_without_outsiders ppf fl M (df : frame Sku)
        (skus : list string) :
  bem_formado df ->
  selecionar df skus <> [] ->
  sem_excecao fl (selecionar df skus) ->
  (forall i s, In (i, s) (selecionar df skus) ->
               In (Criticidade s) ["X"; "Y"; "Z"]) ->
  exists p,
    calcular ppf fl M df skus = Ok p /\
    forall v, v <> "Total" ->
      (celula_ou_zero (Pd.loc (matriz_count p) "X" v)
       + celula_ou_zero (Pd.loc (matriz_count p) "Y" v)
       + celula_ou_zero (Pd.loc (matriz_count p) "Z" v)
       = celula_ou_zero (Pd.loc (matriz_count p) "Total" v))%Z.
Proof.
  intros Hwf Hne Hex Hxyz.
  exists (passe_de ppf fl M (selecionar df skus)). split.
  { now apply calcular_ok. }
  intros v Hv. apply String.eqb_neq in Hv.
  cbn [matriz_count passe_de].
  rewrite !celula_count_eq by (simpl; tauto).
  rewrite celula_total_eq by assumption.
  assert (Heq : n_xyz v (map snd (tabela_de ppf fl M (selecionar df skus)))
                = n_curva v (map snd (tabela_de ppf fl M (selecionar df skus)))).
  { apply n_xyz_eq. intros t Ht.
    unfold tabela_de, resultado_de, calculadas in Ht. rewrite !map_map in Ht.
    apply in_map_iff in Ht as [[i s] [<- Hin]]. cbn.
    now apply (Hxyz i s). }
  unfold n_xyz, n_curva in Heq. lia.
Qed.

Lemma X12_count_columns_witness :
  bem_formado df_curva_d
  /\ selecionar df_curva_d [] <> []
  /\ sem_excecao Np.exato (selecionar df_curva_d [])
  /\ (forall i s, In (i, s) (selecionar df_curva_d []) ->
                  In (Criticidade s) ["X"; "Y"; "Z"])
  /\ exists p,
       calcular ppf_exemplo Np.exato matriz_default df_curva_d [] = Ok p /\
       (celula_ou_zero (Pd.loc (matriz_count p) "X" "D")
        + celula_ou_zero (Pd.loc (matriz_count p) "Y" "D")
        + celula_ou_zero (Pd.loc (matriz_count p) "Z" "D")
        = celula_ou_zero (Pd.loc (matriz_count p) "Total" "D"))%Z.
Proof.
  assert (Hwf := df_curva_d_bem_formado).
  assert (Hne : selecionar df_curva_d [] <> []) by discriminate.
  assert (Hex := df_curva_d_sem_excecao).
  assert (Hxyz : forall i s, In (i, s) (selecionar df_curva_d []) ->
                             In (Criticidade s) ["X"; "Y"; "Z"]).
  { intros i s [Heq|[Heq|[]]]; injection Heq as _ <-; simpl; tauto. }
  split; [exact Hwf|]. split; [exact Hne|]. split; [exact Hex|].
  split; [exact Hxyz|].
  destruct (@X12_count_columns_add_up_without_outsiders ppf_exemplo Np.exato
              matriz_default df_curva_d [] Hwf Hne Hex Hxyz) as (p & Hp & Hsum).
  exists p. split; [exact Hp|]. apply Hsum. discriminate.
Defined.

(** X23.  For a criticality X, Y or Z that has records and a curve that
    has records, the cell of the value matrix is the sum and the cell of
    the count matrix the number over exactly the records of that pair (0
    when there is none); the cell of the coverage matrix is their mean,
    and 0 when there is none. *)
Theorem X23_cells_aggregate_their_group ppf fl M (df : frame Sku)
        (skus : list string) (c v : string) :
  bem_formado df ->
  sem_excecao fl (selecionar df skus) ->
  In c ["X"; "Y"; "Z"] ->
  (exists i s, In (i, s) (selecionar df skus) /\ Criticidade s = c) ->
  (exists i s, In (i, s) (selecionar df skus) /\ Curva s = v) ->
  exists p,
    calcular ppf fl M df skus = Ok p /\
    let grupo :=
      Pd.group_rc t_Criticidade t_Curva c v (map snd (tabela p)) in
    Pd.loc (matriz_valor p) c v
    = Some (Pd.Val (Np.sum (map t_Valor_SS_Calculado grupo)))
    /\ Pd.loc (matriz_count p) c v
       = Some (Pd.Val (Z.of_nat (List.length grupo)))
    /\ Pd.loc (matriz_cobertura p) c v
       = Some (Pd.Val (match grupo with
                       | [] => Fin 0
                       | _ => Np.mean (map t_Cobertura_Calculada grupo)
                       end)).
Proof.
  intros Hwf Hex Hc [ic [sc [Hinc Hcrit]]] [iv [sv [Hinv Hcur]]].
  assert (Hne : selecionar df skus <> []).
  { intros Hnil. rewrite Hnil in Hinc. contradiction. }
  exists (passe_de ppf fl M (selecionar df skus)). split.
  { now apply calcular_ok. }
  apply (selecionar_bem_formado skus) in Hwf. destruct Hwf as (_ & Hup & _).
  set (sel := selecionar df skus) in *.
  assert (HvT : String.eqb v "Total" = false).
  { apply String.eqb_neq. rewrite Forall_forall in Hup.
    destruct (Hup _ Hinv) as [_ [Hv _]]. cbn [snd] in Hv.
    rewrite <- Hcur. now apply str_upper_not_Total. }
  set (tc := tabular fl (derivar fl (linha_calculada ppf fl M sc))).
  set (tv := tabular fl (derivar fl (linha_calculada ppf fl M sv))).
  assert (Hrow : Pd.isin c (Pd.unique_sorted
                   (map t_Criticidade (map snd (tabela_de ppf fl M sel)))
                 ++ ["Total"]) = true).
  { rewrite <- Hcrit.
    apply (isin_label_present t_Criticidade _ tc).
    now apply (In_tabela_de ppf fl M sel ic). }
  assert (Hcol : Pd.isin v (Pd.unique_sorted
                   (map t_Curva (map snd (tabela_de ppf fl M sel)))
                 ++ ["Total"]) = true).
  { rewrite <- Hcur.
    apply (isin_label_present t_Curva _ tv).
    now apply (In_tabela_de ppf fl M sel iv). }
  cbn [matriz_valor matriz_cobertura matriz_count tabela passe_de]. cbv zeta.
  unfold pivot_valor, pivot_cobertura, pivot_count.
  repeat split;
    (erewrite loc_fixar_eixos by (cbn [Pd.columns Pd.margins_frame]; reflexivity);
     cbn [Pd.columns Pd.index Pd.margins_frame Pd.data];
     rewrite Hrow, Hcol, (XYZ_isin Hc), (XYZ_not_Total Hc), HvT;
     unfold Pd.pivot_cell;
     destruct (Pd.group_rc t_Criticidade t_Curva c v
                 (map snd (tabela_de ppf fl M sel)));
     rewrite ?length_map; reflexivity).
Qed.

Lemma X23_cells_witness :
  bem_formado df_duas_classes
  /\ sem_excecao Np.exato (selecionar df_duas_classes [])
  /\ In "X" ["X"; "Y"; "Z"]
  /\ exists p,
       calcular ppf_exemplo Np.exato matriz_default df_duas_classes [] = Ok p /\
       Pd.loc (matriz_count p) "X" "C" = Some (Pd.Val 0%Z)
       /\ Pd.loc (matriz_valor p) "X" "C" = Some (Pd.Val (Fin 0))
       /\ Pd.loc (matriz_cobertura p) "X" "C" = Some (Pd.Val (Fin 0)).
Proof.
  assert (Hwf := df_duas_classes_bem_formado).
  assert (Hex := df_duas_classes_sem_excecao).
  assert (Hx : In "X" ["X"; "Y"; "Z"]) by (simpl; tauto).
  split; [exact Hwf|]. split; [exact Hex|]. split; [exact Hx|].
  destruct (@X23_cells_aggregate_their_group ppf_exemplo Np.exato
              matriz_default df_duas_classes [] "X" "C" Hwf Hex Hx)
    as (p & Hp & Hv & Hn & Hm).
  - exists 0%Z, sku_exemplo. split; [now left | reflexivity].
  - exists 1%Z, sku_constante. split; [right; now left | reflexivity].
  - assert (Hne : selecionar df_duas_classes [] <> []) by discriminate.
    destruct (@calcular_inv _ _ _ _ _ _ Hwf Hp) as (_ & _ & Heq). subst p.
    eexists. split; [exact Hp|].
    split; [|split].
    + rewrite Hn. reflexivity.
    + rewrite Hv. reflexivity.
    + rewrite Hm. reflexivity.
Defined.

(** X24.  For a criticality X, Y or Z that has records, the 'Total'
    column of its row is the sum, the mean and the count over all records
    of that criticality.  For one that has no record, every cell of its
    row is NaN in the three matrices. *)
Theorem X24_row_margin_or_nan_row ppf fl M (df : frame Sku) (skus : list string)
        (c : string) :
  bem_formado df ->
  selecionar df skus <> [] ->
  sem_excecao fl (selecionar df skus) ->
  In c ["X"; "Y"; "Z"] ->
  exists p,
    calcular ppf fl M df skus = Ok p /\
    let da_criticidade := Pd.group_r t_Criticidade c (map snd (tabela p)) in
    ((exists i s, In (i, s) (selecionar df skus) /\ Criticidade s = c) ->
     Pd.loc (matriz_valor p) c "Total"
     = Some (Pd.Val (Np.sum (map t_Valor_SS_Calculado da_criticidade)))
     /\ Pd.loc (matriz_cobertura p) c "Total"
        = Some (Pd.Val (Np.mean (map t_Cobertura_Calculada da_criticidade)))
     /\ Pd.loc (matriz_count p) c "Total"
        = Some (Pd.Val (Z.of_nat (List.length da_criticidade))))
    /\ ((forall i s, In (i, s) (selecionar df skus) -> Criticidade s <> c) ->
        forall v, In v (Pd.columns (matriz_count p)) ->
          Pd.loc (matriz_valor p) c v = Some Pd.NA
          /\ Pd.loc (matriz_cobertura p) c v = Some Pd.NA
          /\ Pd.loc (matriz_count p) c v = Some Pd.NA).
Proof.
  intros Hwf Hne Hex Hc.
  exists (passe_de ppf fl M (selecionar df skus)). split.
  { now apply calcular_ok. }
  set (sel := selecionar df skus) in *.
  cbn [matriz_valor matriz_cobertura matriz_count tabela passe_de]. cbv zeta.
  split.
  - intros [ic [sc [Hinc Hcrit]]].
    assert (Hrow : Pd.isin c (Pd.unique_sorted
                     (map t_Criticidade (map snd (tabela_de ppf fl M sel)))
                   ++ ["Total"]) = true).
    { rewrite <- Hcrit.
      apply (isin_label_present t_Criticidade _
               (tabular fl (derivar fl (linha_calculada ppf fl M sc)))).
      now apply (In_tabela_de ppf fl M sel ic). }
    unfold pivot_valor, pivot_cobertura, pivot_count.
    repeat split;
      (erewrite loc_fixar_eixos by (cbn [Pd.columns Pd.margins_frame]; reflexivity);
       cbn [Pd.columns Pd.index Pd.margins_frame Pd.data];
       rewrite Hrow, isin_last, (XYZ_isin Hc), (XYZ_not_Total Hc),
         String.eqb_refl;
       rewrite ?length_map; reflexivity).
  - intros Hnone v Hv.
    assert (Hrow : Pd.isin c (Pd.unique_sorted
                     (map t_Criticidade (map snd (tabela_de ppf fl M sel)))
                   ++ ["Total"]) = false).
    { apply isin_label_absent.
      - apply String.eqb_neq. now apply XYZ_not_Total.
      - intros t Ht. unfold tabela_de, resultado_de, calculadas in Ht.
        rewrite !map_map in Ht. apply in_map_iff in Ht as [[i s] [<- Hin]].
        cbn. now apply (Hnone i s). }
    destruct (@columns_fixar_eixos _ (pivot_count (tabela_de ppf fl M sel))
                (Pd.unique_sorted (map t_Curva (map snd (tabela_de ppf fl M sel))))
                eq_refl) as [Hcols _].
    rewrite Hcols in Hv. cbn [Pd.columns pivot_count Pd.margins_frame] in Hv.
    apply isin_In in Hv.
    unfold pivot_valor, pivot_cobertura, pivot_count.
    repeat split;
      (erewrite loc_fixar_eixos by (cbn [Pd.columns Pd.margins_frame]; reflexivity);
       cbn [Pd.columns Pd.index Pd.margins_frame Pd.data];
       rewrite Hrow, Hv, (XYZ_isin Hc); reflexivity).
Qed.

Lemma X24_row_margin_witness :
  bem_formado df_duas_classes
  /\ selecionar df_duas_classes [] <> []
  /\ sem_excecao Np.exato (selecionar df_duas_classes [])
  /\ exists p,
       calcular ppf_exemplo Np.exato matriz_default df_duas_classes [] = Ok p /\
       Pd.loc (matriz_count p) "X" "Total" = Some (Pd.Val 1%Z)
       /\ Pd.loc (matriz_count p) "Y" "Total" = Some Pd.NA.
Proof.
  assert (Hwf := df_duas_classes_bem_formado).
  assert (Hne : selecionar df_duas_classes [] <> []) by discriminate.
  assert (Hex := df_duas_classes_sem_excecao).
  split; [exact Hwf|]. split; [exact Hne|]. split; [exact Hex|].
  destruct (@X24_row_margin_or_nan_row ppf_exemplo Np.exato matriz_default
              df_duas_classes [] "X" Hwf Hne Hex ltac:(simpl; tauto))
    as (p & Hp & Hx & _).
  destruct (@X24_row_margin_or_nan_row ppf_exemplo Np.exato matriz_default
              df_duas_classes [] "Y" Hwf Hne Hex ltac:(simpl; tauto))
    as (p' & Hp' & _ & Hy).
  destruct (@calcular_inv _ _ _ _ _ _ Hwf Hp) as (_ & _ & Heq). subst p.
  destruct (@calcular_inv _ _ _ _ _ _ Hwf Hp') as (_ & _ & Heq). subst p'.
  eexists. split; [exact Hp|]. split.
  - destruct Hx as (_ & _ & Hn).
    + exists 0%Z, sku_exemplo. split; [now left | reflexivity].
    + rewrite Hn. reflexivity.
  - destruct (Hy ltac:(intros i s [H|[H|[]]]; injection H as _ <-; discriminate)
                "Total") as (_ & _ & Hn).
    + right. right. now left.
    + exact Hn.
Defined.
(* ================================================================== *)
(** * Outcomes of the pass, coverage and filters *)

(** The pass stops only on an empty selection. *)
Lemma calcular_nao_para ppf fl M (df : frame Sku) (skus : list string) :
  bem_formado df -> selecionar df skus <> [] ->
  calcular ppf fl M df skus <> Stop.
Proof.
  intros Hwf Hne Hstop. rewrite calcular_eq in Hstop by assumption.
  destruct (verificar_casos fl (selecionar df skus)) as [Hv|[Hv|Hv]];
    rewrite Hv in Hstop; cbn [bind] in Hstop; try discriminate.
  destruct (forallb (fun ir => tem_colunas (snd ir)) (selecionar df skus));
    discriminate.
Qed.

(** X1.  On a well-formed frame the pass stops exactly when no row is
    selected; it completes exactly when a row is selected and nothing
    raises in the loop and at line 226; and an exception it raises is the
    OverflowError of a square, the TypeError of [np.sqrt] or the KeyError
    of line 226, the KeyError only after a loop that raised nothing. *)
Theorem X1_outcomes_of_the_pass ppf fl M (df : frame Sku)
        (skus : list string) :
  bem_formado df ->
  (selecionar df skus = [] <-> calcular ppf fl M df skus = Stop)
  /\ (selecionar df skus <> [] /\ sem_excecao fl (selecionar df skus)
      <-> exists p, calcular ppf fl M df skus = Ok p)
  /\ (forall e, calcular ppf fl M df skus = Raise e ->
        selecionar df skus <> []
        /\ ~ sem_excecao fl (selecionar df skus)
        /\ ((e = "OverflowError" \/ e = "TypeError")
            /\ verificar fl (selecionar df skus) = Raise e
            \/ e = "KeyError"
               /\ verificar fl (selecionar df skus) = Ok tt
               /\ exists i s, In (i, s) (selecionar df skus)
                              /\ tem_colunas s = false)).
Proof.
  intros Hwf.
  destruct (selecionar df skus) as [|ir sel] eqn:Hsel.
  - pose proof (calcular_stop ppf fl M df skus Hsel) as Hstop.
    rewrite Hstop. split; [tauto|]. split.
    + split; [intros [H _]; congruence | intros [p Hp]; discriminate Hp].
    + intros e He. discriminate He.
  - assert (Hne : selecionar df skus <> []) by (rewrite Hsel; discriminate).
    rewrite <- Hsel in *. clear Hsel ir sel.
    split; [|split].
    + split; [contradiction|]. intros Hstop.
      now apply (@calcular_nao_para ppf fl M df skus Hwf Hne) in Hstop.
    + split.
      * intros [_ Hex]. eexists. now apply calcular_ok.
      * intros [p Hp].
        destruct (@calcular_inv ppf fl M df skus p Hwf Hp) as (H1 & H2 & _).
        now split.
    + intros e He. split; [exact Hne|].
      assert (Hnex : ~ sem_excecao fl (selecionar df skus)).
      { intros Hex. rewrite (calcular_ok ppf M skus Hwf Hne Hex) in He.
        discriminate He. }
      split; [exact Hnex|].
      rewrite calcular_eq in He by assumption.
      destruct (verificar_casos fl (selecionar df skus)) as [Hv|[Hv|Hv]];
        rewrite Hv in He |- *; cbn [bind] in He.
      * right.
        destruct (forallb (fun ir => tem_colunas (snd ir)) (selecionar df skus))
          eqn:Hc; [discriminate|].
        injection He as <-. split; [reflexivity|]. split; [reflexivity|].
        assert (Hex : exists ir, In ir (selecionar df skus)
                                 /\ tem_colunas (snd ir) = false).
        { clear - Hc. induction (selecionar df skus) as [|a l IH];
            [discriminate|].
          cbn [forallb] in Hc. apply andb_false_iff in Hc as [Ha|Hl].
          - exists a. split; [now left | exact Ha].
          - destruct (IH Hl) as (ir & Hin & Hf). exists ir.
            split; [now right | exact Hf]. }
        destruct Hex as ([i s] & Hin & Hf). now exists i, s.
      * left. injection He as <-. split; [now left | reflexivity].
      * left. injection He as <-. split; [now right | reflexivity].
Qed.

Lemma X1_outcomes_witness :
  bem_formado df_curva_d
  /\ calcular ppf_exemplo Np.exato matriz_default df_curva_d ["SKU-999"] = Stop
  /\ (exists p,
        calcular ppf_exemplo Np.exato matriz_default df_curva_d ["SKU-002"]
        = Ok p).
Proof.
  assert (Hwf := df_curva_d_bem_formado).
  split; [exact Hwf|]. split.
  - apply (proj1 (@X1_outcomes_of_the_pass ppf_exemplo Np.exato matriz_default
                    df_curva_d ["SKU-999"] Hwf)).
    reflexivity.
  - apply (proj1 (proj2 (@X1_outcomes_of_the_pass ppf_exemplo Np.exato
                           matriz_default df_curva_d ["SKU-002"] Hwf))).
    split; [discriminate|].
    change (selecionar df_curva_d ["SKU-002"]) with [(1%Z, sku_curva_d)].
    frame_sem_excecao.
Defined.

(** Coverage where nothing is rounded and nothing overflows. *)
Lemma fdiv_sem_erro fl (x y : R) :
  (forall u, Np.rnd fl u = u) -> y <> 0 -> Rabs (x / y) < Np.limite ->
  Np.fdiv fl (Fin x) (Fin y) = Fin (x / y).
Proof.
  intros Hid Hy Hlim. cbn [Np.fdiv]. rewrite Reqb_false by assumption.
  rewrite arredondar_finito by assumption. now rewrite Hid.
Qed.

(** X2.  When nothing raises, every selected record has its row in the
    result.  With a mean consumption that is not positive both coverages
    are exactly 0; with a positive one they are the float quotients of
    the current and of the rounded safety stock by it: the real quotients
    where nothing is rounded and nothing overflows. *)
Theorem X2_coverage_in_months ppf fl M (df : frame Sku) (skus : list string) :
  bem_formado df ->
  selecionar df skus <> [] ->
  sem_excecao fl (selecionar df skus) ->
  exists p,
    calcular ppf fl M df skus = Ok p /\
    forall i s, In (i, s) (selecionar df skus) ->
      exists r,
        In (i, r) (resultado p)
        /\ sku (calculo r) = s
        /\ let consumo := Consumo_Medio_Mensal s in
           let rounded := SS_Arredondado (calculo r) in
           (~ 0 < consumo ->
            Cobertura_Atual_Meses r = Fin 0
            /\ Cobertura_Calculada_Meses r = Fin 0)
           /\ (0 < consumo ->
               Cobertura_Atual_Meses r
               = Np.fdiv fl (flutuante fl (col_Estoque_de_Seguranca s))
                            (flutuante fl (col_Consumo_Medio_Mensal s))
               /\ Cobertura_Calculada_Meses r
                  = Np.fdiv fl (Np.of_int fl rounded)
                               (flutuante fl (col_Consumo_Medio_Mensal s))
               /\ ((forall x, Np.rnd fl x = x) ->
                   Rabs (Estoque_de_Seguranca s / consumo) < Np.limite ->
                   Rabs (IZR rounded / consumo) < Np.limite ->
                   Cobertura_Atual_Meses r
                   = Fin (Estoque_de_Seguranca s / consumo)
                   /\ Cobertura_Calculada_Meses r
                      = Fin (IZR rounded / consumo))).
Proof.
  intros Hwf Hne Hex.
  exists (passe_de ppf fl M (selecionar df skus)). split.
  { now apply calcular_ok. }
  intros i s Hin. exists (derivar fl (linha_calculada ppf fl M s)).
  split; [now apply resultado_de_In|]. split; [reflexivity|].
  cbn [calculo derivar sku linha_calculada Cobertura_Atual_Meses
       Cobertura_Calculada_Meses SS_Arredondado].
  split.
  - intros Hnpos. rewrite Rgtb_false by assumption. now split.
  - intros Hpos. rewrite Rgtb_true by assumption. cbn [Np.where_].
    split; [reflexivity|]. split; [reflexivity|].
    intros Hid H1 H2.
    rewrite of_int_sem_erro, !flutuante_sem_erro by assumption.
    unfold Estoque_de_Seguranca, Consumo_Medio_Mensal in *.
    split; apply fdiv_sem_erro; try assumption; lra.
Qed.

(** The record of the overflow sheet has no consumption: both coverages
    are 0. *)
Lemma X2_coverage_witness :
  bem_formado df_transbordo
  /\ selecionar df_transbordo [] <> []
  /\ sem_excecao Np.exato (selecionar df_transbordo [])
  /\ exists p,
       calcular ppf_exemplo Np.exato matriz_default df_transbordo [] = Ok p /\
       exists r, In (0%Z, r) (resultado p)
                 /\ sku (calculo r) = sku_transbordo
                 /\ Cobertura_Atual_Meses r = Fin 0
                 /\ Cobertura_Calculada_Meses r = Fin 0.
Proof.
  assert (Hwf := df_transbordo_bem_formado).
  assert (Hne : selecionar df_transbordo [] <> []) by discriminate.
  assert (Hex := df_transbordo_sem_excecao Np.exato).
  split; [exact Hwf|]. split; [exact Hne|]. split; [exact Hex|].
  destruct (@X2_coverage_in_months ppf_exemplo Np.exato matriz_default
              df_transbordo [] Hwf Hne Hex) as (p & Hp & Hrows).
  exists p. split; [exact Hp|].
  destruct (Hrows 0%Z sku_transbordo (or_introl eq_refl))
    as (r & Hin & Hs & Hzero & _).
  exists r. split; [exact Hin|]. split; [exact Hs|].
  apply Hzero. cbv [Consumo_Medio_Mensal valor col_Consumo_Medio_Mensal
                    sku_transbordo]. lra.
Defined.

(** X17.  With the default choice of the company multiselect (every
    company of the sheet) and no search text, the filters keep every row
    of the frame, in order. *)
Theorem X17_default_filters_keep_every_row
        (buscar : string -> frame Sku -> outcome (frame Sku))
        (df : frame Sku) :
  filtrar buscar df (opcoes Empresa df) "" = Ok df.
Proof.
  unfold filtrar. rewrite filter_all; [reflexivity|].
  intros ir Hin. apply isin_In. unfold opcoes.
  rewrite In_unique_sorted. apply in_map_iff. now exists ir.
Qed.

(** X19.  The SKU multiselect only offers SKUs of the filtered frame.
    With such a choice (the empty one included) a chosen SKU never empties
    the selection: the pass on a well-formed filtered frame stops exactly
    when that frame has no rows, and completes on a frame with rows when
    nothing raises in the loop and at line 226. *)
Theorem X19_offered_skus_never_empty_the_selection ppf fl M (d : frame Sku)
        (skus : list string) :
  bem_formado d ->
  (forall k, In k skus -> In k (opcoes SKU d)) ->
  (d <> [] -> selecionar d skus <> [])
  /\ (calcular ppf fl M d skus = Stop <-> d = [])
  /\ (d <> [] -> sem_excecao fl (selecionar d skus) ->
      exists p, calcular ppf fl M d skus = Ok p).
Proof.
  intros Hwf Hoffered.
  assert (Hsel : d <> [] -> selecionar d skus <> []).
  { intros Hd. destruct skus as [|k skus]; [exact Hd|].
    assert (Hk : In k (opcoes SKU d)) by (apply Hoffered; now left).
    unfold opcoes in Hk. rewrite In_unique_sorted in Hk.
    apply in_map_iff in Hk as [[i s] [Hs Hin]]. cbn [snd] in Hs.
    intros Hnil.
    assert (Hin' : In (i, s) (selecionar d (k :: skus))).
    { apply selecionar_In. split; [assumption|]. right. rewrite Hs. now left. }
    rewrite Hnil in Hin'. contradiction. }
  split; [exact Hsel|]. split; [split|].
  - intros Hstop. destruct d as [|ir d']; [reflexivity|]. exfalso.
    assert (Hne : selecionar (ir :: d') skus <> []) by (apply Hsel; discriminate).
    exact (@calcular_nao_para ppf fl M (ir :: d') skus Hwf Hne Hstop).
  - intros ->. apply calcular_stop. unfold selecionar.
    destruct skus; reflexivity.
  - intros Hd Hex. eexists. apply calcular_ok; [assumption | now apply Hsel
                                               | assumption].
Qed.

Lemma X19_offered_skus_witness :
  bem_formado df_curva_d
  /\ (forall k, In k ["SKU-002"] -> In k (opcoes SKU df_curva_d))
  /\ selecionar df_curva_d ["SKU-002"] <> [].
Proof.
  assert (Hwf := df_curva_d_bem_formado).
  assert (Hoff : forall k, In k ["SKU-002"] -> In k (opcoes SKU df_curva_d)).
  { intros k [<-|[]]. right. now left. }
  split; [exact Hwf|]. split; [exact Hoff|].
  apply (proj1 (@X19_offered_skus_never_empty_the_selection ppf_exemplo
                  Np.exato matriz_default df_curva_d ["SKU-002"] Hwf Hoff)).
  discriminate.
Defined.
(* ================================================================== *)
(** * Properties of the preparation of the sheet *)

Section PropriedadesDaPreparacao.

Context {celula : Type}.
Variable strip : string -> string.

Lemma aplicar_headers (f : list celula -> list celula) (col : string)
      (df : planilha celula) :
  map fst (aplicar f col df) = map fst df.
Proof.
  unfold aplicar. rewrite map_map. apply map_ext.
  intros [h cells]. cbn [fst]. now destruct (String.eqb h col).
Qed.

Lemma fold_aplicar_headers (f : list celula -> list celula)
      (cols : list string) :
  forall df : planilha celula,
    map fst (fold_left (fun d c => aplicar f c d) cols df) = map fst df.
Proof.
  induction cols as [|c cols IH]; intros df; [reflexivity|].
  cbn [fold_left]. now rewrite IH, aplicar_headers.
Qed.

(** A conversion loop whose columns all occur once runs to its end. *)
Lemma converter_completo (f : list celula -> list celula) (exn : string)
      (cols : list string) :
  forall (df : planilha celula) erros,
    (forall c, In c cols -> count_occ string_dec (map fst df) c = 1%nat) ->
    converter f exn cols (df, erros)
    = (Ok (fold_left (fun d c => aplicar f c d) cols df), erros).
Proof.
  induction cols as [|c cols IH]; intros df erros Hall; [reflexivity|].
  cbn [converter fst snd fold_left].
  rewrite (Hall c (or_introl eq_refl)).
  apply IH. intros b Hb. rewrite aplicar_headers. apply Hall. now right.
Qed.

(** A conversion loop stops at the first column that is absent. *)
Lemma converter_ausente (f : list celula -> list celula) (exn : string)
      (antes depois : list string) (c : string) :
  forall (df : planilha celula) erros,
    (forall b, In b antes -> count_occ string_dec (map fst df) b = 1%nat) ->
    ~ In c (map fst df) ->
    converter f exn (antes ++ c :: depois) (df, erros)
    = (Stop, erros ++ [("Coluna obrigatória ausente: " ++ c)%string]).
Proof.
  induction antes as [|b antes IH]; intros df erros Hall Habs.
  - cbn [app converter fst snd].
    now rewrite (proj1 (count_occ_not_In string_dec _ _) Habs).
  - cbn [app converter fst snd].
    rewrite (Hall b (or_introl eq_refl)).
    apply IH.
    + intros a Ha. rewrite aplicar_headers. apply Hall. now right.
    + now rewrite aplicar_headers.
Qed.

Lemma limpar_cabecalhos_headers (df : planilha celula) :
  map fst (limpar_cabecalhos strip df) = map (fun hc => strip (fst hc)) df.
Proof. unfold limpar_cabecalhos. now rewrite map_map. Qed.

End PropriedadesDaPreparacao.

(** X20.  A required column that is absent once the headers are stripped
    stops the script before any calculation: the first one that is
    missing, in the order of the numeric columns and then the text
    columns, is the one named in the single error message shown,
    whatever the cells hold and the conversions do. *)
Theorem X20_first_missing_column_stops {celula : Type}
        (strip : string -> string)
        (to_numeric astype_str_upper : list celula -> list celula)
        (df : planilha celula) (antes depois : list string) (c : string) :
  num_cols ++ str_cols = antes ++ c :: depois ->
  (forall b, In b antes ->
             count_occ string_dec (map (fun hc => strip (fst hc)) df) b
             = 1%nat) ->
  ~ In c (map (fun hc => strip (fst hc)) df) ->
  preparar strip to_numeric astype_str_upper df
  = (Stop, [("Coluna obrigatória ausente: " ++ c)%string]).
Proof.
  intros Hsplit Hall Habs.
  rewrite <- (limpar_cabecalhos_headers strip) in Hall, Habs.
  unfold preparar.
  destruct (app_eq_app _ _ _ _ Hsplit) as [l [[Hnum Hrest]|[Hantes Hstr]]].
  - destruct l as [|c' l].
    + rewrite app_nil_r in Hnum. cbn [app] in Hrest. subst antes.
      rewrite converter_completo by assumption.
      rewrite <- Hrest.
      rewrite (converter_ausente _ _ [] depois c); [reflexivity| |].
      * intros b [].
      * now rewrite fold_aplicar_headers.
    + cbn [app] in Hrest. injection Hrest as <- _.
      rewrite Hnum.
      now rewrite (converter_ausente _ _ antes l c).
  - subst antes. rewrite converter_completo
      by (intros b Hb; apply Hall; apply in_or_app; now left).
    rewrite Hstr.
    rewrite (converter_ausente _ _ l depois c); [reflexivity| |].
    + intros b Hb. rewrite fold_aplicar_headers. apply Hall.
      apply in_or_app; now right.
    + now rewrite fold_aplicar_headers.
Qed.

(** The sheet without 'Curva', whose headers have no white space to
    strip: the script stops on that column. *)
Lemma X20_missing_column_witness :
  num_cols ++ str_cols = (num_cols ++ ["Criticidade"]) ++ "Curva" :: ["SKU"]
  /\ preparar (fun h => h) (fun col => col) (fun col => col) planilha_sem_curva
     = (Stop, ["Coluna obrigatória ausente: Curva"]).
Proof.
  split; [reflexivity|].
  apply (@X20_first_missing_column_stops string (fun h => h) (fun col => col)
           (fun col => col) planilha_sem_curva (num_cols ++ ["Criticidade"])
           ["SKU"] "Curva").
  - reflexivity.
  - intros b Hb. cbn [num_cols app In] in Hb.
    repeat (destruct Hb as [<-|Hb]; [reflexivity|]). contradiction.
  - cbn. intuition discriminate.
Defined.
(* ================================================================== *)
(** * Monotonicity and differences *)

Lemma arredondar_Fin fl (x v : R) :
  Np.arredondar fl x = Fin v -> Rabs x < Np.limite /\ v = Np.rnd fl x.
Proof.
  intros H.
  destruct (arredondar_casos fl x) as [[Hlim Heq]|[[_ Heq]|[_ Heq]]];
    rewrite Heq in H; try discriminate.
  injection H as <-. now split.
Qed.

(** Within the int64 range int64 arithmetic is exact. *)
Lemma wrap64_id (n : Z) :
  (Np.int64_min <= n <= Np.int64_max)%Z -> Np.wrap64 n = n.
Proof.
  unfold Np.int64_min, Np.int64_max, Np.wrap64. intros H.
  rewrite Z.mod_small by lia. lia.
Qed.

(** The raw and the rounded safety stock of one row under two quantiles
    0 <= z1 <= z2, when the larger raw value is finite and fits the int64
    column. *)
Lemma ss_monotono fl (z1 z2 raw2 : R) (raiz : float64) :
  0 <= z1 <= z2 ->
  (exists r, raiz = Fin r /\ 0 <= r) \/ raiz = PInf ->
  Np.fmul fl (Fin z2) raiz = Fin raw2 ->
  raw2 <= IZR Np.int64_max ->
  exists raw1,
    Np.fmul fl (Fin z1) raiz = Fin raw1
    /\ 0 <= raw1 <= raw2
    /\ (0 <= Np.astype_int (Np.ceil (Fin raw1))
        <= Np.astype_int (Np.ceil (Fin raw2)))%Z.
Proof.
  intros Hz [[r [-> Hr]]| ->] H2 Hfit.
  - cbn [Np.fmul] in *. apply arredondar_Fin in H2 as [Hlim ->].
    pose proof limite_pos as HL. apply Rabs_def2 in Hlim as [Hhi Hlo].
    assert (H1 : 0 <= z1 * r <= z2 * r) by (split; nra).
    rewrite arredondar_finito by (apply Rabs_def1; lra).
    eexists. split; [reflexivity|].
    assert (Hr1 : 0 <= Np.rnd fl (z1 * r)) by (apply rnd_nonneg; lra).
    assert (Hr12 : Np.rnd fl (z1 * r) <= Np.rnd fl (z2 * r))
      by (apply Np.rnd_mono; lra).
    split; [lra|].
    assert (Hc2 : (Np.int64_min <= Zceil (Np.rnd fl (z2 * r))
                   <= Np.int64_max)%Z).
    { split.
      - assert (H0 : 0 <= Np.rnd fl (z2 * r)) by lra.
        pose proof (Zceil_nonneg H0). unfold Np.int64_min. lia.
      - now apply Zceil_fits. }
    pose proof (Zceil_le _ _ Hr12) as Hle.
    pose proof (Zceil_nonneg Hr1) as H0.
    assert (Hc1 : (Np.int64_min <= Zceil (Np.rnd fl (z1 * r))
                   <= Np.int64_max)%Z)
      by (unfold Np.int64_min in *; lia).
    rewrite (@astype_int_ceil _ Hc1), (@astype_int_ceil _ Hc2). lia.
  - cbn [Np.fmul Np.mul] in H2. unfold Np.scale_inf in H2.
    destruct (Np.Rgtb z2 0); [discriminate|].
    destruct (Np.Rgtb 0 z2); discriminate.
Qed.

(** X15.  Two passes over the same selection with different matrices give
    rows for the same records.  For a record whose lead time is at least
    -1, if the quantiles are finite with 0 <= z1 <= z2 and the larger raw
    safety stock is finite and fits the int64 column, the raw and the
    rounded safety stock do not decrease from the first pass to the
    second; neither does the value of the stock at a non-negative unit
    value, as long as the larger value is finite (float column) or fits
    an int64 (int64 column). *)
Theorem X15_larger_quantile_never_lowers_stock ppf fl M1 M2 (df : frame Sku)
        (skus : list string) :
  bem_formado df ->
  selecionar df skus <> [] ->
  sem_excecao fl (selecionar df skus) ->
  exists p1 p2,
    calcular ppf fl M1 df skus = Ok p1 /\
    calcular ppf fl M2 df skus = Ok p2 /\
    forall i r1 r2, In (i, r1) (resultado p1) -> In (i, r2) (resultado p2) ->
      sku (calculo r1) = sku (calculo r2)
      /\ forall z1 z2 raw2,
           z (calculo r1) = Fin z1 -> z (calculo r2) = Fin z2 ->
           0 <= z1 <= z2 ->
           -1 <= Lead_Time_medio (sku (calculo r1)) ->
           SS_Calculado (calculo r2) = Fin raw2 ->
           raw2 <= IZR Np.int64_max ->
           (exists raw1, SS_Calculado (calculo r1) = Fin raw1
                         /\ 0 <= raw1 <= raw2)
           /\ (0 <= SS_Arredondado (calculo r1)
               <= SS_Arredondado (calculo r2))%Z
           /\ (forall x v2,
                 col_Valor_Unit (sku (calculo r1)) = Decimal x -> 0 <= x ->
                 Valor_SS_Calculado r2 = Fin v2 ->
                 exists v1, Valor_SS_Calculado r1 = Fin v1 /\ 0 <= v1 <= v2)
           /\ (forall m,
                 col_Valor_Unit (sku (calculo r1)) = Inteiro m -> (0 <= m)%Z ->
                 (SS_Arredondado (calculo r2) * m <= Np.int64_max)%Z ->
                 Valor_SS_Calculado r1
                 = Fin (IZR (SS_Arredondado (calculo r1) * m))
                 /\ Valor_SS_Calculado r2
                    = Fin (IZR (SS_Arredondado (calculo r2) * m))
                 /\ (SS_Arredondado (calculo r1) * m
                     <= SS_Arredondado (calculo r2) * m)%Z).
Proof.
  intros Hwf Hne Hex.
  exists (passe_de ppf fl M1 (selecionar df skus)),
         (passe_de ppf fl M2 (selecionar df skus)).
  split; [now apply calcular_ok|]. split; [now apply calcular_ok|].
  assert (Hnd : NoDup (map fst (selecionar df skus))).
  { now destruct (selecionar_bem_formado skus Hwf) as [Hnd _]. }
  intros i r1 r2 Hin1 Hin2. cbn [resultado passe_de] in Hin1, Hin2.
  apply In_resultado_de in Hin1 as [s1 [Hs1 ->]].
  apply In_resultado_de in Hin2 as [s2 [Hs2 ->]].
  assert (Heq : s1 = s2) by exact (NoDup_fst_functional _ i s1 s2 Hnd Hs1 Hs2).
  subst s2.
  cbn [calculo derivar sku linha_calculada z SS_Calculado SS_Arredondado
       Valor_SS_Calculado].
  split; [reflexivity|].
  intros z1 z2 raw2 Hz1 Hz2 Hz HLT Hraw2 Hfit.
  destruct (@sem_excecao_In fl _ i s1 Hex Hs1) as [[raiz Hraiz] _].
  destruct (@bem_formado_In df skus i s1 Hwf Hs1) as [_ Hval].
  assert (Hr := @raiz_nao_negativa fl s1 raiz Hval HLT Hraiz).
  rewrite !(@ss_calc_de_Ok fl _ s1 raiz Hraiz) in *.
  rewrite Hz1, Hz2 in *.
  destruct (@ss_monotono fl z1 z2 raw2 raiz Hz Hr Hraw2 Hfit)
    as (raw1 & Hraw1 & Hle & Hss).
  rewrite Hraw1, Hraw2 in *.
  set (n1 := Np.astype_int (Np.ceil (Fin raw1))) in *.
  set (n2 := Np.astype_int (Np.ceil (Fin raw2))) in *.
  split; [now exists raw1|]. split; [exact Hss|]. split.
  - intros x v2 Hx Hx0 Hv2. rewrite Hx in *. cbn [int64_vezes] in *.
    unfold Np.of_int in *. cbn [Np.fmul] in *.
    apply arredondar_Fin in Hv2 as [Hlim ->].
    pose proof limite_pos as HL. apply Rabs_def2 in Hlim as [Hhi Hlo].
    assert (Hn1 : 0 <= Np.rnd fl (IZR n1))
      by (apply rnd_nonneg; apply IZR_le; lia).
    assert (Hn12 : Np.rnd fl (IZR n1) <= Np.rnd fl (IZR n2))
      by (apply Np.rnd_mono; apply IZR_le; lia).
    assert (Hp : 0 <= Np.rnd fl (IZR n1) * x <= Np.rnd fl (IZR n2) * x)
      by (split; nra).
    rewrite arredondar_finito by (apply Rabs_def1; lra).
    eexists. split; [reflexivity|]. split.
    + apply rnd_nonneg. lra.
    + apply Np.rnd_mono. lra.
  - intros m Hm Hm0 Hfitm. rewrite Hm. cbn [int64_vezes].
    assert (H12 : (0 <= n1 * m <= n2 * m)%Z) by nia.
    rewrite !wrap64_id by (unfold Np.int64_min, Np.int64_max in *; lia).
    split; [reflexivity|]. split; [reflexivity | lia].
Qed.

Lemma X15_larger_quantile_witness :
  bem_formado df_exemplo
  /\ selecionar df_exemplo [] <> []
  /\ sem_excecao Np.exato (selecionar df_exemplo [])
  /\ exists p1 p2,
       calcular ppf_exemplo Np.exato matriz_default df_exemplo [] = Ok p1 /\
       calcular ppf_exemplo Np.exato matriz_98 df_exemplo [] = Ok p2 /\
       forall i r1 r2, In (i, r1) (resultado p1) -> In (i, r2) (resultado p2) ->
         (SS_Arredondado (calculo r1) <= SS_Arredondado (calculo r2))%Z.
Proof.
  assert (Hwf := df_exemplo_bem_formado).
  assert (Hne : selecionar df_exemplo [] <> []) by discriminate.
  assert (Hex := df_exemplo_sem_excecao).
  split; [exact Hwf|]. split; [exact Hne|]. split; [exact Hex|].
  destruct (@X15_larger_quantile_never_lowers_stock ppf_exemplo Np.exato
              matriz_default matriz_98 df_exemplo [] Hwf Hne Hex)
    as (p1 & p2 & Hp1 & Hp2 & Hrows).
  exists p1, p2. split; [exact Hp1|]. split; [exact Hp2|].
  intros i r1 r2 Hin1 Hin2.
  destruct (Hrows i r1 r2 Hin1 Hin2) as [_ Hmono].
  destruct (@calcular_inv _ _ _ _ _ _ Hwf Hp1) as (_ & _ & Heq1).
  destruct (@calcular_inv _ _ _ _ _ _ Hwf Hp2) as (_ & _ & Heq2).
  rewrite Heq1 in Hin1. rewrite Heq2 in Hin2.
  cbn [resultado passe_de selecionar df_exemplo resultado_de calculadas map
       fst snd In] in Hin1, Hin2.
  destruct Hin1 as [E1|[]]. injection E1 as _ <-.
  destruct Hin2 as [E2|[]]. injection E2 as _ <-.
  destruct (@raiz_do_exemplo Np.exato sku_exemplo) as (x & Hx & Hxb);
    try (estatisticas; lra).
  assert (Hz2 : z_de ppf_exemplo matriz_98 sku_exemplo = Fin 2.05375).
  { unfold z_de.
    replace (mapeado matriz_98 sku_exemplo) with true by reflexivity.
    replace (Pd.data matriz_98 (Criticidade sku_exemplo) (Curva sku_exemplo))
      with 98%Z by reflexivity.
    rewrite <- ppf_exemplo_98. f_equal; lra. }
  pose proof limite_grande as HL.
  refine (proj2 (proj1 (proj2 (Hmono 1.64485 2.05375 (2.05375 * x)
                                 _ _ _ _ _ _)))).
  - cbn [calculo derivar linha_calculada z]. apply z_exemplo_default.
  - cbn [calculo derivar linha_calculada z]. exact Hz2.
  - lra.
  - cbn [calculo derivar sku linha_calculada]. estatisticas. lra.
  - cbn [calculo derivar linha_calculada SS_Calculado].
    rewrite (@ss_calc_de_Ok Np.exato _ sku_exemplo _ Hx), Hz2.
    apply fmul_sem_erro; [reflexivity|]. apply Rabs_def1; nra.
  - unfold Np.int64_max.
    replace (2 ^ 63 - 1)%Z with 9223372036854775807%Z by reflexivity. nra.
Defined.
(** A rounded result from [c] (0 or 1) up is a float from [c] up or
    +inf; one up to [c] is a float up to [c] or -inf. *)
Lemma arredondar_desde fl (c : Z) (x : R) :
  (0 <= c <= 1)%Z -> IZR c <= x ->
  Np.arredondar fl x = PInf
  \/ exists v, Np.arredondar fl x = Fin v /\ IZR c <= v.
Proof.
  intros Hc Hx. pose proof limite_pos as HL.
  assert (H0 : 0 <= IZR c) by (apply IZR_le; lia).
  destruct (arredondar_casos fl x) as [[_ ->]|[[_ ->]|[Hneg _]]].
  - right. eexists. split; [reflexivity|].
    rewrite <- (Np.rnd_int fl c) by (cbn; lia). now apply Np.rnd_mono.
  - now left.
  - lra.
Qed.

Lemma arredondar_ate fl (c : Z) (x : R) :
  (0 <= c <= 1)%Z -> x <= IZR c ->
  Np.arredondar fl x = NInf
  \/ exists v, Np.arredondar fl x = Fin v /\ v <= IZR c.
Proof.
  intros Hc Hx. pose proof limite_grande as HL.
  assert (H1 : IZR c <= 1) by (apply IZR_le; lia).
  destruct (arredondar_casos fl x) as [[_ ->]|[[Hpos _]|[_ ->]]].
  - right. eexists. split; [reflexivity|].
    rewrite <- (Np.rnd_int fl c) by (cbn; lia). now apply Np.rnd_mono.
  - lra.
  - now left.
Qed.

(** Line 221 when the rounded stock is not below the current one, and
    when it is not above it. *)
Lemma pct_nao_negativa fl (n a : R) :
  0 < a -> a <= n ->
  let pct :=
    Np.fmul fl (Np.fsub fl (Np.fdiv fl (Fin n) (Fin a)) (Fin 1)) (Fin 100) in
  pct = PInf \/ exists v, pct = Fin v /\ 0 <= v.
Proof.
  intros Ha Hn. cbv zeta. cbn [Np.fdiv]. rewrite Reqb_false by lra.
  assert (Hq : IZR 1 <= n / a).
  { apply Rmult_le_reg_r with a; [assumption|]. unfold Rdiv.
    rewrite Rmult_assoc, Rinv_l by lra. lra. }
  destruct (@arredondar_desde fl 1 (n / a) ltac:(lia) Hq)
    as [-> | (q & -> & Hq1)].
  - left. cbn. unfold Np.scale_inf. now rewrite Rgtb_true by lra.
  - cbn [Np.fsub].
    destruct (@arredondar_desde fl 0 (q - 1) ltac:(lia) ltac:(lra))
      as [-> | (t & -> & Ht)].
    + left. cbn. unfold Np.scale_inf. now rewrite Rgtb_true by lra.
    + cbn [Np.fmul].
      destruct (@arredondar_desde fl 0 (t * 100) ltac:(lia) ltac:(lra))
        as [-> | (v & -> & Hv)]; [now left | right; eauto].
Qed.

Lemma pct_nao_positiva fl (n a : R) :
  0 < a -> n <= a ->
  let pct :=
    Np.fmul fl (Np.fsub fl (Np.fdiv fl (Fin n) (Fin a)) (Fin 1)) (Fin 100) in
  pct = NInf \/ exists v, pct = Fin v /\ v <= 0.
Proof.
  intros Ha Hn. cbv zeta. cbn [Np.fdiv]. rewrite Reqb_false by lra.
  assert (Hq : n / a <= IZR 1).
  { apply Rmult_le_reg_r with a; [assumption|]. unfold Rdiv.
    rewrite Rmult_assoc, Rinv_l by lra. lra. }
  destruct (@arredondar_ate fl 1 (n / a) ltac:(lia) Hq)
    as [-> | (q & -> & Hq1)].
  - left. cbn. unfold Np.scale_inf. now rewrite Rgtb_true by lra.
  - cbn [Np.fsub].
    destruct (@arredondar_ate fl 0 (q - 1) ltac:(lia) ltac:(lra))
      as [-> | (t & -> & Ht)].
    + left. cbn. unfold Np.scale_inf. now rewrite Rgtb_true by lra.
    + cbn [Np.fmul].
      destruct (@arredondar_ate fl 0 (t * 100) ltac:(lia) ltac:(lra))
        as [-> | (v & -> & Hv)]; [now left | right; eauto].
Qed.

(** X7.  The unit difference is the rounded safety stock minus the
    current one, in int64 arithmetic on an int64 column (the exact
    difference when it fits an int64) and in float arithmetic on a float
    column.  With a positive current safety stock and whole numbers that a
    float holds exactly, the percentage difference never has the sign
    opposite to the change: it is not negative when the rounded stock is
    not below the current one, not positive when it is not above it, and
    exactly 0 when nothing changes. *)
Theorem X7_differences_agree ppf fl M (df : frame Sku) (skus : list string) :
  bem_formado df ->
  selecionar df skus <> [] ->
  sem_excecao fl (selecionar df skus) ->
  exists p,
    calcular ppf fl M df skus = Ok p /\
    forall i r, In (i, r) (resultado p) ->
      let s := sku (calculo r) in
      let ss := SS_Arredondado (calculo r) in
      let atual := Estoque_de_Seguranca s in
      (forall m, col_Estoque_de_Seguranca s = Inteiro m ->
         Diferenca_Unidades r = Fin (IZR (Np.wrap64 (ss - m)))
         /\ ((Np.int64_min <= ss - m <= Np.int64_max)%Z ->
             Diferenca_Unidades r = Fin (IZR ss - atual)))
      /\ (forall x, col_Estoque_de_Seguranca s = Decimal x ->
            Diferenca_Unidades r = Np.fsub fl (Np.of_int fl ss) (Fin x))
      /\ (0 < atual ->
          (Z.abs ss <= 2 ^ 53)%Z ->
          (forall m, col_Estoque_de_Seguranca s = Inteiro m ->
                     (m <= 2 ^ 53)%Z) ->
          (atual <= IZR ss ->
           Diferenca_pct r = PInf
           \/ exists v, Diferenca_pct r = Fin v /\ 0 <= v)
          /\ (IZR ss <= atual ->
              Diferenca_pct r = NInf
              \/ exists v, Diferenca_pct r = Fin v /\ v <= 0)
          /\ (IZR ss = atual -> Diferenca_pct r = Fin 0)).
Proof.
  intros Hwf Hne Hex.
  exists (passe_de ppf fl M (selecionar df skus)). split.
  { now apply calcular_ok. }
  intros i r Hin. cbn [resultado passe_de] in Hin.
  apply In_resultado_de in Hin as [s [_ ->]].
  cbn [calculo derivar sku linha_calculada Diferenca_Unidades Diferenca_pct
       SS_Arredondado].
  set (ss := Np.astype_int (Np.ceil (ss_calc_de fl (z_de ppf M s) s))).
  unfold Estoque_de_Seguranca.
  split; [|split].
  - intros m Hm. rewrite Hm. cbn [int64_menos valor].
    split; [reflexivity|]. intros Hfit.
    now rewrite wrap64_id, minus_IZR.
  - intros x Hx. now rewrite Hx.
  - intros Hpos Hss Hm.
    rewrite Rgtb_true by assumption. cbn [Np.where_].
    assert (Hof : Np.of_int fl ss = Fin (IZR ss)).
    { unfold Np.of_int. now rewrite Np.rnd_int. }
    assert (Hfl : flutuante fl (col_Estoque_de_Seguranca s)
                  = Fin (valor (col_Estoque_de_Seguranca s))).
    { destruct (col_Estoque_de_Seguranca s) as [m|x] eqn:Hc;
        cbn [flutuante valor]; [|reflexivity].
      unfold Np.of_int. rewrite Np.rnd_int; [reflexivity|].
      cbn [valor] in Hpos. apply lt_IZR in Hpos.
      specialize (Hm m eq_refl). lia. }
    rewrite Hof, Hfl.
    assert (Hge := @pct_nao_negativa fl (IZR ss)
                     (valor (col_Estoque_de_Seguranca s)) Hpos).
    assert (Hle := @pct_nao_positiva fl (IZR ss)
                     (valor (col_Estoque_de_Seguranca s)) Hpos).
    cbv zeta in Hge, Hle.
    split; [exact Hge|]. split; [exact Hle|].
    intros Heq.
    assert (Hge' := Hge ltac:(lra)). assert (Hle' := Hle ltac:(lra)).
    destruct Hge' as [Hp|(v & Hv & Hv0)];
      destruct Hle' as [Hn|(w & Hw & Hw0)].
    + rewrite Hp in Hn. discriminate.
    + rewrite Hp in Hw. discriminate.
    + rewrite Hv in Hn. discriminate.
    + rewrite Hv in Hw |- *. injection Hw as <-. f_equal. lra.
Qed.

Lemma X7_differences_witness :
  bem_formado df_curva_d
  /\ selecionar df_curva_d [] <> []
  /\ sem_excecao Np.exato (selecionar df_curva_d [])
  /\ exists p,
       calcular ppf_exemplo Np.exato matriz_default df_curva_d [] = Ok p /\
       forall i r, In (i, r) (resultado p) ->
         forall m, col_Estoque_de_Seguranca (sku (calculo r)) = Inteiro m ->
           Diferenca_Unidades r
           = Fin (IZR (Np.wrap64 (SS_Arredondado (calculo r) - m))).
Proof.
  assert (Hwf := df_curva_d_bem_formado).
  assert (Hne : selecionar df_curva_d [] <> []) by discriminate.
  assert (Hex := df_curva_d_sem_excecao).
  split; [exact Hwf|]. split; [exact Hne|]. split; [exact Hex|].
  destruct (@X7_differences_agree ppf_exemplo Np.exato matriz_default
              df_curva_d [] Hwf Hne Hex) as (p & Hp & Hrows).
  exists p. split; [exact Hp|]. intros i r Hin m Hm.
  destruct (Hrows i r Hin) as (Hint & _).
  exact (proj1 (Hint m Hm)).
Defined.

(** ** Rounding to two decimals *)

Lemma rint_error (y : R) : - (1 / 2) <= IZR (Np.rint y) - y <= 1 / 2.
Proof.
  unfold Np.rint. pose proof (Zfloor_bound y) as [Hlo Hhi].
  unfold Np.Rgtb.
  destruct (Rlt_dec (y - IZR (Zfloor y)) (1 / 2)) as [H1|H1].
  - lra.
  - destruct (Rlt_dec (1 / 2) (y - IZR (Zfloor y))) as [H2|H2].
    + rewrite plus_IZR. lra.
    + destruct (Z.even (Zfloor y)).
      * lra.
      * rewrite plus_IZR. lra.
Qed.

(** [round(2)] in binary64 moves a cell of moderate size by little more
    than half a hundredth. *)
Lemma round2_perto fl (x : R) :
  Rabs x <= 1000000000 ->
  exists q, Np.round2 fl (Fin x) = Fin q
            /\ Rabs (q - x) <= 1 / 200 + 1 / 50000.
Proof.
  intros Hx. pose proof limite_grande as HL.
  apply Rabs_le_elim in Hx.
  cbn [Np.round2 Np.fmul].
  rewrite arredondar_finito by (apply Rabs_def1; lra).
  eexists. split; [reflexivity|].
  set (y := Np.rnd fl (x * 100)).
  assert (Hy : Rabs (y - x * 100) <= 1 / 5000).
  { unfold y. pose proof (Np.rnd_err fl (x * 100)) as He.
    assert (Hb : Rabs (x * 100) <= 100000000000) by (apply Rabs_le; lra).
    eapply Rle_trans; [exact He|]. lra. }
  apply Rabs_le_elim in Hy.
  pose proof (rint_error y) as Hn.
  set (n := IZR (Np.rint y)) in *.
  assert (Hq : Rabs (Np.rnd fl (n / 100) - n / 100) <= 1 / 100000).
  { pose proof (Np.rnd_err fl (n / 100)) as He.
    assert (Hb : Rabs (n / 100) <= 1000000001) by (apply Rabs_le; lra).
    eapply Rle_trans; [exact He|]. lra. }
  apply Rabs_le_elim in Hq. apply Rabs_le. lra.
Qed.

Lemma arredondado_perto fl (c : numero) :
  Rabs (valor c) <= 1000000000 ->
  perto (arredondado fl c) (valor c) (1 / 200 + 1 / 50000).
Proof.
  destruct c as [n|x]; cbn [valor arredondado perto]; intros Hx;
    [reflexivity|].
  destruct (@round2_perto fl x Hx) as (q & -> & Hq). exact Hq.
Qed.

(** X13.  Every row of the result has its row in the table.  There a
    copied int64 column is unchanged, and a copied float column whose
    number is at most 10^9 in magnitude holds a finite number within
    0.00502 of it: [round(2)] in binary64. *)
Theorem X13_table_within_half_a_hundredth ppf fl M (df : frame Sku)
        (skus : list string) :
  bem_formado df ->
  selecionar df skus <> [] ->
  sem_excecao fl (selecionar df skus) ->
  exists p,
    calcular ppf fl M df skus = Ok p /\
    forall i r, In (i, r) (resultado p) ->
      exists t,
        In (i, t) (tabela p) /\
        let s := sku (calculo r) in
        let e := 1 / 200 + 1 / 50000 in
        (Rabs (Valor_Unit s) <= 1000000000 ->
         perto (t_Valor_Unit t) (Valor_Unit s) e)
        /\ (Rabs (Estoque_de_Seguranca s) <= 1000000000 ->
            perto (t_SS_Atual t) (Estoque_de_Seguranca s) e)
        /\ (Rabs (Lead_Time_medio s) <= 1000000000 ->
            perto (t_Lead_Time_medio t) (Lead_Time_medio s) e)
        /\ (Rabs (Consumo_Medio_Mensal s) <= 1000000000 ->
            perto (t_Consumo_Medio_Mensal t) (Consumo_Medio_Mensal s) e)
        /\ (forall n, col_Valor_Unit s = Inteiro n -> t_Valor_Unit t = I64 n)
        /\ (forall n, col_Estoque_de_Seguranca s = Inteiro n ->
                      t_SS_Atual t = I64 n)
        /\ t_SS_Calculado t = SS_Arredondado (calculo r).
Proof.
  intros Hwf Hne Hex.
  exists (passe_de ppf fl M (selecionar df skus)). split.
  { now apply calcular_ok. }
  cbn [resultado tabela passe_de]. intros i r Hin.
  exists (tabular fl r). split.
  { unfold tabela_de. apply in_map_iff. now exists (i, r). }
  apply In_resultado_de in Hin as [s [_ ->]].
  cbn [tabular calculo derivar sku linha_calculada t_Valor_Unit t_SS_Atual
       t_Lead_Time_medio t_Consumo_Medio_Mensal t_SS_Calculado
       SS_Arredondado].
  cbv zeta.
  unfold Valor_Unit, Estoque_de_Seguranca, Lead_Time_medio,
    Consumo_Medio_Mensal.
  split; [apply arredondado_perto|]. split; [apply arredondado_perto|].
  split; [apply arredondado_perto|]. split; [apply arredondado_perto|].
  split; [intros n ->; reflexivity|].
  split; [intros n ->; reflexivity | reflexivity].
Qed.

(** The record with unit value 0.004: the table holds a unit value
    within 0.00502 of it. *)
Lemma X13_table_rounding_witness :
  bem_formado df_centavos
  /\ selecionar df_centavos [] <> []
  /\ sem_excecao Np.exato (selecionar df_centavos [])
  /\ exists p,
       calcular ppf_exemplo Np.exato matriz_default df_centavos [] = Ok p /\
       forall i r, In (i, r) (resultado p) ->
         exists t, In (i, t) (tabela p)
                   /\ perto (t_Valor_Unit t) 0.004 (1 / 200 + 1 / 50000)
                   /\ t_SS_Atual t = I64 1000.
Proof.
  assert (Hwf := df_centavos_bem_formado).
  assert (Hne : selecionar df_centavos [] <> []) by discriminate.
  assert (Hex := df_centavos_sem_excecao).
  split; [exact Hwf|]. split; [exact Hne|]. split; [exact Hex|].
  destruct (@X13_table_within_half_a_hundredth ppf_exemplo Np.exato
              matriz_default df_centavos [] Hwf Hne Hex) as (p & Hp & Hrows).
  exists p. split; [exact Hp|]. intros i r Hin.
  destruct (Hrows i r Hin) as (t & Ht & Hvu & _ & _ & _ & _ & Hss & _).
  destruct (@calcular_inv _ _ _ _ _ _ Hwf Hp) as (_ & _ & Heq).
  rewrite Heq in Hin.
  cbn [resultado passe_de selecionar df_centavos resultado_de calculadas map
       fst snd In] in Hin.
  destruct Hin as [E|[]]. injection E as _ <-.
  exists t. split; [exact Ht|]. split.
  - assert (Hv : Valor_Unit sku_centavos = 0.004) by reflexivity.
    cbn [calculo derivar sku linha_calculada] in Hvu. rewrite Hv in Hvu.
    apply Hvu. apply Rabs_le. lra.
  - apply Hss. reflexivity.
Defined.
